(** * Model Context Protocol: distributed Streamable-HTTP transport and protocol engine

  A shallow embedding of
  - [packages/transports/server/distributed-streamable-http/src/topics.ts],
  - [packages/transports/server/distributed-streamable-http/src/transport.ts],
  - [packages/sdk/src/protocol/assertions.ts] and
  - the [Protocol] class (request correlation, dispatch, cancellation),
  together with the properties of the specification that concern them.

  Conventions.  JavaScript values that reach the code through [JSON.parse]
  are values of [json].  A function that may throw returns an [outcome];
  an awaited call may also never settle.
  Objects that are shared by reference ([AbortController]s, promises) live
  in explicit stores and are named by their index. *)

From Stdlib Require Import ZArith Lia Ascii.
From stdpp Require Import base option list strings pretty gmap.

Open Scope Z_scope.

(** * JavaScript preliminaries *)

Module Js.

(** An error object: its [message], and its [code] when it has one. *)
Record Error := { err_code : option Z; err_message : string }.

(** How a call ends: it returns, it throws, or, for an awaited call, its
    promise never settles and the caller is never resumed. *)
Inductive outcome (A : Type) :=
| Returned (a : A)
| Thrown (e : Error)
| Unsettled.
Arguments Returned {A} a.
Arguments Thrown {A} e.
Arguments Unsettled {A}.

(** Truthiness of a [string | undefined], as tested by [if (x)] and [!x]. *)
Definition truthy (x : option string) : bool :=
  match x with
  | None => false
  | Some s => negb (bool_decide (s = ""))
  end.

(** [a ?? b] *)
Definition nullish {A} (a : option A) (b : A) : A := default b a.

(** [`${x}`] for [x : string | undefined]. *)
Definition template_opt (x : option string) : string := default "undefined" x.

End Js.

(** * JSON values *)

Module Json.

(** What [JSON.parse] produces.  A number is carried as an integer [n] and
    stands for the double nearest to [n], the value that [JSON.parse] gives
    the literal of [n] and that [String] prints; numbers with a fractional
    part are not modelled.  The code modelled here only prints numbers
    ([String(id)]) and tests them for zero. *)
#[warnings="-register-all"] Inductive json :=
| JNull
| JBool (b : bool)
| JNum (n : Z)
| JStr (s : string)
| JArr (items : list json)
| JObj (fields : list (string * json)).

(** Own property lookup in the field list of an object. *)
Fixpoint lookup_field (k : string) (fields : list (string * json)) : option json :=
  match fields with
  | [] => None
  | (k', v) :: rest => if decide (k' = k) then Some v else lookup_field k rest
  end.

(** [v[k]]; [None] is [undefined].  Property access on a primitive or an
    array yields [undefined] for the keys used by this code base. *)
Definition get (k : string) (v : json) : option json :=
  match v with
  | JObj fields => lookup_field k fields
  | _ => None
  end.

(** [v?.[k]] for [v : json | undefined]. *)
Definition get_opt (k : string) (v : option json) : option json :=
  match v with
  | Some (JObj fields) => lookup_field k fields
  | _ => None
  end.

(** [k in v], for [v] an object. *)
Definition has (k : string) (v : json) : bool := bool_decide (is_Some (get k v)).

Definition typeof_string (v : option json) : bool :=
  match v with Some (JStr _) => true | _ => false end.
Definition typeof_number (v : option json) : bool :=
  match v with Some (JNum _) => true | _ => false end.
Definition isArray (v : option json) : bool :=
  match v with Some (JArr _) => true | _ => false end.

(** [v === "s"] and [v === null]. *)
Definition is_string (s : string) (v : option json) : bool :=
  match v with Some (JStr s') => bool_decide (s' = s) | _ => false end.
Definition is_null (v : option json) : bool :=
  match v with Some JNull => true | _ => false end.

(** ** [String(n)] for a number *)

(** The double nearest to the integer [n >= 0], ties to even: the value
    [JSON.parse] gives an integer literal.  [None] is [Infinity]. *)
Definition nearest_double (n : Z) : option Z :=
  let bits := Z.log2 n + 1 in
  if bits <=? 53 then Some n
  else
    let k := bits - 53 in
    let q := Z.shiftr n k in
    let r := n - Z.shiftl q k in
    let half := Z.shiftl 1 (k - 1) in
    let q' := if (half <? r) || ((r =? half) && Z.odd q) then q + 1 else q in
    let v := Z.shiftl q' k in
    if 2 ^ 1024 <=? v then None else Some v.

Fixpoint first_some {A B} (f : A → option B) (l : list A) : option B :=
  match l with
  | [] => None
  | x :: rest => match f x with Some y => Some y | None => first_some f rest end
  end.

(** The integer with the fewest significant digits that reads back as the
    double [v], and among those the one nearest to [v]
    (Number::toString, step 5). *)
Definition shortest_decimal (v : Z) : Z :=
  let bits := Z.log2 v + 1 in
  if bits <=? 53 then v
  else
    let e := bits - 53 in
    let m := Z.shiftr v e in
    let ulp := Z.shiftl 1 e in
    let below := if m =? 2 ^ 52 then Z.shiftl 1 (e - 1) else ulp in
    let inside c :=
      if Z.even m then (2 * v - below <=? 2 * c) && (2 * c <=? 2 * v + ulp)
      else (2 * v - below <? 2 * c) && (2 * c <? 2 * v + ulp) in
    let digits := Z.of_nat (String.length (pretty v)) in
    let try k :=
      let scale := 10 ^ (digits - k) in
      let down := v / scale * scale in
      let up := down + scale in
      match inside down, inside up with
      | true, true =>
          if v - down <? up - v then Some down
          else if up - v <? v - down then Some up
          else if Z.even (down / scale) then Some down else Some up
      | true, false => Some down
      | false, true => Some up
      | false, false => None
      end in
    default v (first_some try (seqZ 1 17)).

(** The digits without their trailing zeros. *)
Fixpoint strip_zeros (digits : string) : string :=
  match digits with
  | "" => ""
  | String c rest =>
      match strip_zeros rest with
      | "" => if decide (c = "0"%char) then "" else String c ""
      | rest' => String c rest'
      end
  end.

(** Number::toString for a non-negative integer: plain digits below
    [1e21], exponent notation from there on. *)
Definition Number_toString_nonneg (v : Z) : string :=
  let digits := pretty v in
  let n := String.length digits in
  if (n <=? 21)%nat then digits
  else
    match strip_zeros digits with
    | "" => digits
    | String d "" => String d "" +:+ "e+" +:+ pretty (Z.of_nat n - 1)
    | String d rest => String d "" +:+ "." +:+ rest +:+ "e+" +:+ pretty (Z.of_nat n - 1)
    end.

(** [String(n)] for the number that [JSON.parse] reads from the integer
    literal [n]. *)
Definition Number_toString (n : Z) : string :=
  let sign := if n <? 0 then "-" else "" in
  match nearest_double (Z.abs n) with
  | None => sign +:+ "Infinity"
  | Some v => sign +:+ Number_toString_nonneg (shortest_decimal v)
  end.

(** [String(v)].  An array prints as its elements joined by commas with
    [null] elided, an object as [[object Object]]. *)
Fixpoint String_ (v : json) : string :=
  match v with
  | JNull => "null"
  | JBool true => "true"
  | JBool false => "false"
  | JNum n => Number_toString n
  | JStr s => s
  | JArr items =>
      (fix join (l : list json) : string :=
         match l with
         | [] => ""
         | x :: rest =>
             let e := match x with JNull => "" | _ => String_ x end in
             match rest with
             | [] => e
             | _ => e +:+ "," +:+ join rest
             end
         end) items
  | JObj _ => "[object Object]"
  end.

(** [String(x)] and [`${x}`] for [x] a JSON value or [undefined]. *)
Definition String_opt (x : option json) : string :=
  match x with
  | None => "undefined"
  | Some v => String_ v
  end.

(** Truthiness of a JSON value or [undefined]. *)
Definition truthy_json (x : option json) : bool :=
  match x with
  | None | Some JNull => false
  | Some (JBool b) => b
  | Some (JNum n) => negb (bool_decide (n = 0))
  | Some (JStr s) => negb (bool_decide (s = ""))
  | Some (JArr _) | Some (JObj _) => true
  end.

End Json.

Export Json.

(** * Type guards ([assertions.ts]) *)

Module Assertions.

(** Modelled from the spec: the constant [JSONRPC_VERSION] of [schema.ts],
    which is not part of the sources at hand; every envelope of the
    specification carries ["jsonrpc":"2.0"]. *)
Definition JSONRPC_VERSION : string := "2.0".

Definition isObject (v : option json) : bool :=
  match v with Some (JObj _) => true | _ => false end.

Definition hasJSONRPCVersion (value : json) : bool :=
  isObject (Some value) && has "jsonrpc" value
  && is_string JSONRPC_VERSION (get "jsonrpc" value).

(** [params], if present, must be an object or an array. *)
Definition params_ok (obj : json) : bool :=
  if has "params" obj
  then isObject (get "params" obj) || isArray (get "params" obj)
  else true.

Definition isJSONRPCRequest (value : json) : bool :=
  if negb (hasJSONRPCVersion value) then false
  else if negb (has "id" value) then false
  else if negb (has "method" value) then false
  else if negb (typeof_string (get "id" value)) && negb (typeof_number (get "id" value)) then false
  else if negb (typeof_string (get "method" value)) then false
  else params_ok value.

Definition isJSONRPCNotification (value : json) : bool :=
  if negb (hasJSONRPCVersion value) then false
  else if has "id" value then false
  else if negb (has "method" value) then false
  else if negb (typeof_string (get "method" value)) then false
  else params_ok value.

Definition isJSONRPCResponse (value : json) : bool :=
  if negb (hasJSONRPCVersion value) then false
  else if negb (has "id" value) then false
  else if negb (has "result" value) then false
  else if has "error" value then false
  else if negb (typeof_string (get "id" value)) && negb (typeof_number (get "id" value)) then false
  else true.

Definition isJSONRPCError (value : json) : bool :=
  if negb (hasJSONRPCVersion value) then false
  else if negb (has "id" value) then false
  else if negb (has "error" value) then false
  else
    let idValue := get "id" value in
    if negb (is_null idValue) && negb (typeof_string idValue)
       && negb (typeof_number idValue) then false
    else
      let errorValue := get "error" value in
      if negb (isObject errorValue) then false
      else if negb (typeof_number (get_opt "code" errorValue)) then false
      else if negb (typeof_string (get_opt "message" errorValue)) then false
      else true.

Definition isCancelledNotification (value : json) : bool :=
  if negb (isJSONRPCNotification value) then false
  else if negb (is_string "notifications/cancelled" (get "method" value)) then false
  else
    let params := get "params" value in
    if negb (isObject params) then false
    else if negb (bool_decide (is_Some (get_opt "requestId" params))) then false
    else
      let requestId := get_opt "requestId" params in
      if negb (typeof_string requestId) && negb (typeof_number requestId) then false
      else true.

Definition isProgressNotification (value : json) : bool :=
  if negb (isJSONRPCNotification value) then false
  else if negb (is_string "notifications/progress" (get "method" value)) then false
  else
    let params := get "params" value in
    if negb (isObject params) then false
    else if negb (bool_decide (is_Some (get_opt "progressToken" params))) then false
    else if negb (bool_decide (is_Some (get_opt "progress" params))) then false
    else if negb (typeof_string (get_opt "progressToken" params))
            && negb (typeof_number (get_opt "progressToken" params)) then false
    else typeof_number (get_opt "progress" params).

End Assertions.

Export Assertions.

(** * Topic scheme ([topics.ts]) *)

Module Topics.

(** Parameters for request-scoped topics. *)
Record RequestScopeParams := { rq_sessionId : string; rq_requestId : string }.

(** Parameters for session-scoped topics. *)
Record SessionScopeParams := { bg_sessionId : string }.

(** A topic is a function from its parameters to a subject string. *)
Record Topic (P : Type) := { subject : P → string }.
Arguments subject {P} _ _.

(** [`mcp.${p.sessionId}.${p.requestId}.${suffix}`] *)
Definition createRequestScopedTopic (suffix : string) : Topic RequestScopeParams :=
  {| subject p := "mcp." +:+ rq_sessionId p +:+ "." +:+ rq_requestId p +:+ "." +:+ suffix |}.

(** [`mcp.${p.sessionId}.bg.${suffix}`] *)
Definition createSessionScopedTopic (suffix : string) : Topic SessionScopeParams :=
  {| subject p := "mcp." +:+ bg_sessionId p +:+ ".bg." +:+ suffix |}.

Definition RequestInbound : Topic RequestScopeParams := createRequestScopedTopic "inbound".
Definition RequestOutbound : Topic RequestScopeParams := createRequestScopedTopic "outbound".
Definition BackgroundOutbound : Topic SessionScopeParams := createSessionScopedTopic "outbound".
Definition BackgroundInbound : Topic SessionScopeParams := createSessionScopedTopic "inbound".

(** [`mcp.${p.sessionId}.>`] *)
Definition SessionWildcard : Topic SessionScopeParams :=
  {| subject p := "mcp." +:+ bg_sessionId p +:+ ".>" |}.

End Topics.

(** * Constants of the SDK schema *)

Module Schema.

(** Modelled from the spec: the JSON-RPC error codes exported by [schema.ts],
    which is not part of the sources at hand; the values are those of the
    table "JSON-RPC error codes used" and of the comments of [errors.ts]. *)
Definition PARSE_ERROR : Z := -32700.
Definition INVALID_REQUEST : Z := -32600.
Definition METHOD_NOT_FOUND : Z := -32601.
Definition INVALID_PARAMS : Z := -32602.
Definition INTERNAL_ERROR : Z := -32603.

End Schema.

(** * The transport interface of the SDK ([protocol/transport.ts]) *)

Module SdkTransport.

Record TransportSendOptions := {
  sessionId : option string;
  requestId : option string;
  timeout : option Z
}.

End SdkTransport.

(** * The transport ([transport.ts]) *)

Module Transport.
Import Js Schema SdkTransport Topics.

Definition DEFAULT_ENDPOINT : string := "/".
Definition DEFAULT_RESPONSE_TIMEOUT_MS : Z := 30000.
Definition DEFAULT_ENABLE_BACKGROUND_CHANNEL : bool := true.
Definition DEFAULT_ENABLE_SESSION_TERMINATION : bool := true.

(** Methods that typically benefit from streaming responses. *)
Definition STREAMING_METHODS : gset string :=
  {[ "tools/call"; "sampling/createMessage"; "prompts/get" ]}.

Inductive ResponseMode := mode_json | mode_sse.

Definition is_sse (m : ResponseMode) : bool :=
  match m with mode_sse => true | mode_json => false end.

(** ** Collaborators *)

Record TransportSession := { session_id : string }.

(** The session store; [create] and [get] are its answers to this request. *)
Record SessionManager := {
  create : TransportSession;
  get_session : string → option TransportSession
}.

(** The broker, as far as the transport can tell: whether a [publish] on a
    subject throws. *)
Record EventBroker := { publish_throws : string → json → option Error }.

(** The callback installed by the protocol engine.  The transport awaits
    it, and the engine awaits the handler of a request and the sending of its
    reply before it returns: the call returns, rejects, or stays pending for
    as long as the handler does. *)
Definition TransportMessageHandler : Type := json → string → outcome unit.

Definition ResponseModeStrategy : Type :=
  list json → option TransportSession → ResponseMode.

Record Options := {
  httpServer_endpoint : option string;
  streamableHttp_responseTimeoutMs : option Z;
  streamableHttp_responseModeStrategy : option ResponseModeStrategy;
  streamableHttp_enableBackgroundChannel : option bool;
  streamableHttp_enableSessionTermination : option bool;
  sessions : option SessionManager;
  eventBroker : option EventBroker
}.

(** ** Default response mode strategy *)

(** [STREAMING_METHODS.has(msg.method)] *)
Definition is_streaming_method (msg : json) : bool :=
  match get "method" msg with
  | Some (JStr method) => bool_decide (method ∈ STREAMING_METHODS)
  | _ => false
  end.

(** [meta?.["progressToken"] !== undefined], with [meta = params?.["_meta"]]
    and [params = msg.params]. *)
Definition requests_progress (msg : json) : bool :=
  let params := get "params" msg in
  let meta := get_opt "_meta" params in
  bool_decide (is_Some (get_opt "progressToken" meta)).

Fixpoint defaultResponseModeStrategy (messages : list json) : ResponseMode :=
  match messages with
  | [] => mode_json
  | msg :: rest =>
      if isJSONRPCRequest msg then
        if is_streaming_method msg then mode_sse
        else if requests_progress msg then mode_sse
        else defaultResponseModeStrategy rest
      else defaultResponseModeStrategy rest
  end.

(** ** The transport object *)

Record Transport := {
  options : Options;
  broker : EventBroker;
  endpoint : string;
  responseTimeoutMs : Z;
  responseModeStrategy : ResponseModeStrategy;
  enableBackgroundChannel : bool;
  enableSessionTermination : bool;
  messageHandler : option TransportMessageHandler
}.

Definition constructor (options : Options) : outcome Transport :=
  match eventBroker options with
  | None =>
      Thrown {| err_code := None;
                err_message := "DistributedStreamableHttpServerTransport requires an 'eventBroker' for message routing." |}
  | Some b =>
      Returned {|
        options := options;
        broker := b;
        endpoint := nullish (httpServer_endpoint options) DEFAULT_ENDPOINT;
        responseTimeoutMs :=
          nullish (streamableHttp_responseTimeoutMs options) DEFAULT_RESPONSE_TIMEOUT_MS;
        responseModeStrategy :=
          nullish (streamableHttp_responseModeStrategy options)
                  (λ messages _, defaultResponseModeStrategy messages);
        enableBackgroundChannel :=
          nullish (streamableHttp_enableBackgroundChannel options)
                  DEFAULT_ENABLE_BACKGROUND_CHANNEL;
        enableSessionTermination :=
          nullish (streamableHttp_enableSessionTermination options)
                  DEFAULT_ENABLE_SESSION_TERMINATION;
        messageHandler := None
      |}
  end.

(** The protocol engine installs its callback when it connects. *)
Definition set_messageHandler (h : option TransportMessageHandler) (t : Transport) : Transport :=
  {| options := options t; broker := broker t; endpoint := endpoint t;
     responseTimeoutMs := responseTimeoutMs t;
     responseModeStrategy := responseModeStrategy t;
     enableBackgroundChannel := enableBackgroundChannel t;
     enableSessionTermination := enableSessionTermination t;
     messageHandler := h |}.

(** ** Effects: calls made on the collaborators, in order, and exceptions *)

Inductive Effect :=
| Delivered (message : json) (sessionId : string)
| Published (subject : string) (message : json)
| Subscribed (subject : string) (fromEventId : option string)
| SessionDeleted (sessionId : string)
| HeaderSet (name value : string).

Definition M (A : Type) : Type := (list Effect * outcome A)%type.

Definition ret {A} (a : A) : M A := ([], Returned a).
Definition throw {A} (e : Error) : M A := ([], Thrown e).
Definition emit (es : list Effect) : M unit := (es, Returned ()).
Definition hang {A} : M A := ([], Unsettled).
Definition bind {A B} (m : M A) (k : A → M B) : M B :=
  match m with
  | (es, Returned a) => let '(es', r) := k a in (es ++ es', r)
  | (es, Thrown e) => (es, Thrown e)
  | (es, Unsettled) => (es, Unsettled)
  end.

#[global] Instance M_ret : MRet M := @ret.
#[global] Instance M_bind : MBind M := λ A B k m, bind m k.

(** [await this.options.eventBroker.publish(topic, params, message)] *)
Definition publish {P} (t : Transport) (topic : Topic P) (params : P) (message : json) : M unit :=
  let s := subject topic params in
  ([Published s message],
   match publish_throws (broker t) s message with
   | Some e => Thrown e
   | None => Returned ()
   end).

(** ** Outbound routing *)

Definition send (t : Transport) (message : json) (options : option TransportSendOptions) : M unit :=
  let sessionId := options ≫= sessionId in
  if negb (truthy sessionId) then
    throw {| err_code := None;
             err_message := "Cannot send message: Missing sessionId in options" |}
  else
    let sessionId := template_opt sessionId in
    let requestId := if truthy (options ≫= requestId) then options ≫= requestId else None in
    if truthy requestId then
      let params := {| rq_sessionId := sessionId; rq_requestId := template_opt requestId |} in
      publish t RequestOutbound params message
    else
      let params := {| bg_sessionId := sessionId |} in
      if isJSONRPCRequest message then publish t BackgroundInbound params message
      else publish t BackgroundOutbound params message.

(** ** HTTP requests and responses *)

(** What reading the request body yields: a stream error, text that
    [JSON.parse] rejects, or the parsed value. *)
Inductive RequestBody :=
| StreamError (e : Error)
| InvalidJson
| ParsedJson (parsed : json).

(** The parts of a [node:http] request the transport reads; [pathname] and
    [query_sessionId] come from [new URL(req.url)]. *)
Record IncomingMessage := {
  method : string;
  pathname : string;
  accept : option string;
  mcp_session_id : option string;
  query_sessionId : option string;
  last_event_id : option string;
  body : RequestBody
}.

Inductive Payload :=
| Empty
| Text (s : string)
| Stringified (v : json).

Record ServerResponse := {
  statusCode : Z;
  headers : list (string * string);
  payload : Payload
}.

(** How a handler leaves the exchange: the response is ended; a stream has
    been opened ([handleSseResponse], the background channel of [handleGet])
    whose course is outside this model; or the handler is never resumed and
    the response is never ended. *)
Inductive Handled :=
| Finished (res : ServerResponse)
| SseStream (sessionId : string) (requests : list json) (head : list (string * string))
| BackgroundStream (sessionId : string) (fromEventId : option string)
| Unanswered.

(** What the runtime supplies: the listener state and the next UUID. *)
Record Env := { listening : bool; randomUUID : string }.

(** [s.includes(sub)] *)
Fixpoint includes (s sub : string) : bool :=
  String.prefix sub s ||
  match s with
  | "" => false
  | String _ rest => includes rest sub
  end.

Definition error_envelope (id : json) (code : Z) (message : string) : json :=
  JObj [("jsonrpc", JStr "2.0"); ("id", id);
        ("error", JObj [("code", JNum code); ("message", JStr message)])].

(** [handleError], on a response that has not ended. *)
Definition handleError (head : list (string * string)) : ServerResponse :=
  {| statusCode := 500;
     headers := head ++ [("Content-Type", "application/json")];
     payload := Stringified (error_envelope JNull INTERNAL_ERROR "Internal Server Error") |}.

(** ** Session management *)

Inductive SessionResult :=
| session_success (sessionId : string) (session : option TransportSession) (isNewSession : bool)
| session_failure (res : ServerResponse).

Definition getOrCreateSession (t : Transport) (env : Env) (req : IncomingMessage) : SessionResult :=
  let headerSessionId := mcp_session_id req in
  let querySessionId := query_sessionId req in
  let sessionId := match headerSessionId with Some h => Some h | None => querySessionId end in
  match sessions (options t) with
  | Some store =>
      if truthy sessionId then
        match get_session store (template_opt sessionId) with
        | None =>
            session_failure {| statusCode := 404; headers := []; payload := Text "Session Not Found" |}
        | Some session => session_success (template_opt sessionId) (Some session) false
        end
      else
        let session := create store in
        session_success (session_id session) (Some session) true
  | None => session_success (randomUUID env) None true
  end.

Definition getExistingSession (t : Transport) (req : IncomingMessage) : SessionResult :=
  let sessionId := mcp_session_id req in
  if negb (truthy sessionId) then
    session_failure {| statusCode := 400; headers := [];
                       payload := Text "Bad Request: Missing Mcp-Session-Id header" |}
  else
    match sessions (options t) with
    | Some store =>
        match get_session store (template_opt sessionId) with
        | None =>
            session_failure {| statusCode := 404; headers := []; payload := Text "Session Not Found" |}
        | Some session => session_success (template_opt sessionId) (Some session) false
        end
    | None => session_success (template_opt sessionId) None false
    end.

(** ** Request body parsing *)

Record ParsedBody := { messages : list json; isBatch : bool }.

Definition parseRequestBody (req : IncomingMessage) : ServerResponse + ParsedBody :=
  match body req with
  | ParsedJson parsed =>
      match parsed with
      | JArr items => inr {| messages := items; isBatch := true |}
      | _ => inr {| messages := [parsed]; isBatch := false |}
      end
  | InvalidJson =>
      inl {| statusCode := 400;
             headers := [("Content-Type", "application/json")];
             payload := Stringified (error_envelope JNull PARSE_ERROR "Parse error") |}
  | StreamError _ => inl (handleError [])
  end.

(** ** Delivery to the protocol engine *)

Fixpoint deliver (h : TransportMessageHandler) (messages : list json) (contextSession : string) : M unit :=
  match messages with
  | [] => ret ()
  | message :: rest =>
      emit [Delivered message contextSession] ;;
      match h message contextSession with
      | Returned _ => deliver h rest contextSession
      | Thrown e => throw e
      | Unsettled => hang
      end
  end.

(** The callback is awaited for each message in turn.  The context carries
    the store's session when there is one, and a minimal session with the id
    alone otherwise. *)
Definition deliverToProtocol (t : Transport) (messages : list json) (sessionId : string)
    (session : option TransportSession) : M unit :=
  match messageHandler t with
  | None => ret ()
  | Some h =>
      deliver h messages (match session with Some s => session_id s | None => sessionId end)
  end.

(** ** Notifications only *)

Fixpoint publish_each (t : Transport) (sessionId : string) (messages : list json) : M unit :=
  match messages with
  | [] => ret ()
  | message :: rest =>
      publish t BackgroundOutbound {| bg_sessionId := sessionId |} message ;;
      publish_each t sessionId rest
  end.

Definition handleNotificationsOnly (t : Transport) (sessionId : string) (messages : list json) : M Handled :=
  publish_each t sessionId messages ;;
  ret (Finished {| statusCode := 202; headers := []; payload := Empty |}).

(** ** JSON response mode *)

(** A JavaScript [Map] from strings, in insertion order. *)
Fixpoint map_set {V} (k : string) (v : V) (m : list (string * V)) : list (string * V) :=
  match m with
  | [] => [(k, v)]
  | (k', v') :: rest =>
      if decide (k' = k) then (k, v) :: rest else (k', v') :: map_set k v rest
  end.

Fixpoint map_delete {V} (k : string) (m : list (string * V)) : list (string * V) :=
  match m with
  | [] => []
  | (k', v') :: rest =>
      if decide (k' = k) then map_delete k rest else (k', v') :: map_delete k rest
  end.

(** What the correlation subscriptions do before the deadline, in order:
    subscription [i] delivers [data], its iterator ends, or it throws. *)
Inductive SubscriptionEvent :=
| Message (i : nat) (data : json)
| Closed (i : nat)
| Failed (i : nat) (e : Error).

(** The state shared by the response promises: the collected responses, the
    ids still pending, and the promises that have resolved. *)
Record Waiting := {
  responses : list json;
  pendingRequestIds : list (string * option json);
  resolved : list nat
}.

Definition running (subscriptions : list string) (w : Waiting) (i : nat) : bool :=
  bool_decide (is_Some (subscriptions !! i)) && negb (bool_decide (i ∈ resolved w)).

Definition on_event (subscriptions : list string) (w : Waiting) (ev : SubscriptionEvent) : outcome Waiting :=
  match ev with
  | Message i data =>
      match subscriptions !! i with
      | Some requestId =>
          if running subscriptions w i && (isJSONRPCResponse data || isJSONRPCError data) then
            Returned {| responses := responses w ++ [data];
                        pendingRequestIds := map_delete requestId (pendingRequestIds w);
                        resolved := i :: resolved w |}
          else Returned w
      | None => Returned w
      end
  | Closed i =>
      if running subscriptions w i then
        Returned {| responses := responses w;
                    pendingRequestIds := pendingRequestIds w;
                    resolved := i :: resolved w |}
      else Returned w
  | Failed i e =>
      if running subscriptions w i then Thrown e else Returned w
  end.

Fixpoint on_events (subscriptions : list string) (w : Waiting) (events : list SubscriptionEvent) : outcome Waiting :=
  match events with
  | [] => Returned w
  | ev :: rest =>
      match on_event subscriptions w ev with
      | Returned w' => on_events subscriptions w' rest
      | Thrown e => Thrown e
      | Unsettled => Unsettled
      end
  end.

(** [Promise.all(responsePromises)] has resolved. *)
Definition all_resolved (subscriptions : list string) (w : Waiting) : bool :=
  forallb (λ i, bool_decide (i ∈ resolved w)) (seq 0 (length subscriptions)).

Definition timeout_error (originalId : option json) : json :=
  error_envelope (nullish originalId JNull) INTERNAL_ERROR "Request timeout".

Definition request_id (request : json) : option json := get "id" request.

(** The subscriptions are made first; then the messages are delivered, and
    only when the delivery has returned are the subscriptions read and the
    timer of [responseTimeoutMs] armed: while the engine callback stays pending
    nothing is answered, whatever the time.  [events] are what the
    subscriptions yield from then on (what was published during the delivery
    included) up to the moment the timer fires, or up to the moment every
    response promise has resolved when that comes first. *)
Definition handleJsonResponse (t : Transport) (sessionId : string) (messages : list json)
    (isBatch : bool) (session : option TransportSession) (head : list (string * string))
    (events : list SubscriptionEvent) : M Handled :=
  let requests := List.filter isJSONRPCRequest messages in
  let pendingRequestIds :=
    foldl (λ m request, map_set (String_opt (request_id request)) (request_id request) m)
          [] requests in
  let subscriptions := (λ request, String_opt (request_id request)) <$> requests in
  emit ((λ requestId,
          Subscribed (subject RequestOutbound
                        {| rq_sessionId := sessionId; rq_requestId := requestId |}) None)
        <$> subscriptions) ;;
  deliverToProtocol t messages sessionId session ;;
  let w0 := {| responses := []; pendingRequestIds := pendingRequestIds; resolved := [] |} in
  match on_events subscriptions w0 events with
  | Unsettled => hang
  | Thrown _ => ret (Finished (handleError head))
  | Returned w =>
      let responses :=
        if all_resolved subscriptions w then responses w
        else responses w ++ (timeout_error <$> (snd <$> Transport.pendingRequestIds w)) in
      ret (Finished
        {| statusCode := 200;
           headers := head ++ [("Content-Type", "application/json")];
           payload :=
             Stringified
               (if isBatch then JArr responses
                else nullish (responses !! 0%nat)
                       (error_envelope JNull INTERNAL_ERROR "No response")) |})
  end.

(** ** SSE response mode *)

(** What the correlation subscriptions of an event stream do, in order:
    subscription [i] delivers the broker message [eventId] with [data], its
    iterator ends, or it throws. *)
Inductive StreamEvent :=
| Arrived (i : nat) (eventId : string) (data : json)
| Ended (i : nat)
| Broke (i : nat) (e : Error).

(** One event written to the stream: the lines [id:], [event: message] and
    [data:]. *)
Record SseFrame := { frame_id : string; frame_data : json }.

Record Streaming := { written : list SseFrame; finished : list nat }.

Definition streaming (subscriptions : list string) (s : Streaming) (i : nat) : bool :=
  bool_decide (is_Some (subscriptions !! i)) && negb (bool_decide (i ∈ finished s)).

Definition on_stream_event (subscriptions : list string) (s : Streaming) (ev : StreamEvent)
    : outcome Streaming :=
  match ev with
  | Arrived i eventId data =>
      if streaming subscriptions s i then
        let written := written s ++ [{| frame_id := eventId; frame_data := data |}] in
        if isJSONRPCResponse data || isJSONRPCError data
        then Returned {| written := written; finished := i :: finished s |}
        else Returned {| written := written; finished := finished s |}
      else Returned s
  | Ended i =>
      if streaming subscriptions s i
      then Returned {| written := written s; finished := i :: finished s |}
      else Returned s
  | Broke i e =>
      if streaming subscriptions s i then Thrown e else Returned s
  end.

(** The stream over the events: the state reached, and the exception that
    stopped it, if any. *)
Fixpoint on_stream_events (subscriptions : list string) (s : Streaming)
    (events : list StreamEvent) : Streaming * option Error :=
  match events with
  | [] => (s, None)
  | ev :: rest =>
      match on_stream_event subscriptions s ev with
      | Returned s' => on_stream_events subscriptions s' rest
      | Thrown e => (s, Some e)
      | Unsettled => (s, None)
      end
  end.

(** What the client has received of the stream: the frames, whether the
    response has been ended, and the exception that ended it, if any. *)
Record SseResponse := {
  sse_frames : list SseFrame;
  sse_ended : bool;
  sse_failure : option Error
}.

(** The subscriptions are read once the delivery has returned; [events]
    are what they have yielded so far.  There is no deadline: the response is
    ended when every subscription has delivered its response or has ended, or
    when one throws. *)
Definition handleSseResponse (t : Transport) (sessionId : string) (messages : list json)
    (session : option TransportSession) (events : list StreamEvent) : M SseResponse :=
  let requests := List.filter isJSONRPCRequest messages in
  emit [HeaderSet "Content-Type" "text/event-stream"; HeaderSet "Cache-Control" "no-cache";
        HeaderSet "Connection" "keep-alive"] ;;
  let subscriptions := (λ request, String_opt (request_id request)) <$> requests in
  emit ((λ requestId,
          Subscribed (subject RequestOutbound
                        {| rq_sessionId := sessionId; rq_requestId := requestId |}) None)
        <$> subscriptions) ;;
  deliverToProtocol t messages sessionId session ;;
  let '(s, failure) :=
    on_stream_events subscriptions {| written := []; finished := [] |} events in
  ret {| sse_frames := written s;
         sse_ended :=
           match failure with
           | Some _ => true
           | None => forallb (λ i, bool_decide (i ∈ finished s))
                             (seq 0 (length subscriptions))
           end;
         sse_failure := failure |}.

(** ** POST *)

Definition handlePost (t : Transport) (env : Env) (req : IncomingMessage)
    (events : list SubscriptionEvent) : M Handled :=
  let accept := nullish (accept req) "" in
  let acceptsJson := includes accept "application/json" || includes accept "*/*" in
  let acceptsSse := includes accept "text/event-stream" || includes accept "*/*" in
  if negb acceptsJson && negb acceptsSse then
    ret (Finished {| statusCode := 406; headers := [];
                     payload := Text "Not Acceptable: Must accept application/json or text/event-stream" |})
  else
    match getOrCreateSession t env req with
    | session_failure res => ret (Finished res)
    | session_success sessionId session isNewSession =>
        match parseRequestBody req with
        | inl res => ret (Finished res)
        | inr parseResult =>
            let messages := messages parseResult in
            let isBatch := isBatch parseResult in
            let requests := List.filter isJSONRPCRequest messages in
            let hasRequests := bool_decide (0 < length requests)%nat in
            if negb hasRequests then
              deliverToProtocol t messages sessionId session ;;
              handleNotificationsOnly t sessionId messages
            else
              let responseMode := responseModeStrategy t messages session in
              let head :=
                if isNewSession && truthy (Some sessionId)
                then [("Mcp-Session-Id", sessionId)] else [] in
              emit (uncurry HeaderSet <$> head) ;;
              if is_sse responseMode && acceptsSse then
                ret (SseStream sessionId requests
                       (head ++ [("Content-Type", "text/event-stream");
                                 ("Cache-Control", "no-cache");
                                 ("Connection", "keep-alive")]))
              else if acceptsJson then
                handleJsonResponse t sessionId messages isBatch session head events
              else
                ret (Finished {| statusCode := 406; headers := head;
                                 payload := Text "Not Acceptable" |})
        end
    end.

(** ** GET and DELETE *)

Definition handleGet (t : Transport) (req : IncomingMessage) : M Handled :=
  if negb (enableBackgroundChannel t) then
    ret (Finished {| statusCode := 405; headers := [("Allow", "POST, DELETE, OPTIONS")];
                     payload := Text "Method Not Allowed" |})
  else
    let accept := nullish (accept req) "" in
    if negb (includes accept "text/event-stream") && negb (includes accept "*/*") then
      ret (Finished {| statusCode := 406; headers := [];
                       payload := Text "Not Acceptable: Must accept text/event-stream" |})
    else
      match getExistingSession t req with
      | session_failure res => ret (Finished res)
      | session_success sessionId _ _ =>
          let lastEventId := last_event_id req in
          emit [Subscribed (subject BackgroundOutbound {| bg_sessionId := sessionId |}) lastEventId;
                Subscribed (subject BackgroundInbound {| bg_sessionId := sessionId |}) lastEventId] ;;
          ret (BackgroundStream sessionId lastEventId)
      end.

Definition handleDelete (t : Transport) (req : IncomingMessage) : M Handled :=
  if negb (enableSessionTermination t) then
    ret (Finished {| statusCode := 405; headers := [("Allow", "GET, POST, OPTIONS")];
                     payload := Text "Method Not Allowed" |})
  else
    let sessionId := mcp_session_id req in
    if negb (truthy sessionId) then
      ret (Finished {| statusCode := 400; headers := [];
                       payload := Text "Bad Request: Missing Mcp-Session-Id header" |})
    else
      (if bool_decide (is_Some (sessions (options t)))
       then emit [SessionDeleted (template_opt sessionId)] else ret ()) ;;
      ret (Finished {| statusCode := 204; headers := []; payload := Empty |}).

(** ** The router, for a request that the middleware chain lets through *)

Definition handleRequest (t : Transport) (env : Env) (req : IncomingMessage)
    (events : list SubscriptionEvent) : M Handled :=
  if bool_decide (pathname req = "/health") then
    ret (Finished {| statusCode := 200; headers := [("Content-Type", "application/json")];
                     payload := Stringified (JObj [("status", JStr "healthy")]) |})
  else if bool_decide (pathname req = "/readiness") then
    let isConnected := listening env in
    ret (Finished {| statusCode := if isConnected then 200 else 503;
                     headers := [("Content-Type", "application/json")];
                     payload := Stringified
                       (JObj [("status", JStr (if isConnected then "ready" else "not ready"));
                              ("listening", JBool isConnected)]) |})
  else if negb (bool_decide (pathname req = endpoint t)) then
    ret (Finished {| statusCode := 404; headers := []; payload := Text "Not Found" |})
  else if bool_decide (method req = "POST") then handlePost t env req events
  else if bool_decide (method req = "GET") then handleGet t req
  else if bool_decide (method req = "DELETE") then handleDelete t req
  else if bool_decide (method req = "OPTIONS") then
    ret (Finished {| statusCode := 204; headers := []; payload := Empty |})
  else
    ret (Finished {| statusCode := 405; headers := [("Allow", "GET, POST, DELETE, OPTIONS")];
                     payload := Text "Method Not Allowed" |}).

(** The headers set on the response so far. *)
Definition headers_set (es : list Effect) : list (string * string) :=
  omap (λ e, match e with HeaderSet k v => Some (k, v) | _ => None end) es.

(** The listener of [createServer]:
    [this.handleRequest(req, res).catch((err) => this.handleError(err, res))] *)
Definition onRequest (t : Transport) (env : Env) (req : IncomingMessage)
    (events : list SubscriptionEvent) : list Effect * Handled :=
  match handleRequest t env req events with
  | (es, Returned h) => (es, h)
  | (es, Thrown _) => (es, Finished (handleError (headers_set es)))
  | (es, Unsettled) => (es, Unanswered)
  end.

End Transport.

(** * The protocol engine (class [Protocol]) *)

Module Protocol.
Import Js Schema SdkTransport.

Definition DEFAULT_REQUEST_TIMEOUT_MS : Z := 60000.

(** [`${connectionId}:${sessionId}:${requestId}`] *)
Definition mapRequestKey (connectionId : string) (sessionId : option string)
    (requestId : option json) : string :=
  connectionId +:+ ":" +:+ template_opt sessionId +:+ ":" +:+ String_opt requestId.

(** [`${connectionId}:${sessionId}:${progressToken}`] *)
Definition mapProgressKey (connectionId : string) (sessionId : option string)
    (progressToken : option json) : string :=
  connectionId +:+ ":" +:+ template_opt sessionId +:+ ":" +:+ String_opt progressToken.

(** [s.split(":")] *)
Fixpoint split_colon (s : string) : list string :=
  match s with
  | "" => [""]
  | String c rest =>
      if decide (c = ":"%char) then "" :: split_colon rest
      else
        match split_colon rest with
        | [] => [String c ""]
        | x :: xs => String c x :: xs
        end
  end.

Record UnmappedKey := {
  key_connectionId : option string;
  key_sessionId : option string;
  key_requestId : option string
}.

Definition unmapRequestKey (requestKey : string) : UnmappedKey :=
  let parts := split_colon requestKey in
  {| key_connectionId := parts !! 0%nat;
     key_sessionId := parts !! 1%nat;
     key_requestId := parts !! 2%nat |}.

(** ** Errors ([types/errors.ts]) *)

Definition InternalError (message : string) : Error :=
  {| err_code := Some INTERNAL_ERROR; err_message := message |}.

Definition MethodNotFoundError (method : string) : Error :=
  {| err_code := Some METHOD_NOT_FOUND; err_message := "Method not found: " +:+ method |}.

Definition ConnectionClosedError : Error :=
  {| err_code := Some INTERNAL_ERROR; err_message := "Connection closed" |}.

Definition RequestTimeoutError (requestId sessionId : string) (timeoutMs : Z) : Error :=
  {| err_code := Some INTERNAL_ERROR;
     err_message := "Request " +:+ requestId +:+ " in session " +:+ sessionId
                    +:+ " timed out after " +:+ Number_toString timeoutMs +:+ "ms" |}.

(** ** Thrown values *)

(** What a handler throws or a transport rejects with, as the [catch]
    blocks of the engine tell it apart: an instance of [ProtocolError]; any
    other [Error], with its [name] and its [message]; or a value that is not
    an [Error], with what [String] makes of it. *)
Inductive Exception :=
| protocol_error (error : Error)
| plain_error (name message : string)
| thrown_value (printed : string).

(** [String(error)] for an [Error], by [Error.prototype.toString]. *)
Definition Error_toString (name message : string) : string :=
  if decide (name = "") then message
  else if decide (message = "") then name
  else name +:+ ": " +:+ message.

(** [error instanceof ProtocolError ? error : new InternalError(String(error))] *)
Definition as_protocol_error (error : Exception) : Error :=
  match error with
  | protocol_error error => error
  | plain_error name message => InternalError (Error_toString name message)
  | thrown_value printed => InternalError printed
  end.

(** [(error instanceof Error ? error : new Error(String(error))).message] *)
Definition message_of (error : Exception) : string :=
  match error with
  | protocol_error error => err_message error
  | plain_error _ message => message
  | thrown_value printed => printed
  end.

(** ** Messages handed to a transport *)

Inductive Outgoing :=
| result_response (id : option json) (result : json)
| error_response (id : option json) (error : Error)
| outgoing (message : json).

(** A connection: its id and what its transport's [send] rejects with, if
    it does. *)
Record Connection := {
  id : string;
  transport_send : Outgoing → TransportSendOptions → option Exception
}.

Record Sent := {
  sent_on : string;
  sent_message : Outgoing;
  sent_options : TransportSendOptions
}.

(** ** Shared objects *)

Record AbortController := { aborted : bool; reason : option json }.

Inductive PromiseState :=
| Pending
| Fulfilled (value : json)
| Rejected (error : Error).

Record PendingRequest := {
  promise : nat;
  onProgress : bool;
  resetTimeoutOnProgress : bool;
  timeoutMs : Z;
  p_requestId : option json;
  connection : string;
  abortController : nat;
  p_timeout : option nat
}.

(** A listener added to an external signal by [send]: the controller it
    aborts and the pending-request key it clears. *)
Record AbortListener := { on_signal : nat; forwards_to : nat; clears : string }.

Record RequestOptions := {
  route_sessionId : option string;
  opt_onProgress : bool;
  opt_signal : option nat;
  opt_timeout : option Z;
  opt_resetTimeoutOnProgress : bool
}.

Section engine.
Context {Handler : Type}.

(** The tables of the engine, the stores of the objects they share, and the
    calls made on the transports. *)
Record Engine := {
  handlers : gmap string Handler;
  incomingRequests : gmap string nat;
  pendingRequests : gmap string PendingRequest;
  progressTokenIndex : gmap string string;
  controllers : list AbortController;
  promises : list PromiseState;
  timers : gmap nat (string * Z);
  next_timer : nat;
  listeners : list AbortListener;
  sent : list Sent
}.

Definition empty_engine : Engine :=
  {| handlers := ∅; incomingRequests := ∅; pendingRequests := ∅;
     progressTokenIndex := ∅; controllers := []; promises := []; timers := ∅;
     next_timer := 0%nat; listeners := []; sent := [] |}.

Definition set_handlers (f : gmap string Handler → gmap string Handler) (e : Engine) : Engine :=
  {| handlers := f (handlers e); incomingRequests := incomingRequests e;
     pendingRequests := pendingRequests e; progressTokenIndex := progressTokenIndex e;
     controllers := controllers e; promises := promises e; timers := timers e;
     next_timer := next_timer e; listeners := listeners e; sent := sent e |}.

Definition set_incomingRequests (f : gmap string nat → gmap string nat) (e : Engine) : Engine :=
  {| handlers := handlers e; incomingRequests := f (incomingRequests e);
     pendingRequests := pendingRequests e; progressTokenIndex := progressTokenIndex e;
     controllers := controllers e; promises := promises e; timers := timers e;
     next_timer := next_timer e; listeners := listeners e; sent := sent e |}.

Definition set_pendingRequests
    (f : gmap string PendingRequest → gmap string PendingRequest) (e : Engine) : Engine :=
  {| handlers := handlers e; incomingRequests := incomingRequests e;
     pendingRequests := f (pendingRequests e); progressTokenIndex := progressTokenIndex e;
     controllers := controllers e; promises := promises e; timers := timers e;
     next_timer := next_timer e; listeners := listeners e; sent := sent e |}.

Definition set_progressTokenIndex (f : gmap string string → gmap string string) (e : Engine) : Engine :=
  {| handlers := handlers e; incomingRequests := incomingRequests e;
     pendingRequests := pendingRequests e; progressTokenIndex := f (progressTokenIndex e);
     controllers := controllers e; promises := promises e; timers := timers e;
     next_timer := next_timer e; listeners := listeners e; sent := sent e |}.

Definition set_controllers (f : list AbortController → list AbortController) (e : Engine) : Engine :=
  {| handlers := handlers e; incomingRequests := incomingRequests e;
     pendingRequests := pendingRequests e; progressTokenIndex := progressTokenIndex e;
     controllers := f (controllers e); promises := promises e; timers := timers e;
     next_timer := next_timer e; listeners := listeners e; sent := sent e |}.

Definition set_promises (f : list PromiseState → list PromiseState) (e : Engine) : Engine :=
  {| handlers := handlers e; incomingRequests := incomingRequests e;
     pendingRequests := pendingRequests e; progressTokenIndex := progressTokenIndex e;
     controllers := controllers e; promises := f (promises e); timers := timers e;
     next_timer := next_timer e; listeners := listeners e; sent := sent e |}.

Definition set_timers (f : gmap nat (string * Z) → gmap nat (string * Z)) (n : nat) (e : Engine) : Engine :=
  {| handlers := handlers e; incomingRequests := incomingRequests e;
     pendingRequests := pendingRequests e; progressTokenIndex := progressTokenIndex e;
     controllers := controllers e; promises := promises e; timers := f (timers e);
     next_timer := n; listeners := listeners e; sent := sent e |}.

Definition set_listeners (f : list AbortListener → list AbortListener) (e : Engine) : Engine :=
  {| handlers := handlers e; incomingRequests := incomingRequests e;
     pendingRequests := pendingRequests e; progressTokenIndex := progressTokenIndex e;
     controllers := controllers e; promises := promises e; timers := timers e;
     next_timer := next_timer e; listeners := f (listeners e); sent := sent e |}.

Definition set_sent (f : list Sent → list Sent) (e : Engine) : Engine :=
  {| handlers := handlers e; incomingRequests := incomingRequests e;
     pendingRequests := pendingRequests e; progressTokenIndex := progressTokenIndex e;
     controllers := controllers e; promises := promises e; timers := timers e;
     next_timer := next_timer e; listeners := listeners e; sent := f (sent e) |}.

(** ** Abort controllers and promises *)

(** [controller.signal.aborted] *)
Definition is_aborted (c : nat) (e : Engine) : bool :=
  match controllers e !! c with
  | Some ctl => aborted ctl
  | None => false
  end.

(** [controller.abort(reason)]; a second abort changes nothing. *)
Definition abort (c : nat) (r : option json) (e : Engine) : Engine :=
  if is_aborted c e then e
  else set_controllers (λ cs, <[c := {| aborted := true; reason := r |}]> cs) e.

(** Settling a promise that is already settled changes nothing. *)
Definition settle (p : nat) (s : PromiseState) (e : Engine) : Engine :=
  match promises e !! p with
  | Some Pending => set_promises (λ ps, <[p := s]> ps) e
  | _ => e
  end.

(** [connection.transport.send(message, options)], recorded; the result is
    the error it rejects with, if any. *)
Definition transport_call (c : Connection) (m : Outgoing) (o : TransportSendOptions)
    (e : Engine) : Engine * option Exception :=
  (set_sent (λ l, l ++ [{| sent_on := id c; sent_message := m; sent_options := o |}]) e,
   transport_send c m o).

(** ** Handler registration *)

Definition registerHandler (method : string) (handler : Handler) (e : Engine) : outcome Engine :=
  Returned (set_handlers (λ hs, <[method := handler]> hs) e).

(** ** Pending requests *)

Definition clearTimeout (h : option nat) (e : Engine) : Engine :=
  match h with
  | Some t => set_timers (λ ts, delete t ts) (next_timer e) e
  | None => e
  end.

Definition clearRequest (requestKey : string) (e : Engine) : Engine :=
  match pendingRequests e !! requestKey with
  | Some request =>
      let e := clearTimeout (p_timeout request) e in
      let e := set_pendingRequests (λ m, delete requestKey m) e in
      set_progressTokenIndex (λ m, delete requestKey m) e
  | None => e
  end.

Definition reject (requestKey : string) (error : Error) (e : Engine) : Engine :=
  match pendingRequests e !! requestKey with
  | Some request => settle (promise request) (Rejected error) (clearRequest requestKey e)
  | None => e
  end.

Definition with_timeout (h : option nat) (p : PendingRequest) : PendingRequest :=
  {| promise := promise p; onProgress := onProgress p;
     resetTimeoutOnProgress := resetTimeoutOnProgress p; timeoutMs := timeoutMs p;
     p_requestId := p_requestId p; connection := connection p;
     abortController := abortController p; p_timeout := h |}.

(** The pending request is the object stored under [requestKey]. *)
Definition setupTimeout (requestKey : string) (ms : Z) (e : Engine) : Engine :=
  match pendingRequests e !! requestKey with
  | None => e
  | Some pending =>
      let e := clearTimeout (p_timeout pending) e in
      let h := next_timer e in
      let e := set_timers (λ ts, <[h := (requestKey, ms)]> ts) (S h) e in
      set_pendingRequests (λ m, <[requestKey := with_timeout (Some h) pending]> m) e
  end.

(** The callback of an armed timer. *)
Definition timer_fired (h : nat) (e : Engine) : Engine :=
  match timers e !! h with
  | None => e
  | Some (requestKey, ms) =>
      let e := set_timers (λ ts, delete h ts) (next_timer e) e in
      match pendingRequests e !! requestKey with
      | Some req =>
          let requestId := key_requestId (unmapRequestKey requestKey) in
          reject requestKey
            (RequestTimeoutError (template_opt requestId) (connection req) ms) e
      | None => e
      end
  end.

(** ** Outgoing requests and notifications *)

(** The listener that [send] adds to [options.signal]. *)
Definition on_external_abort (l : AbortListener) (e : Engine) : Engine :=
  let e := abort (forwards_to l) None e in
  match pendingRequests e !! clears l with
  | Some pending =>
      settle (promise pending) (Rejected (InternalError "Request aborted by external signal"))
             (clearRequest (clears l) e)
  | None => e
  end.

(** The external signal [s] aborts: its listeners run in the order in which
    they were added, once. *)
Definition signal_aborted (s : nat) (e : Engine) : Engine :=
  let mine := List.filter (λ l, bool_decide (on_signal l = s)) (listeners e) in
  let e := set_listeners (List.filter (λ l, negb (bool_decide (on_signal l = s)))) e in
  foldl (λ e l, on_external_abort l e) e mine.

Definition method_of (message : json) : option string :=
  match get "method" message with
  | Some (JStr m) => Some m
  | _ => None
  end.

(** [s.startsWith(p)] *)
Definition starts_with (p s : string) : bool := String.prefix p s.

(** How [send] treats a message: a method that starts with
    [notifications/] makes it a notification, any other non-empty method a
    request; a message without a method is refused. *)
Inductive SendPath := notification_path | request_path | refused.

Definition send_path (message : json) : SendPath :=
  match method_of message with
  | Some method =>
      if starts_with "notifications/" method then notification_path
      else if truthy (Some method) then request_path
      else refused
  | None => refused
  end.

(** What [send] has set up when it suspends on [onBeforeSendRequest]. *)
Record Prepared := {
  pr_connection : Connection;
  pr_request : json;
  pr_options : RequestOptions;
  pr_abortController : nat;
  pr_key : string
}.

(** The notification path of [send]: the request options are handed to the
    transport as they are, so it sees neither a session nor a request id. *)
Definition send_notification (c : Connection) (message : json) (options : RequestOptions)
    (e : Engine) : Engine * option Exception :=
  transport_call c (outgoing message)
    {| sessionId := None; requestId := None; timeout := opt_timeout options |} e.

(** The request path of [send], up to its first suspension. *)
Definition send_request_prepare (c : Connection) (message : json) (options : RequestOptions)
    (e : Engine) : Engine * Prepared :=
  let abortController := length (controllers e) in
  let e := set_controllers (λ cs, cs ++ [{| aborted := false; reason := None |}]) e in
  let sessionId := route_sessionId options in
  let pendingRequestKey := mapRequestKey (id c) sessionId (get "id" message) in
  let e :=
    match opt_signal options with
    | Some s =>
        set_listeners (λ ls, ls ++ [{| on_signal := s; forwards_to := abortController;
                                        clears := pendingRequestKey |}]) e
    | None => e
    end in
  (e, {| pr_connection := c; pr_request := message; pr_options := options;
         pr_abortController := abortController; pr_key := pendingRequestKey |}).

(** The request path of [send], resumed: the pending request, the progress
    token, the timer and the transport call.  The result is the promise. *)
Definition send_request_register (p : Prepared) (e : Engine) : Engine * nat :=
  let c := pr_connection p in
  let request := pr_request p in
  let options := pr_options p in
  let sessionId := route_sessionId options in
  let timeout := nullish (opt_timeout options) DEFAULT_REQUEST_TIMEOUT_MS in
  let pendingRequestKey := pr_key p in
  let promise := length (promises e) in
  let e := set_promises (λ ps, ps ++ [Pending]) e in
  let pendingRequest :=
    {| promise := promise; onProgress := opt_onProgress options;
       resetTimeoutOnProgress := opt_resetTimeoutOnProgress options;
       timeoutMs := timeout; p_requestId := get "id" request; connection := id c;
       abortController := pr_abortController p; p_timeout := None |} in
  let e := set_pendingRequests (λ m, <[pendingRequestKey := pendingRequest]> m) e in
  let params := get "params" request in
  let e :=
    if opt_onProgress options && (isObject params || isArray params) then
      let progressToken := get_opt "progressToken" (get_opt "_meta" params) in
      if truthy_json progressToken then
        let progressKey := mapProgressKey (id c) sessionId progressToken in
        set_progressTokenIndex (λ m, <[progressKey := pendingRequestKey]> m) e
      else e
    else e in
  let e := setupTimeout pendingRequestKey timeout e in
  let '(e, r) := transport_call c (outgoing request)
                   {| sessionId := sessionId; requestId := None; timeout := None |} e in
  let e :=
    match r with
    | Some error => reject pendingRequestKey (InternalError (message_of error)) e
    | None => e
    end in
  (e, promise).

(** ** Incoming responses *)

Definition resolve (c : Connection) (response : json) (sessionId : option string) (e : Engine) : Engine :=
  let requestKey := mapRequestKey (id c) sessionId (get "id" response) in
  match pendingRequests e !! requestKey with
  | Some request => settle (promise request) (Fulfilled response) (clearRequest requestKey e)
  | None => e
  end.

Definition error_of (message : json) : Error :=
  let error := get "error" message in
  {| err_code := match get_opt "code" error with Some (JNum n) => Some n | _ => None end;
     err_message := match get_opt "message" error with Some (JStr m) => m | _ => "" end |}.

Definition rejectWithError (c : Connection) (message : json) (sessionId : option string)
    (e : Engine) : Engine :=
  let requestId := get "id" message in
  if truthy_json requestId then
    reject (mapRequestKey (id c) sessionId requestId) (error_of message) e
  else e.

(** ** Incoming requests *)

(** A request whose handler has been called and has not settled yet. *)
Record InFlight := {
  fl_connection : Connection;
  fl_message : json;
  fl_sessionId : option string;
  fl_controller : nat;
  fl_key : string;
  fl_handler : option Handler
}.

Inductive HandlerOutcome :=
| Resolves (result : json)
| Rejects (error : Exception).

(** [processRequest] up to [await this.handle(...)]: the abort handle is
    recorded and the handler is looked up and called. *)
Definition processRequest_begin (c : Connection) (message : json) (sessionId : option string)
    (e : Engine) : Engine * InFlight :=
  let requestId := get "id" message in
  let controller := length (controllers e) in
  let e := set_controllers (λ cs, cs ++ [{| aborted := false; reason := None |}]) e in
  let incomingRequestId := mapRequestKey (id c) sessionId requestId in
  let e := set_incomingRequests (λ m, <[incomingRequestId := controller]> m) e in
  (e, {| fl_connection := c; fl_message := message; fl_sessionId := sessionId;
         fl_controller := controller; fl_key := incomingRequestId;
         fl_handler := method_of message ≫= (handlers e !!.) |}).

(** The [finally] block. *)
Definition processRequest_finally (fl : InFlight) (e : Engine) : Engine :=
  set_incomingRequests (λ m, delete (fl_key fl) m) e.

Definition reply_options (fl : InFlight) : TransportSendOptions :=
  {| sessionId := fl_sessionId fl;
     requestId := Some (String_opt (get "id" (fl_message fl)));
     timeout := None |}.

(** The [catch] block, then [finally]. *)
Definition processRequest_catch (fl : InFlight) (error : Exception) (e : Engine) : Engine :=
  let e :=
    if negb (is_aborted (fl_controller fl) e) then
      let mcpError := as_protocol_error error in
      fst (transport_call (fl_connection fl)
             (error_response (get "id" (fl_message fl)) mcpError) (reply_options fl) e)
    else e in
  processRequest_finally fl e.

(** [this.handle] throws when no handler is registered for the method. *)
Definition handled (fl : InFlight) (o : HandlerOutcome) : HandlerOutcome :=
  match fl_handler fl with
  | Some _ => o
  | None =>
      Rejects (protocol_error (MethodNotFoundError (String_opt (get "method" (fl_message fl)))))
  end.

(** [processRequest] resumed when the handler has settled.  When the send of
    the response rejects, the [catch] block runs on a later turn: the error
    is returned and the entry is still in place. *)
Definition processRequest_settled (fl : InFlight) (o : HandlerOutcome) (e : Engine)
    : Engine * option Exception :=
  match handled fl o with
  | Resolves result =>
      if negb (is_aborted (fl_controller fl) e) then
        let '(e, r) := transport_call (fl_connection fl)
                         (result_response (get "id" (fl_message fl)) result)
                         (reply_options fl) e in
        match r with
        | None => (processRequest_finally fl e, None)
        | Some error => (e, Some error)
        end
      else (processRequest_finally fl e, None)
  | Rejects error => (processRequest_catch fl error e, None)
  end.

(** ** Incoming notifications *)

Definition handleCancellation (c : Connection) (message : json) (sessionId : option string)
    (e : Engine) : Engine :=
  let params := get "params" message in
  let requestId := get_opt "requestId" params in
  let reason := get_opt "reason" params in
  let incomingRequestId := mapRequestKey (id c) sessionId requestId in
  match incomingRequests e !! incomingRequestId with
  | Some controller =>
      set_incomingRequests (λ m, delete incomingRequestId m) (abort controller reason e)
  | None => e
  end.

Definition handleProgress (c : Connection) (message : json) (sessionId : option string)
    (e : Engine) : Engine :=
  let progressToken := get_opt "progressToken" (get "params" message) in
  let progressKey := mapProgressKey (id c) sessionId progressToken in
  match progressTokenIndex e !! progressKey with
  | Some requestKey =>
      match pendingRequests e !! requestKey with
      | Some request =>
          if onProgress request && resetTimeoutOnProgress request
          then setupTimeout requestKey (timeoutMs request) e
          else e
      | None => e
      end
  | None => e
  end.

(** Any other notification goes to its handler, whose errors are logged. *)
Definition processNotification (c : Connection) (message : json) (sessionId : option string)
    (e : Engine) : Engine :=
  if isCancelledNotification message then handleCancellation c message sessionId e
  else if isProgressNotification message then handleProgress c message sessionId e
  else e.

(** [handleMessage], up to its first suspension. *)
Definition handleMessage (c : Connection) (message : json) (sessionId : option string)
    (e : Engine) : Engine :=
  if isJSONRPCResponse message then resolve c message sessionId e
  else if isJSONRPCError message then rejectWithError c message sessionId e
  else if isJSONRPCRequest message then fst (processRequest_begin c message sessionId e)
  else if isJSONRPCNotification message then processNotification c message sessionId e
  else e.

(** ** The turns of the engine *)

Inductive Event :=
| Incoming (c : Connection) (message : json) (sessionId : option string)
| HandlerSettled (fl : InFlight) (o : HandlerOutcome)
| ReplyFailed (fl : InFlight) (error : Exception)
| HandlerRegistered (method : string) (handler : Handler)
| SendPrepared (c : Connection) (message : json) (options : RequestOptions)
| SendRegistered (p : Prepared)
| NotificationSent (c : Connection) (message : json) (options : RequestOptions)
| SignalAborted (s : nat)
| TimerFired (h : nat).

Definition step (e : Engine) (ev : Event) : Engine :=
  match ev with
  | Incoming c message sessionId => handleMessage c message sessionId e
  | HandlerSettled fl o => fst (processRequest_settled fl o e)
  | ReplyFailed fl error => processRequest_catch fl error e
  | HandlerRegistered method handler => set_handlers (λ hs, <[method := handler]> hs) e
  | SendPrepared c message options => fst (send_request_prepare c message options e)
  | SendRegistered p => fst (send_request_register p e)
  | NotificationSent c message options => fst (send_notification c message options e)
  | SignalAborted s => signal_aborted s e
  | TimerFired h => timer_fired h e
  end.

Definition run (e : Engine) (evs : list Event) : Engine := foldl step e evs.

(** ** Shutdown *)

(** [close], up to the closing of the connections: every pending request is
    cleared and rejected, the tables are emptied and the abort handle of
    every incoming request is tripped with the message of the error. *)
Definition close (e : Engine) : Engine :=
  let error := ConnectionClosedError in
  let e := map_fold (λ id request e,
                       settle (promise request) (Rejected error) (clearRequest id e))
                    e (pendingRequests e) in
  let e := set_pendingRequests (λ _, ∅) e in
  let e := set_progressTokenIndex (λ _, ∅) e in
  let e := map_fold (λ _ controller e, abort controller (Some (JStr (err_message error))) e)
                    e (incomingRequests e) in
  set_incomingRequests (λ _, ∅) e.

End engine.

Arguments Engine : clear implicits.
Arguments InFlight : clear implicits.
Arguments Event : clear implicits.

End Protocol.

(** * Vocabulary of the properties, and sample data *)

Section topic_scheme_vocabulary.
Import Topics.

(** The four families of the scheme with their parameter tuples, and the
    subject each one names. *)
Inductive Address :=
| request_inbound (session request : string)
| request_outbound (session request : string)
| background_outbound (session : string)
| background_inbound (session : string).

Definition subject_of (a : Address) : string :=
  match a with
  | request_inbound s r => subject RequestInbound {| rq_sessionId := s; rq_requestId := r |}
  | request_outbound s r => subject RequestOutbound {| rq_sessionId := s; rq_requestId := r |}
  | background_outbound s => subject BackgroundOutbound {| bg_sessionId := s |}
  | background_inbound s => subject BackgroundInbound {| bg_sessionId := s |}
  end.

Definition session_of (a : Address) : string :=
  match a with
  | request_inbound s _ | request_outbound s _
  | background_outbound s | background_inbound s => s
  end.

(** [s] has no segment separator. *)
Fixpoint dot_free (s : string) : bool :=
  match s with
  | "" => true
  | String c rest => negb (bool_decide (c = "."%char)) && dot_free rest
  end.

(** Addresses whose session id is one segment and whose request id is not
    the reserved segment [bg]. *)
Definition plain (a : Address) : bool :=
  dot_free (session_of a) &&
  match a with
  | request_inbound _ r | request_outbound _ r => negb (bool_decide (r = "bg"))
  | _ => true
  end.

(** Every subject is [mcp.], a session, a separator, a scope and a direction. *)
Definition shaped (s x d : string) : string := "mcp." +:+ (s +:+ String "."%char (x +:+ d)).

End topic_scheme_vocabulary.

Section response_mode_vocabulary.
Import Transport.

(** [params._meta.progressToken] is defined. *)
Definition carries_progress_token (msg : json) : Prop :=
  ∃ params meta token,
    get "params" msg = Some (JObj params) ∧
    lookup_field "_meta" params = Some (JObj meta) ∧
    lookup_field "progressToken" meta = Some token.

(** The method is one of the streaming-prone ones. *)
Definition streaming_prone (msg : json) : Prop :=
  ∃ m, get "method" msg = Some (JStr m) ∧
       (m = "tools/call" ∨ m = "sampling/createMessage" ∨ m = "prompts/get").

(** The messages that make the default policy stream. *)
Definition wants_stream (msg : json) : Prop :=
  isJSONRPCRequest msg = true ∧ (streaming_prone msg ∨ carries_progress_token msg).

End response_mode_vocabulary.

Section outbound_routing_vocabulary.
Import Js SdkTransport Topics Transport.

Definition missing_sessionId : Error :=
  {| err_code := None; err_message := "Cannot send message: Missing sessionId in options" |}.

(** A transport over a broker that never fails, with the default options. *)
Definition quiet_broker : EventBroker := {| publish_throws := λ _ _, None |}.

Definition default_options : Options :=
  {| httpServer_endpoint := None;
     streamableHttp_responseTimeoutMs := None;
     streamableHttp_responseModeStrategy := None;
     streamableHttp_enableBackgroundChannel := None;
     streamableHttp_enableSessionTermination := None;
     sessions := None;
     eventBroker := Some quiet_broker |}.

Definition default_transport : Transport :=
  {| options := default_options; broker := quiet_broker; endpoint := DEFAULT_ENDPOINT;
     responseTimeoutMs := DEFAULT_RESPONSE_TIMEOUT_MS;
     responseModeStrategy := λ messages _, defaultResponseModeStrategy messages;
     enableBackgroundChannel := DEFAULT_ENABLE_BACKGROUND_CHANNEL;
     enableSessionTermination := DEFAULT_ENABLE_SESSION_TERMINATION;
     messageHandler := None |}.

Definition a_response : json :=
  JObj [("jsonrpc", JStr "2.0"); ("id", JStr ""); ("result", JObj [])].

Definition a_notification : json :=
  JObj [("jsonrpc", JStr "2.0"); ("method", JStr "notifications/tools/list_changed")].

End outbound_routing_vocabulary.

Section post_handling_vocabulary.
Import Js Schema SdkTransport Topics Transport.

Definition not_found : ServerResponse :=
  {| statusCode := 404; headers := []; payload := Text "Not Found" |}.

Definition accepted_202 : ServerResponse :=
  {| statusCode := 202; headers := []; payload := Empty |}.

Definition a_post (path : string) (b : RequestBody) : IncomingMessage :=
  {| method := "POST"; pathname := path; accept := Some "application/json, text/event-stream";
     mcp_session_id := None; query_sessionId := None; last_event_id := None; body := b |}.

Definition an_env : Env :=
  {| listening := true; randomUUID := "6f1f0d3e-5d0c-4a1e-9f0a-2b7c8d9e0f11" |}.

Definition a_ping : json :=
  JObj [("jsonrpc", JStr "2.0"); ("id", JNum 1); ("method", JStr "ping")].

(** The Accept negotiation of [handlePost] lets the request through. *)
Definition accepts_post (req : IncomingMessage) : bool :=
  let accept := nullish (accept req) "" in
  includes accept "application/json" || includes accept "text/event-stream"
  || includes accept "*/*".

End post_handling_vocabulary.

Section no_shape_validation_vocabulary.
Import Js Schema SdkTransport Topics Transport.

(** The [error.code] of a JSON-RPC envelope sent as the response. *)
Definition response_error_code (res : ServerResponse) : option Z :=
  match payload res with
  | Stringified v =>
      match get_opt "code" (get "error" v) with
      | Some (JNum c) => Some c
      | _ => None
      end
  | _ => None
  end.

(** The effects of a notifications-only POST whose collaborators succeed. *)
Definition deliveries (t : Transport) (msgs : list json) (ctx : string) : list Effect :=
  match messageHandler t with
  | Some _ => (λ m, Delivered m ctx) <$> msgs
  | None => []
  end.

Definition publications (sid : string) (msgs : list json) : list Effect :=
  (λ m, Published (subject_of (background_outbound sid)) m) <$> msgs.

End no_shape_validation_vocabulary.

Section engine_facts_vocabulary.
Import Js Schema SdkTransport Protocol.
Context {Handler : Type}.
Implicit Types e : Engine Handler.

(** Across a turn of the engine an abort controller stays in the store, and
    stays aborted once it is. *)
Definition keeps_aborted e e' : Prop :=
  ∀ c, (is_Some (controllers e !! c) → is_Some (controllers e' !! c)) ∧
       (is_aborted c e = true → is_aborted c e' = true).

Definition aborted_by_signal : Error := InternalError "Request aborted by external signal".

End engine_facts_vocabulary.

Section engine_runs_vocabulary.
Import Js Schema SdkTransport Protocol.

Definition a_connection : Connection :=
  {| id := "connection-1"; transport_send := λ _ _, None |}.

Definition an_engine : Engine string :=
  set_handlers (λ hs, <["tools/call" := "callToolHandler"]> hs) empty_engine.

Definition a_tool_call : json :=
  JObj [("jsonrpc", JStr "2.0"); ("id", JNum 1); ("method", JStr "tools/call");
        ("params", JObj [("name", JStr "echo");
                         ("_meta", JObj [("progressToken", JStr "tok")])])].

Definition a_cancellation : json :=
  JObj [("jsonrpc", JStr "2.0"); ("method", JStr "notifications/cancelled");
        ("params", JObj [("requestId", JNum 1); ("reason", JStr "user")])].

Definition abortable : RequestOptions :=
  {| route_sessionId := Some "s1"; opt_onProgress := true; opt_signal := Some 0%nat;
     opt_timeout := None; opt_resetTimeoutOnProgress := false |}.

Definition the_listener : AbortListener :=
  {| on_signal := 0%nat; forwards_to := 0%nat; clears := "connection-1:s1:1" |}.

End engine_runs_vocabulary.

Section json_response_vocabulary.
Import Js Schema SdkTransport Topics Transport.

(** What has become of a correlation subscription: it still waits, it has
    delivered a response or an error, or its stream has ended without one. *)
Inductive SubStatus := waiting | answered | ended.

Definition advance (ev : SubscriptionEvent) (i : nat) (s : SubStatus) : SubStatus :=
  match s with
  | waiting =>
      match ev with
      | Message j data =>
          if bool_decide (j = i) && (isJSONRPCResponse data || isJSONRPCError data)
          then answered else waiting
      | Closed j => if bool_decide (j = i) then ended else waiting
      | Failed _ _ => waiting
      end
  | _ => s
  end.

Fixpoint status_from (s : SubStatus) (events : list SubscriptionEvent) (i : nat) : SubStatus :=
  match events with
  | [] => s
  | ev :: rest => status_from (advance ev i s) rest i
  end.



Definition tracks (subs : list string) (st : nat → SubStatus) (w : Waiting) : Prop :=
  ∀ i, is_Some (subs !! i) → (i ∈ resolved w ↔ st i ≠ waiting).

Definition initial_pending (requests : list json) : list (string * option json) :=
  foldl (λ m request, map_set (String_opt (request_id request)) (request_id request) m)
        [] requests.

Definition correlation_keys (requests : list json) : list string :=
  (λ request, String_opt (request_id request)) <$> requests.

Definition a_request (id : json) (method : string) : json :=
  JObj [("jsonrpc", JStr "2.0"); ("id", id); ("method", JStr method)].

Definition a_result (id : json) : json :=
  JObj [("jsonrpc", JStr "2.0"); ("id", id); ("result", JObj [])].

Definition a_batch : list json :=
  [a_request (JNum 1) "resources/list"; a_request (JStr "a") "ping"].

End json_response_vocabulary.

Section topic_directions_vocabulary.
Import Topics.

(** The address names an inbound topic. *)
Definition is_inbound (a : Address) : bool :=
  match a with
  | request_inbound _ _ | background_inbound _ => true
  | request_outbound _ _ | background_outbound _ => false
  end.

End topic_directions_vocabulary.

Section router_vocabulary.
Import Js Schema SdkTransport Topics Transport.

Definition healthy_200 : ServerResponse :=
  {| statusCode := 200; headers := [("Content-Type", "application/json")];
     payload := Stringified (JObj [("status", JStr "healthy")]) |}.

Definition no_content_204 : ServerResponse :=
  {| statusCode := 204; headers := []; payload := Empty |}.

Definition method_not_allowed (allow : string) : ServerResponse :=
  {| statusCode := 405; headers := [("Allow", allow)]; payload := Text "Method Not Allowed" |}.

Definition missing_session_400 : ServerResponse :=
  {| statusCode := 400; headers := [];
     payload := Text "Bad Request: Missing Mcp-Session-Id header" |}.

Definition session_not_found_404 : ServerResponse :=
  {| statusCode := 404; headers := []; payload := Text "Session Not Found" |}.

Definition parse_error_400 : ServerResponse :=
  {| statusCode := 400; headers := [("Content-Type", "application/json")];
     payload := Stringified (error_envelope JNull (-32700) "Parse error") |}.

Definition internal_error_500 : ServerResponse :=
  {| statusCode := 500; headers := [("Content-Type", "application/json")];
     payload := Stringified (error_envelope JNull (-32603) "Internal Server Error") |}.

(** The session id a POST supplies: the header, or the query parameter when
    there is no header. *)
Definition supplied_session (req : IncomingMessage) : option string :=
  match mcp_session_id req with
  | Some h => Some h
  | None => query_sessionId req
  end.

(** The Accept header admits an event stream. *)
Definition accepts_stream (req : IncomingMessage) : bool :=
  let accept := nullish (accept req) "" in
  includes accept "text/event-stream" || includes accept "*/*".

Definition a_get (path : string) (session : option string) (last : option string) : IncomingMessage :=
  {| method := "GET"; pathname := path; accept := Some "text/event-stream";
     mcp_session_id := session; query_sessionId := None; last_event_id := last;
     body := InvalidJson |}.

Definition a_delete (path : string) (session : option string) : IncomingMessage :=
  {| method := "DELETE"; pathname := path; accept := None;
     mcp_session_id := session; query_sessionId := None; last_event_id := None;
     body := InvalidJson |}.

(** A store that knows the one session [known]. *)
Definition a_store (known : string) : SessionManager :=
  {| create := {| session_id := "fresh" |};
     get_session := λ s, if decide (s = known) then Some {| session_id := s |} else None |}.

Definition with_sessions (store : option SessionManager) (o : Options) : Options :=
  {| httpServer_endpoint := httpServer_endpoint o;
     streamableHttp_responseTimeoutMs := streamableHttp_responseTimeoutMs o;
     streamableHttp_responseModeStrategy := streamableHttp_responseModeStrategy o;
     streamableHttp_enableBackgroundChannel := streamableHttp_enableBackgroundChannel o;
     streamableHttp_enableSessionTermination := streamableHttp_enableSessionTermination o;
     sessions := store;
     eventBroker := eventBroker o |}.

(** The default transport over the store [a_store known]. *)
Definition a_stateful_transport (known : string) : Transport :=
  {| options := with_sessions (Some (a_store known)) default_options;
     broker := quiet_broker; endpoint := "/mcp";
     responseTimeoutMs := DEFAULT_RESPONSE_TIMEOUT_MS;
     responseModeStrategy := λ messages _, defaultResponseModeStrategy messages;
     enableBackgroundChannel := true; enableSessionTermination := true;
     messageHandler := None |}.

End router_vocabulary.

Section json_mode_vocabulary.
Import Js Schema SdkTransport Topics Transport.

Definition not_acceptable_406 : ServerResponse :=
  {| statusCode := 406; headers := [];
     payload := Text "Not Acceptable: Must accept application/json or text/event-stream" |}.

(** The subscriptions that the JSON mode opens, one per request. *)
Definition subscribed (sid : string) (requests : list json) : list Effect :=
  (λ k, Subscribed (subject_of (request_outbound sid k)) None) <$> correlation_keys requests.

Definition json_200 (head : list (string * string)) (body : json) : ServerResponse :=
  {| statusCode := 200; headers := head ++ [("Content-Type", "application/json")];
     payload := Stringified body |}.

Definition no_failure (ev : SubscriptionEvent) : bool :=
  match ev with Failed _ _ => false | _ => true end.

(** The event leaves the single subscription of a one-request POST waiting:
    it is a message that is neither a response nor an error, or it names a
    subscription that does not exist. *)
Definition leaves_waiting (ev : SubscriptionEvent) : bool :=
  match ev with
  | Message O d => negb (isJSONRPCResponse d || isJSONRPCError d)
  | Closed O | Failed O _ => false
  | _ => true
  end.

Definition is_timeout_error (v : json) : Prop := ∃ id, v = timeout_error id.

(** Every request is either answered or still pending, once. *)
Definition accounted (subs : list string) (w : Waiting) : Prop :=
  NoDup (pendingRequestIds w).*1 ∧
  (∀ i k, subs !! i = Some k → i ∉ resolved w → k ∈ (pendingRequestIds w).*1) ∧
  (length (responses w) + length (pendingRequestIds w) = length subs)%nat ∧
  Forall (λ v, isJSONRPCResponse v || isJSONRPCError v = true) (responses w).

(** An engine callback that fails on numbers. *)
Definition a_failing_handler : TransportMessageHandler :=
  λ message _, match message with
               | JNum _ => Thrown {| err_code := None; err_message := "boom" |}
               | _ => Returned ()
               end.

Definition a_failing_transport : Transport :=
  set_messageHandler (Some a_failing_handler) default_transport.

End json_mode_vocabulary.

Section engine_promises_vocabulary.
Import Js Schema SdkTransport Protocol.
Context {Handler : Type}.
Implicit Types e : Engine Handler.

(** Across a turn of the engine a promise stays in the store, and keeps its
    state once it is settled. *)
Definition keeps_settled e e' : Prop :=
  ∀ p s, promises e !! p = Some s →
         is_Some (promises e' !! p) ∧ (s ≠ Pending → promises e' !! p = Some s).

(** [s] has no [:]. *)
Fixpoint colon_free (s : string) : bool :=
  match s with
  | "" => true
  | String c rest => negb (bool_decide (c = ":"%char)) && colon_free rest
  end.

(** The options under which [send] hands a request to the transport. *)
Definition request_send_options (options : RequestOptions) : TransportSendOptions :=
  {| sessionId := route_sessionId options; requestId := None; timeout := None |}.

End engine_promises_vocabulary.

Section engine_samples_vocabulary.
Import Js Schema SdkTransport Protocol.

Definition a_tool_result : json :=
  JObj [("jsonrpc", JStr "2.0"); ("id", JNum 1); ("result", JObj [])].

Definition a_tool_error : json :=
  JObj [("jsonrpc", JStr "2.0"); ("id", JNum 1);
        ("error", JObj [("code", JNum (-32000)); ("message", JStr "failed")])].

Definition plain_options : RequestOptions :=
  {| route_sessionId := Some "s1"; opt_onProgress := false; opt_signal := None;
     opt_timeout := None; opt_resetTimeoutOnProgress := false |}.

End engine_samples_vocabulary.

Section engine_requests_vocabulary.
Import Js Schema SdkTransport Protocol.

(** The pending request that [send] stores for a prepared request: its
    promise and the handle of its timer. *)
Definition pending_of (p : Prepared) (promise : nat) (h : option nat) : PendingRequest :=
  {| promise := promise; onProgress := opt_onProgress (pr_options p);
     resetTimeoutOnProgress := opt_resetTimeoutOnProgress (pr_options p);
     timeoutMs := nullish (opt_timeout (pr_options p)) DEFAULT_REQUEST_TIMEOUT_MS;
     p_requestId := get "id" (pr_request p); connection := id (pr_connection p);
     abortController := pr_abortController p; p_timeout := h |}.

(** The progress token under which [send] indexes a request, if any. *)
Definition progress_token (p : Prepared) : option json :=
  let params := get "params" (pr_request p) in
  if opt_onProgress (pr_options p) && (isObject params || isArray params) then
    let progressToken := get_opt "progressToken" (get_opt "_meta" params) in
    if truthy_json progressToken then progressToken else None
  else None.

End engine_requests_vocabulary.

Section engine_progress_vocabulary.
Import Js Schema SdkTransport Protocol.

Definition a_progress : json :=
  JObj [("jsonrpc", JStr "2.0"); ("method", JStr "notifications/progress");
        ("params", JObj [("progressToken", JStr "tok"); ("progress", JNum 1)])].

Definition progress_options : RequestOptions :=
  {| route_sessionId := Some "s1"; opt_onProgress := true; opt_signal := None;
     opt_timeout := Some 5000; opt_resetTimeoutOnProgress := true |}.

(** The engine after [a_tool_call] has been sent on [a_connection]. *)
Definition a_sent_request (options : RequestOptions) : Engine string * nat :=
  let prepared := send_request_prepare a_connection a_tool_call options an_engine in
  send_request_register prepared.2 prepared.1.

End engine_progress_vocabulary.

Section sse_vocabulary.
Import Js Schema SdkTransport Topics Transport.

(** The headers that [handleSseResponse] writes. *)
Definition sse_head : list Effect :=
  [HeaderSet "Content-Type" "text/event-stream"; HeaderSet "Cache-Control" "no-cache";
   HeaderSet "Connection" "keep-alive"].

Definition is_reply (data : json) : bool := isJSONRPCResponse data || isJSONRPCError data.

(** The event leaves the stream of a one-request POST open: it is a message
    that is neither a response nor an error, or it names a subscription that
    does not exist. *)
Definition stays_open (ev : StreamEvent) : bool :=
  match ev with
  | Arrived O _ d => negb (is_reply d)
  | Ended O | Broke O _ => false
  | _ => true
  end.

(** The frames of the messages that arrive on the first subscription. *)
Definition frames_of (events : list StreamEvent) : list SseFrame :=
  omap (λ ev, match ev with
              | Arrived O eventId data => Some {| frame_id := eventId; frame_data := data |}
              | _ => None
              end) events.

(** The event neither answers nor ends subscription [i], and no
    subscription throws. *)
Definition quiet_for (i : nat) (ev : StreamEvent) : bool :=
  match ev with
  | Arrived j _ d => negb (bool_decide (j = i) && is_reply d)
  | Ended j => negb (bool_decide (j = i))
  | Broke _ _ => false
  end.

Definition reply_frames (frames : list SseFrame) : list SseFrame :=
  List.filter (λ f, is_reply (frame_data f)) frames.

Definition a_progress_event (n : Z) : json :=
  JObj [("jsonrpc", JStr "2.0"); ("method", JStr "notifications/progress");
        ("params", JObj [("progressToken", JStr "tok"); ("progress", JNum n)])].

End sse_vocabulary.

Section router_samples_vocabulary.
Import Js Schema SdkTransport Topics Transport.

(** Options that switch the background channel and session termination off. *)
Definition post_only_options : Options :=
  {| httpServer_endpoint := Some "/mcp";
     streamableHttp_responseTimeoutMs := None;
     streamableHttp_responseModeStrategy := None;
     streamableHttp_enableBackgroundChannel := Some false;
     streamableHttp_enableSessionTermination := Some false;
     sessions := None;
     eventBroker := Some quiet_broker |}.

End router_samples_vocabulary.

Section pending_callback_vocabulary.
Import Js Schema SdkTransport Topics Transport.

(** The Accept header admits a JSON response. *)
Definition accepts_json (req : IncomingMessage) : bool :=
  let accept := nullish (accept req) "" in
  includes accept "application/json" || includes accept "*/*".

(** The effect is a header set on the response or a subscription. *)
Definition is_setup (ef : Effect) : bool :=
  match ef with HeaderSet _ _ | Subscribed _ _ => true | _ => false end.

(** An engine callback that stays pending on requests. *)
Definition a_pending_handler : TransportMessageHandler :=
  λ message _, if isJSONRPCRequest message then Unsettled else Returned ().

Definition a_pending_transport : Transport :=
  set_messageHandler (Some a_pending_handler) default_transport.

End pending_callback_vocabulary.

(** * Properties *)

Section string_facts.

Lemma append_cons (c : ascii) (a b : string) : String c a +:+ b = String c (a +:+ b).
Proof. reflexivity. Qed.

Lemma append_nil (b : string) : "" +:+ b = b.
Proof. reflexivity. Qed.

Lemma append_assoc (a b c : string) : (a +:+ b) +:+ c = a +:+ b +:+ c.
Proof.
  induction a as [|x a IH]; [done|].
  rewrite !append_cons. by rewrite IH.
Qed.

Lemma length_append (a b : string) :
  String.length (a +:+ b) = (String.length a + String.length b)%nat.
Proof.
  induction a as [|x a IH]; [done|].
  rewrite append_cons. simpl. by rewrite IH.
Qed.

(** Two ways of ending in a suffix of one length agree on everything. *)
Lemma append_eq_same_length (x y a b : string) :
  String.length a = String.length b →
  x +:+ a = y +:+ b → x = y ∧ a = b.
Proof.
  intros Hlen. revert y. induction x as [|c x IH]; intros [|d y] Heq.
  - done.
  - exfalso. apply (f_equal String.length) in Heq.
    rewrite append_nil, append_cons in Heq. simpl in Heq.
    rewrite length_append in Heq. lia.
  - exfalso. apply (f_equal String.length) in Heq.
    rewrite append_nil, append_cons in Heq. simpl in Heq.
    rewrite length_append in Heq. lia.
  - rewrite !append_cons in Heq. injection Heq as -> Heq.
    destruct (IH _ Heq) as [-> ->]. done.
Qed.

Lemma append_inj_r (x y a : string) : x +:+ a = y +:+ a → x = y.
Proof. intros Heq. by destruct (append_eq_same_length x y a a eq_refl Heq). Qed.

(** The first separator of a string splits it in one way only. *)
Lemma first_dot_split (s s' t t' : string) :
  dot_free s = true → dot_free s' = true →
  s +:+ String "."%char t = s' +:+ String "."%char t' → s = s' ∧ t = t'.
Proof.
  revert s'. induction s as [|c s IH]; intros [|d s'] Hs Hs' Heq;
    rewrite ?append_nil, ?append_cons in Heq; simpl in Hs, Hs'.
  - by injection Heq as ->.
  - injection Heq as <- _. by rewrite bool_decide_eq_true_2 in Hs'.
  - injection Heq as -> _. by rewrite bool_decide_eq_true_2 in Hs.
  - injection Heq as -> Heq.
    apply andb_prop in Hs as [_ Hs]. apply andb_prop in Hs' as [_ Hs'].
    destruct (IH _ Hs Hs' Heq) as [-> ->]. done.
Qed.

(** Numbers print as [String] prints the doubles they stand for: exactly
    up to [2^53], with the shortest digits that read back beyond, and with an
    exponent from [1e21] on. *)
Lemma String_of_numbers :
  String_ (JNum 42) = "42" ∧ String_ (JNum (-7)) = "-7" ∧
  String_ (JNum (2 ^ 53 + 1)) = "9007199254740992" ∧
  String_ (JNum (2 ^ 60)) = "1152921504606847000" ∧
  String_ (JNum (10 ^ 21)) = "1e+21" ∧
  String_ (JNum (2 ^ 70)) = "1.1805916207174113e+21".
Proof. vm_compute. done. Qed.

End string_facts.

(** ** Topic scheme *)

Section topic_scheme.
Import Topics.

Lemma subject_request_inbound s r :
  subject_of (request_inbound s r) = shaped s r ".inbound".
Proof. reflexivity. Qed.

Lemma subject_request_outbound s r :
  subject_of (request_outbound s r) = shaped s r ".outbound".
Proof. reflexivity. Qed.

Lemma subject_background_outbound s :
  subject_of (background_outbound s) = shaped s "bg" ".outbound".
Proof. reflexivity. Qed.

Lemma subject_background_inbound s :
  subject_of (background_inbound s) = shaped s "bg" ".inbound".
Proof. reflexivity. Qed.

Lemma inbound_outbound_differ (x y : string) : x +:+ ".inbound" ≠ y +:+ ".outbound".
Proof.
  change (y +:+ ".outbound") with (y +:+ "." +:+ "outbound").
  rewrite <-append_assoc. intros Heq.
  by destruct (append_eq_same_length x (y +:+ ".") ".inbound" "outbound" eq_refl Heq)
    as [_ ?].
Qed.

Lemma shaped_inj_same (s s' x x' d : string) :
  dot_free s = true → dot_free s' = true →
  shaped s x d = shaped s' x' d → s = s' ∧ x = x'.
Proof.
  intros Hs Hs' Heq. unfold shaped in Heq. apply String.app_inj in Heq.
  destruct (first_dot_split _ _ _ _ Hs Hs' Heq) as [-> Hx].
  split; [done|]. by apply append_inj_r in Hx.
Qed.

Lemma shaped_directions_differ (s s' x x' : string) :
  dot_free s = true → dot_free s' = true →
  shaped s x ".inbound" ≠ shaped s' x' ".outbound".
Proof.
  intros Hs Hs' Heq. unfold shaped in Heq. apply String.app_inj in Heq.
  destruct (first_dot_split _ _ _ _ Hs Hs' Heq) as [_ Hx].
  by apply inbound_outbound_differ in Hx.
Qed.

Lemma plain_session a : plain a = true → dot_free (session_of a) = true.
Proof. unfold plain. by intros [? _]%andb_prop. Qed.

Lemma plain_request_inbound s r : plain (request_inbound s r) = true → r ≠ "bg".
Proof.
  unfold plain. intros [_ Hr]%andb_prop.
  by apply negb_true_iff, bool_decide_eq_false in Hr.
Qed.

Lemma plain_request_outbound s r : plain (request_outbound s r) = true → r ≠ "bg".
Proof.
  unfold plain. intros [_ Hr]%andb_prop.
  by apply negb_true_iff, bool_decide_eq_false in Hr.
Qed.

(** C1, as amended: over session ids without a separator and request ids
    other than the reserved segment [bg], distinct parameter tuples of the
    four topic families name distinct subjects; the constructors are injective
    within a family and never collide across families. *)
Theorem subject_of_distinct (a b : Address) :
  plain a = true → plain b = true → a ≠ b → subject_of a ≠ subject_of b.
Proof.
  intros Ha Hb Hne Heq. apply Hne. clear Hne.
  pose proof (plain_session _ Ha) as Hsa.
  pose proof (plain_session _ Hb) as Hsb.
  destruct a as [s r|s r|s|s], b as [s' r'|s' r'|s'|s']; simpl in Hsa, Hsb;
    rewrite ?subject_request_inbound, ?subject_request_outbound,
      ?subject_background_outbound, ?subject_background_inbound in Heq;
    try (by apply shaped_directions_differ in Heq);
    try (by symmetry in Heq; apply shaped_directions_differ in Heq);
    destruct (shaped_inj_same _ _ _ _ _ Hsa Hsb Heq) as [-> Hx]; subst; try done.
  - by apply plain_request_inbound in Ha.
  - by apply plain_request_outbound in Ha.
  - by apply plain_request_outbound in Hb.
  - by apply plain_request_inbound in Hb.
Qed.

Lemma subject_of_distinct_witness :
  plain (request_outbound "s1" "7") = true ∧
  plain (background_outbound "s1") = true ∧
  request_outbound "s1" "7" ≠ background_outbound "s1" ∧
  subject_of (request_outbound "s1" "7") ≠ subject_of (background_outbound "s1").
Proof.
  split; [reflexivity|]. split; [reflexivity|].
  split; [discriminate|].
  apply subject_of_distinct; [reflexivity|reflexivity|discriminate].
Defined.

(** C1, as stated, fails: a request whose id is [bg] shares its subject
    with the background channel of its session, and a separator inside an id
    moves the boundary between session and request. *)
Lemma subject_of_collides :
  request_outbound "s" "bg" ≠ background_outbound "s" ∧
  subject_of (request_outbound "s" "bg") = subject_of (background_outbound "s") ∧
  request_inbound "s" "bg" ≠ background_inbound "s" ∧
  subject_of (request_inbound "s" "bg") = subject_of (background_inbound "s") ∧
  request_inbound "a.b" "c" ≠ request_inbound "a" "b.c" ∧
  subject_of (request_inbound "a.b" "c") = subject_of (request_inbound "a" "b.c").
Proof. repeat split; (discriminate || reflexivity). Qed.

End topic_scheme.

(** ** Response mode selection *)

Section response_mode.
Import Transport.

Lemma is_streaming_method_spec msg :
  is_streaming_method msg = true ↔ streaming_prone msg.
Proof.
  unfold is_streaming_method, streaming_prone.
  destruct (get "method" msg) as [[| | |m| |]|]; try (split; [done|by intros (? & [=] & _)]).
  rewrite bool_decide_eq_true. unfold STREAMING_METHODS.
  rewrite !elem_of_union, !elem_of_singleton. split.
  - intros Hin. exists m. split; [done|]. tauto.
  - intros (m' & [= <-] & Hm). tauto.
Qed.

Lemma requests_progress_spec msg :
  requests_progress msg = true ↔ carries_progress_token msg.
Proof.
  unfold requests_progress, carries_progress_token. rewrite bool_decide_eq_true.
  split.
  - intros [token Htoken].
    destruct (get "params" msg) as [[| | | | |params]|]; simpl in Htoken; try done.
    destruct (lookup_field "_meta" params) as [[| | | | |meta]|] eqn:Hmeta;
      simpl in Htoken; try done.
    by exists params, meta, token.
  - intros (params & meta & token & -> & Hmeta & Htoken). simpl.
    rewrite Hmeta. simpl. by rewrite Htoken.
Qed.

Lemma wants_stream_dec msg :
  (if isJSONRPCRequest msg then is_streaming_method msg || requests_progress msg else false) = true
  ↔ wants_stream msg.
Proof.
  unfold wants_stream. destruct (isJSONRPCRequest msg).
  - rewrite orb_true_iff, is_streaming_method_spec, requests_progress_spec. tauto.
  - split; [done|]. by intros [? _].
Qed.

(** C4: the default response-mode policy answers [sse] exactly when some
    message of the list is a request whose method is [tools/call],
    [sampling/createMessage] or [prompts/get], or a request whose
    [params._meta.progressToken] is defined; otherwise it answers [json]. *)
Theorem defaultResponseModeStrategy_spec (messages : list json) :
  (defaultResponseModeStrategy messages = mode_sse ↔ ∃ msg, msg ∈ messages ∧ wants_stream msg) ∧
  (defaultResponseModeStrategy messages = mode_json ↔ ¬ ∃ msg, msg ∈ messages ∧ wants_stream msg).
Proof.
  assert (defaultResponseModeStrategy messages = mode_sse
          ↔ ∃ msg, msg ∈ messages ∧ wants_stream msg) as Hsse.
  { induction messages as [|msg rest IH]; simpl.
    - split; [done|]. intros (? & Hin & _). by apply elem_of_nil in Hin.
    - pose proof (wants_stream_dec msg) as Hdec.
      destruct (isJSONRPCRequest msg) eqn:Hreq.
      + destruct (is_streaming_method msg) eqn:Hm.
        { split; [|done]. intros _. exists msg. split; [left|]. by apply Hdec. }
        destruct (requests_progress msg) eqn:Hp.
        { split; [|done]. intros _. exists msg. split; [left|]. by apply Hdec. }
        rewrite IH. split.
        * intros (m & Hin & Hw). exists m. split; [by right|done].
        * intros (m & Hin & Hw). apply elem_of_cons in Hin as [->|Hin].
          -- by apply Hdec in Hw.
          -- by exists m.
      + rewrite IH. split.
        * intros (m & Hin & Hw). exists m. split; [by right|done].
        * intros (m & Hin & Hw). apply elem_of_cons in Hin as [->|Hin].
          -- by apply Hdec in Hw.
          -- by exists m. }
  split; [done|]. rewrite <-Hsse.
  destruct (defaultResponseModeStrategy messages); split; done.
Qed.

Example defaultResponseModeStrategy_progress :
  defaultResponseModeStrategy
    [JObj [("jsonrpc", JStr "2.0"); ("id", JNum 1); ("method", JStr "resources/list");
           ("params", JObj [("_meta", JObj [("progressToken", JStr "t")])])]] = mode_sse.
Proof. reflexivity. Qed.

Example defaultResponseModeStrategy_notification :
  defaultResponseModeStrategy
    [JObj [("jsonrpc", JStr "2.0"); ("method", JStr "tools/call")]] = mode_json.
Proof. reflexivity. Qed.

End response_mode.

(** ** Outbound routing *)

Section outbound_routing.
Import Js SdkTransport Topics Transport.

Lemma truthy_Some s : truthy (Some s) = true ↔ s ≠ "".
Proof. unfold truthy. by rewrite negb_true_iff, bool_decide_eq_false. Qed.

Lemma truthy_false x : truthy x = false ↔ x = None ∨ x = Some "".
Proof.
  destruct x as [s|]; simpl.
  - rewrite negb_false_iff, bool_decide_eq_true. split.
    + intros ->. by right.
    + by intros [?|[= ->]].
  - split; [by left|done].
Qed.

(** C5, as amended: [send] fails and publishes nothing when
    [options.sessionId] is absent or empty; with a non-empty session id it
    publishes the message once, on [request-outbound] when
    [options.requestId] is present and non-empty, and otherwise on
    [background-inbound] for a JSON-RPC request and on [background-outbound]
    for any other message. *)
Theorem send_routes (t : Transport) (message : json) (options : option TransportSendOptions) :
  let sid := options ≫= sessionId in
  let rid := options ≫= requestId in
  (sid = None ∨ sid = Some "" →
     send t message options = ([], Thrown missing_sessionId)) ∧
  (∀ s, sid = Some s → s ≠ "" →
     (∀ r, rid = Some r → r ≠ "" →
        send t message options
        = publish t RequestOutbound {| rq_sessionId := s; rq_requestId := r |} message) ∧
     (rid = None ∨ rid = Some "" → isJSONRPCRequest message = true →
        send t message options
        = publish t BackgroundInbound {| bg_sessionId := s |} message) ∧
     (rid = None ∨ rid = Some "" → isJSONRPCRequest message = false →
        send t message options
        = publish t BackgroundOutbound {| bg_sessionId := s |} message)).
Proof.
  intros sid rid. unfold send. fold sid rid. split.
  - intros Hs%truthy_false. by rewrite Hs.
  - intros s -> Hs. apply truthy_Some in Hs as Hts. rewrite Hts. simpl.
    split; [|split].
    + intros r -> Hr. pose proof (proj2 (truthy_Some r) Hr) as Htr.
      rewrite !Htr. done.
    + intros Hr%truthy_false ->. rewrite Hr. done.
    + intros Hr%truthy_false ->. rewrite Hr. done.
Qed.

Lemma constructor_default : constructor default_options = Returned default_transport.
Proof. reflexivity. Qed.

Lemma send_routes_witness :
  send default_transport a_response
    (Some {| sessionId := Some "s1"; requestId := Some "7"; timeout := None |})
  = ([Published "mcp.s1.7.outbound" a_response], Returned ()) ∧
  send default_transport a_notification
    (Some {| sessionId := Some "s1"; requestId := None; timeout := None |})
  = ([Published "mcp.s1.bg.outbound" a_notification], Returned ()).
Proof.
  pose proof (send_routes default_transport a_response
    (Some {| sessionId := Some "s1"; requestId := Some "7"; timeout := None |})) as [_ H1].
  pose proof (send_routes default_transport a_notification
    (Some {| sessionId := Some "s1"; requestId := None; timeout := None |})) as [_ H2].
  split.
  - destruct (H1 "s1" eq_refl) as [H _]; [discriminate|].
    rewrite (H "7" eq_refl); [reflexivity|discriminate].
  - destruct (H2 "s1" eq_refl) as (_ & _ & H); [discriminate|].
    rewrite H; [reflexivity|by left|reflexivity].
Defined.

(** C5, as stated, fails: a request id that is present but empty is routed
    to the background channel instead of [request-outbound], and a session
    id that is present but empty makes the call fail. *)
Lemma send_empty_ids :
  send default_transport a_response
    (Some {| sessionId := Some "s1"; requestId := Some ""; timeout := None |})
  = ([Published (subject_of (background_outbound "s1")) a_response], Returned ()) ∧
  subject_of (background_outbound "s1") ≠ subject_of (request_outbound "s1" "") ∧
  send default_transport a_notification
    (Some {| sessionId := Some ""; requestId := None; timeout := None |})
  = ([], Thrown missing_sessionId).
Proof. split; [reflexivity|]. split; [discriminate|reflexivity]. Qed.

End outbound_routing.

(** ** The endpoint and the POST handler *)

Section post_handling.
Import Js Schema SdkTransport Topics Transport.

(** C9 fails on the code: without an explicit [httpServer.endpoint] the
    transport serves MCP traffic on [/], the value of [DEFAULT_ENDPOINT], and
    every request to [/mcp] is answered 404, whatever its method. *)
Theorem default_endpoint_is_root (o : Options) (t : Transport) (env : Env)
    (req : IncomingMessage) (events : list SubscriptionEvent) :
  httpServer_endpoint o = None →
  constructor o = Returned t →
  pathname req = "/mcp" →
  endpoint t = "/" ∧ onRequest t env req events = ([], Finished not_found).
Proof.
  intros Ho Ht Hpath. unfold constructor in Ht.
  destruct (eventBroker o) as [b|]; [|done].
  injection Ht as <-. rewrite Ho. simpl. split; [done|].
  unfold onRequest, handleRequest. simpl. rewrite Hpath. done.
Qed.

Lemma default_endpoint_is_root_witness :
  endpoint default_transport = "/" ∧
  onRequest default_transport an_env (a_post "/mcp" (ParsedJson a_ping)) []
  = ([], Finished not_found).
Proof.
  apply (default_endpoint_is_root default_options); reflexivity.
Defined.

Lemma accepts_post_spec req :
  accepts_post req = true →
  let accept := nullish (accept req) "" in
  negb (includes accept "application/json" || includes accept "*/*")
  && negb (includes accept "text/event-stream" || includes accept "*/*") = false.
Proof.
  unfold accepts_post. simpl.
  destruct (includes _ "application/json"), (includes _ "text/event-stream"),
    (includes _ "*/*"); done.
Qed.

(** C3, as amended: a POST whose body is the empty array [[]] and whose
    Accept header passes the negotiation is answered 202 with an empty body,
    nothing being delivered or published, whenever its session resolves, and
    404 when the store does not know the session; it is not answered 400. *)
Theorem post_empty_batch (t : Transport) (env : Env) (req : IncomingMessage)
    (events : list SubscriptionEvent) :
  accepts_post req = true →
  body req = ParsedJson (JArr []) →
  ∃ res, handlePost t env req events = ([], Returned (Finished res)) ∧
    statusCode res ≠ 400 ∧
    match getOrCreateSession t env req with
    | session_success _ _ _ => res = accepted_202
    | session_failure res' => res = res' ∧ statusCode res = 404
    end.
Proof.
  intros Hacc Hbody. unfold handlePost.
  rewrite (accepts_post_spec _ Hacc).
  unfold getOrCreateSession.
  destruct (sessions (options t)) as [store|].
  - destruct (truthy _).
    + destruct (get_session store _) as [session|].
      * unfold parseRequestBody. rewrite Hbody. simpl.
        unfold deliverToProtocol. destruct (messageHandler t); by eexists.
      * by eexists.
    + unfold parseRequestBody. rewrite Hbody. simpl.
      unfold deliverToProtocol. destruct (messageHandler t); by eexists.
  - unfold parseRequestBody. rewrite Hbody. simpl.
    unfold deliverToProtocol. destruct (messageHandler t); by eexists.
Qed.

Lemma post_empty_batch_witness :
  ∃ res, handlePost default_transport an_env (a_post "/" (ParsedJson (JArr []))) []
         = ([], Returned (Finished res)) ∧
    statusCode res ≠ 400 ∧ res = accepted_202.
Proof.
  destruct (post_empty_batch default_transport an_env (a_post "/" (ParsedJson (JArr []))) [])
    as (res & H1 & H2 & H3); [reflexivity|reflexivity|].
  exists res. done.
Defined.

(** C3, as stated, fails: the empty batch is answered 202, not 400. *)
Lemma post_empty_batch_is_accepted :
  accepts_post (a_post "/" (ParsedJson (JArr []))) = true ∧
  onRequest default_transport an_env (a_post "/" (ParsedJson (JArr []))) []
  = ([], Finished accepted_202) ∧
  statusCode accepted_202 ≠ 400.
Proof. split; [reflexivity|]. split; [reflexivity|discriminate]. Qed.

End post_handling.

(** ** Bodies without requests *)

Section no_shape_validation.
Import Js Schema SdkTransport Topics Transport.

Lemma isJSONRPCRequest_has_method v :
  isJSONRPCRequest v = true → has "method" v = true.
Proof.
  unfold isJSONRPCRequest.
  destruct (hasJSONRPCVersion v); simpl; [|done].
  destruct (has "id" v); simpl; [|done].
  destruct (has "method" v); simpl; done.
Qed.

Lemma filter_without_method (msgs : list json) :
  Forall (λ m, has "method" m = false) msgs →
  List.filter isJSONRPCRequest msgs = [].
Proof.
  induction 1 as [|m msgs Hm _ IH]; [done|]. simpl.
  destruct (isJSONRPCRequest m) eqn:Hreq; [|done].
  apply isJSONRPCRequest_has_method in Hreq. congruence.
Qed.

Lemma bind_returned {A B} (es : list Effect) (a : A) (k : A → M B) :
  ((es, Returned a) : M A) ≫= k = (es ++ (k a).1, (k a).2).
Proof. unfold mbind, M_bind, bind. by destruct (k a). Qed.

Lemma bind_thrown {A B} (es : list Effect) (e : Error) (k : A → M B) :
  ((es, Thrown e) : M A) ≫= k = (es, Thrown e).
Proof. reflexivity. Qed.

Lemma deliver_quiet (h : TransportMessageHandler) (msgs : list json) (ctx : string) :
  Forall (λ m, h m ctx = Returned ()) msgs →
  deliver h msgs ctx = ((λ m, Delivered m ctx) <$> msgs, Returned ()).
Proof.
  induction 1 as [|m msgs Hm _ IH]; [done|]. simpl.
  rewrite Hm, IH. done.
Qed.

Lemma publish_each_quiet (t : Transport) (sid : string) (msgs : list json) :
  Forall (λ m, publish_throws (broker t)
                 (subject BackgroundOutbound {| bg_sessionId := sid |}) m = None) msgs →
  publish_each t sid msgs
  = ((λ m, Published (subject BackgroundOutbound {| bg_sessionId := sid |}) m) <$> msgs,
     Returned ()).
Proof.
  induction 1 as [|m msgs Hm _ IH]; [done|]. simpl in Hm |- *.
  rewrite Hm, IH. done.
Qed.

(** Whatever the collaborators do, the notifications-only path ends the
    response with 202, throws, or is never resumed. *)
Lemma deliver_outcome (h : TransportMessageHandler) (msgs : list json) (ctx : string) :
  ∃ es, deliver h msgs ctx = (es, Returned ()) ∨ (∃ e, deliver h msgs ctx = (es, Thrown e))
        ∨ deliver h msgs ctx = (es, Unsettled).
Proof.
  induction msgs as [|m msgs IH]; simpl.
  - exists []. by left.
  - destruct (h m ctx) as [[]|e|].
    + destruct IH as (es & [->|[[e ->]| ->]]); eexists;
        [by left|right; left; by exists e|by right; right].
    + eexists. right. left. by exists e.
    + eexists. by right; right.
Qed.

Lemma publish_each_outcome (t : Transport) (sid : string) (msgs : list json) :
  ∃ es, publish_each t sid msgs = (es, Returned ())
        ∨ ∃ e, publish_each t sid msgs = (es, Thrown e).
Proof.
  induction msgs as [|m msgs IH]; simpl.
  - exists []. by left.
  - destruct (publish_throws _ _ _) as [e|].
    + eexists. right. by exists e.
    + destruct IH as (es & [->| [e ->]]); eexists; [by left|right; by exists e].
Qed.

Lemma notifications_only_outcome (t : Transport) (sid : string)
    (session : option TransportSession) (msgs : list json) :
  ∃ es, (deliverToProtocol t msgs sid session ;; handleNotificationsOnly t sid msgs)
        = (es, Returned (Finished accepted_202))
      ∨ (∃ e, (deliverToProtocol t msgs sid session ;; handleNotificationsOnly t sid msgs)
              = (es, Thrown e))
      ∨ (deliverToProtocol t msgs sid session ;; handleNotificationsOnly t sid msgs)
        = (es, Unsettled).
Proof.
  unfold handleNotificationsOnly.
  destruct (publish_each_outcome t sid msgs) as (ps & Hps).
  assert (∃ ds, deliverToProtocol t msgs sid session = (ds, Returned ())
                ∨ (∃ e, deliverToProtocol t msgs sid session = (ds, Thrown e))
                ∨ deliverToProtocol t msgs sid session = (ds, Unsettled)) as (ds & Hds).
  { unfold deliverToProtocol. destruct (messageHandler t) as [h|].
    - apply deliver_outcome.
    - exists []. by left. }
  destruct Hds as [->|[[e ->]| ->]].
  - rewrite bind_returned. destruct Hps as [->|[e ->]].
    + rewrite bind_returned. simpl. eexists. by left.
    + rewrite bind_thrown. simpl. eexists. right. left. by exists e.
  - rewrite bind_thrown. eexists. right. left. by exists e.
  - eexists. by right; right.
Qed.

(** C10, as amended: the transport validates no JSON-RPC shape.  When the
    body of a POST to the MCP endpoint parses as JSON and none of its messages
    is an object with a [method] field, no message is classified as a request,
    and the exchange is left unanswered or is answered 202, 406, 404 or 500,
    never with an invalid-request (-32600) envelope; when moreover the Accept
    header passes, the session resolves, the engine callback returns for every
    message and the broker does not throw, every message is delivered and
    published on the background channel and the response is 202 with an empty
    body. *)
Theorem post_without_method (t : Transport) (env : Env) (req : IncomingMessage)
    (events : list SubscriptionEvent) (pb : ParsedBody) :
  method req = "POST" →
  pathname req = endpoint t →
  pathname req ≠ "/health" →
  pathname req ≠ "/readiness" →
  parseRequestBody req = inr pb →
  Forall (λ m, has "method" m = false) (messages pb) →
  List.filter isJSONRPCRequest (messages pb) = [] ∧
  (∃ es h, onRequest t env req events = (es, h) ∧
           (h = Unanswered ∨
            ∃ res, h = Finished res ∧ response_error_code res ≠ Some INVALID_REQUEST ∧
                   statusCode res ∈ [202; 406; 404; 500])) ∧
  (∀ sid session isNew,
     accepts_post req = true →
     getOrCreateSession t env req = session_success sid session isNew →
     let ctx := match session with Some s => session_id s | None => sid end in
     (∀ h, messageHandler t = Some h → Forall (λ m, h m ctx = Returned ()) (messages pb)) →
     Forall (λ m, publish_throws (broker t) (subject_of (background_outbound sid)) m = None)
            (messages pb) →
     onRequest t env req events
     = (deliveries t (messages pb) ctx ++ publications sid (messages pb),
        Finished accepted_202)).
Proof.
  intros Hmethod Hpath Hhealth Hready Hparse Hmsgs.
  pose proof (filter_without_method _ Hmsgs) as Hfilter.
  assert (onRequest t env req events
          = match handlePost t env req events with
            | (es, Returned h) => (es, h)
            | (es, Thrown _) => (es, Finished (handleError (headers_set es)))
            | (es, Unsettled) => (es, Unanswered)
            end) as Hroute.
  { unfold onRequest, handleRequest.
    rewrite (bool_decide_eq_false_2 _ Hhealth), (bool_decide_eq_false_2 _ Hready).
    rewrite (bool_decide_eq_true_2 _ Hpath), (bool_decide_eq_true_2 _ Hmethod). done. }
  assert (∀ res : ServerResponse,
            response_error_code res ≠ Some INVALID_REQUEST →
            statusCode res ∈ [202; 406; 404; 500] →
            ∃ res', Finished res = Finished res' ∧
                    response_error_code res' ≠ Some INVALID_REQUEST ∧
                    statusCode res' ∈ [202; 406; 404; 500]) as Hres.
  { intros res ? ?. by exists res. }
  split; [done|]. split.
  - rewrite Hroute. unfold handlePost.
    destruct (negb _ && negb _).
    { eexists _, _. split; [reflexivity|]. right. apply Hres; [done|]. set_solver. }
    destruct (getOrCreateSession t env req) as [sid session isNew|res] eqn:Hsession.
    + rewrite Hparse, Hfilter. simpl.
      destruct (notifications_only_outcome t sid session (messages pb))
        as (es & [->|[[e ->]| ->]]); eexists _, _; (split; [reflexivity|]).
      * right. apply Hres; [done|]. set_solver.
      * right. apply Hres; [done|]. set_solver.
      * by left.
    + revert Hsession. unfold getOrCreateSession.
      destruct (sessions (options t)) as [store|]; [|done].
      destruct (truthy _); [|done].
      destruct (get_session store _); [done|].
      intros [= <-]. eexists _, _. split; [reflexivity|]. right.
      apply Hres; [done|]. set_solver.
  - intros sid session isNew Hacc Hsession ctx Hquiet Hbroker.
    rewrite Hroute. unfold handlePost.
    rewrite (accepts_post_spec _ Hacc), Hsession, Hparse, Hfilter.
    change (negb (bool_decide (0 < length (@nil json))%nat)) with true.
    cbv iota.
    unfold handleNotificationsOnly, deliveries, publications.
    rewrite (publish_each_quiet t sid _ Hbroker).
    unfold deliverToProtocol. fold ctx.
    destruct (messageHandler t) as [h|] eqn:Hh.
    + rewrite (deliver_quiet h _ ctx (Hquiet h eq_refl)).
      rewrite !bind_returned. simpl. by rewrite app_nil_r.
    + unfold ret at 1. rewrite !bind_returned. simpl. by rewrite app_nil_r.
Qed.

Lemma post_without_method_witness :
  onRequest default_transport an_env (a_post "/" (ParsedJson (JArr [JNum 42; JStr "x"]))) []
  = ([Published "mcp.6f1f0d3e-5d0c-4a1e-9f0a-2b7c8d9e0f11.bg.outbound" (JNum 42);
      Published "mcp.6f1f0d3e-5d0c-4a1e-9f0a-2b7c8d9e0f11.bg.outbound" (JStr "x")],
     Finished accepted_202).
Proof.
  assert (Forall (λ m, has "method" m = false) [JNum 42; JStr "x"]) as Hmsgs
    by (repeat constructor).
  pose proof (post_without_method default_transport an_env
                (a_post "/" (ParsedJson (JArr [JNum 42; JStr "x"]))) []
                {| messages := [JNum 42; JStr "x"]; isBatch := true |}
                eq_refl eq_refl ltac:(discriminate) ltac:(discriminate) eq_refl Hmsgs)
    as (_ & _ & H).
  apply (H _ None true eq_refl eq_refl).
  - discriminate.
  - repeat constructor.
Defined.

(** C10, as stated, fails: a body that parses as JSON and holds no object
    with a [method] field is not always answered 202.  The number [42] is
    answered 406 when the Accept header admits neither JSON nor an event
    stream, and 500 when the engine callback throws on it. *)
Lemma post_without_method_not_always_202 :
  let refused :=
    {| method := "POST"; pathname := "/"; accept := Some "text/html";
       mcp_session_id := None; query_sessionId := None; last_event_id := None;
       body := ParsedJson (JNum 42) |} in
  parseRequestBody refused = inr {| messages := [JNum 42]; isBatch := false |} ∧
  has "method" (JNum 42) = false ∧
  onRequest default_transport an_env refused [] = ([], Finished not_acceptable_406) ∧
  onRequest a_failing_transport an_env (a_post "/" (ParsedJson (JNum 42))) []
  = ([Delivered (JNum 42) "6f1f0d3e-5d0c-4a1e-9f0a-2b7c8d9e0f11"],
     Finished internal_error_500) ∧
  statusCode not_acceptable_406 ≠ 202 ∧ statusCode internal_error_500 ≠ 202.
Proof. repeat split; try reflexivity; discriminate. Qed.

End no_shape_validation.

(** ** The protocol engine *)

Section engine_facts.
Import Js Schema SdkTransport Protocol.
Context {Handler : Type}.
Implicit Types e : Engine Handler.

(** *** Handler registration *)

(** C8, as amended: registering a method a second time succeeds and
    replaces the handler registered first in the method-to-handler table;
    the handlers of the other methods stay. *)
Theorem registerHandler_twice (m : string) (h1 h2 : Handler) e e1 :
  registerHandler m h1 e = Returned e1 →
  ∃ e2, registerHandler m h2 e1 = Returned e2 ∧
        handlers e2 !! m = Some h2 ∧
        ∀ m', m' ≠ m → handlers e2 !! m' = handlers e1 !! m'.
Proof.
  intros [= <-]. eexists. split; [reflexivity|]. simpl. split.
  - apply lookup_insert_eq.
  - intros m' Hm'. by rewrite lookup_insert_ne.
Qed.

(** *** Abort handles are never reset *)

Lemma keeps_aborted_refl e : keeps_aborted e e.
Proof. by intros c. Qed.

Lemma keeps_aborted_trans e1 e2 e3 :
  keeps_aborted e1 e2 → keeps_aborted e2 e3 → keeps_aborted e1 e3.
Proof.
  intros H12 H23 c. destruct (H12 c) as [Ha Hb], (H23 c) as [Hc Hd]. split; auto.
Qed.

Lemma keeps_aborted_same e e' : controllers e' = controllers e → keeps_aborted e e'.
Proof. intros Heq c. unfold is_aborted. by rewrite Heq. Qed.

Lemma keeps_aborted_new e ctl :
  keeps_aborted e (set_controllers (λ cs, cs ++ [ctl]) e).
Proof.
  intros c. unfold is_aborted. simpl. split.
  - intros [x Hc]. exists x. by apply lookup_app_l_Some.
  - destruct (controllers e !! c) as [x|] eqn:Hc; [|done].
    by rewrite (lookup_app_l_Some _ _ _ _ Hc).
Qed.

Lemma is_aborted_abort c r e :
  is_Some (controllers e !! c) → is_aborted c (abort c r e) = true.
Proof.
  intros [ctl Hc]. unfold abort. destruct (is_aborted c e) eqn:Ha; [done|].
  unfold is_aborted. simpl.
  rewrite list_lookup_insert_eq; [done|]. by eapply lookup_lt_Some.
Qed.

Lemma keeps_aborted_abort c r e : keeps_aborted e (abort c r e).
Proof.
  intros c'. unfold abort. destruct (is_aborted c e) eqn:Ha; [done|].
  unfold is_aborted in *. simpl. split.
  - intros Hc'. apply lookup_lt_is_Some. rewrite length_insert.
    by apply lookup_lt_is_Some.
  - intros Hc'. destruct (decide (c = c')) as [->|Hne].
    + by rewrite Hc' in Ha.
    + by rewrite list_lookup_insert_ne.
Qed.

Lemma settle_controllers p s e : controllers (settle p s e) = controllers e.
Proof. unfold settle. by destruct (promises e !! p) as [[]|]. Qed.

Lemma clearTimeout_controllers h e : controllers (clearTimeout h e) = controllers e.
Proof. by destruct h. Qed.

Lemma clearRequest_controllers k e : controllers (clearRequest k e) = controllers e.
Proof.
  unfold clearRequest. destruct (pendingRequests e !! k); [|done].
  simpl. apply clearTimeout_controllers.
Qed.

Lemma reject_controllers k err e : controllers (reject k err e) = controllers e.
Proof.
  unfold reject. destruct (pendingRequests e !! k); [|done].
  by rewrite settle_controllers, clearRequest_controllers.
Qed.

Lemma setupTimeout_controllers k ms e : controllers (setupTimeout k ms e) = controllers e.
Proof.
  unfold setupTimeout. destruct (pendingRequests e !! k); [|done].
  simpl. apply clearTimeout_controllers.
Qed.

Lemma timer_fired_controllers h e : controllers (timer_fired h e) = controllers e.
Proof.
  unfold timer_fired. destruct (timers e !! h) as [[k ms]|]; [|done].
  simpl. destruct (_ !! k); [|done]. by rewrite reject_controllers.
Qed.

Lemma on_external_abort_keeps l e : keeps_aborted e (on_external_abort l e).
Proof.
  unfold on_external_abort.
  eapply keeps_aborted_trans; [apply (keeps_aborted_abort (forwards_to l) None)|].
  apply keeps_aborted_same. destruct (_ !! clears l); [|done].
  by rewrite settle_controllers, clearRequest_controllers.
Qed.

Lemma signal_aborted_keeps s e : keeps_aborted e (signal_aborted s e).
Proof.
  unfold signal_aborted.
  generalize (List.filter (λ l, bool_decide (on_signal l = s)) (listeners e)).
  intros mine.
  eapply keeps_aborted_trans;
    [apply (keeps_aborted_same e (set_listeners
              (List.filter (λ l, negb (bool_decide (on_signal l = s)))) e)); done|].
  generalize (set_listeners (List.filter (λ l, negb (bool_decide (on_signal l = s)))) e).
  induction mine as [|l mine IH]; intros e'; simpl.
  - apply keeps_aborted_refl.
  - eapply keeps_aborted_trans; [apply on_external_abort_keeps|apply IH].
Qed.

Lemma handleCancellation_keeps c message sid e :
  keeps_aborted e (handleCancellation c message sid e).
Proof.
  unfold handleCancellation. destruct (_ !! _) as [ctl|]; [|apply keeps_aborted_refl].
  eapply keeps_aborted_trans; [apply keeps_aborted_abort|].
  by apply keeps_aborted_same.
Qed.

Lemma handleMessage_keeps c message sid e :
  keeps_aborted e (handleMessage c message sid e).
Proof.
  unfold handleMessage.
  destruct (isJSONRPCResponse message).
  { apply keeps_aborted_same. unfold resolve. destruct (_ !! _); [|done].
    by rewrite settle_controllers, clearRequest_controllers. }
  destruct (isJSONRPCError message).
  { apply keeps_aborted_same. unfold rejectWithError. destruct (truthy_json _); [|done].
    apply reject_controllers. }
  destruct (isJSONRPCRequest message).
  { simpl. eapply keeps_aborted_trans; [apply keeps_aborted_new|].
    by apply keeps_aborted_same. }
  destruct (isJSONRPCNotification message); [|apply keeps_aborted_refl].
  unfold processNotification.
  destruct (isCancelledNotification message); [apply handleCancellation_keeps|].
  destruct (isProgressNotification message); [|apply keeps_aborted_refl].
  apply keeps_aborted_same. unfold handleProgress.
  destruct (_ !! _) as [k|]; [|done]. destruct (_ !! k) as [p|]; [|done].
  destruct (_ && _); [|done]. apply setupTimeout_controllers.
Qed.

Lemma processRequest_catch_controllers fl err e :
  controllers (processRequest_catch fl err e) = controllers e.
Proof. unfold processRequest_catch. by destruct (negb _). Qed.

Lemma processRequest_settled_controllers fl o e :
  controllers (processRequest_settled fl o e).1 = controllers e.
Proof.
  unfold processRequest_settled. destruct (handled fl o).
  - destruct (negb _); [|done]. simpl. by destruct (transport_send _ _ _).
  - apply processRequest_catch_controllers.
Qed.

Lemma send_request_register_controllers p e :
  controllers (send_request_register p e).1 = controllers e.
Proof.
  unfold send_request_register. simpl.
  destruct (transport_send _ _ _); simpl;
    rewrite ?reject_controllers; simpl; rewrite setupTimeout_controllers;
    (destruct (_ && _); [destruct (truthy_json _)|]); done.
Qed.

Lemma step_keeps e ev : keeps_aborted e (step e ev).
Proof.
  destruct ev; simpl.
  - apply handleMessage_keeps.
  - apply keeps_aborted_same, processRequest_settled_controllers.
  - apply keeps_aborted_same, processRequest_catch_controllers.
  - by apply keeps_aborted_same.
  - intros ctl. unfold send_request_prepare.
    destruct (opt_signal options);
      exact (keeps_aborted_new e {| aborted := false; reason := None |} ctl).
  - apply keeps_aborted_same, send_request_register_controllers.
  - by apply keeps_aborted_same.
  - apply signal_aborted_keeps.
  - apply keeps_aborted_same, timer_fired_controllers.
Qed.

Lemma run_keeps evs e : keeps_aborted e (run e evs).
Proof.
  revert e. induction evs as [|ev evs IH]; intros e; simpl.
  - apply keeps_aborted_refl.
  - eapply keeps_aborted_trans; [apply step_keeps|apply IH].
Qed.

(** *** Cancellation of an incoming request *)

Lemma cancelled_is_notification (m : json) :
  isCancelledNotification m = true →
  isJSONRPCResponse m = false ∧ isJSONRPCError m = false ∧ isJSONRPCRequest m = false.
Proof.
  unfold isCancelledNotification.
  destruct (isJSONRPCNotification m) eqn:Hn; [|done]. intros _.
  revert Hn. unfold isJSONRPCNotification, isJSONRPCResponse, isJSONRPCError, isJSONRPCRequest.
  destruct (hasJSONRPCVersion m); [|done]. simpl.
  by destruct (has "id" m).
Qed.

Lemma handleMessage_cancelled c (m : json) sid e :
  isCancelledNotification m = true →
  handleMessage c m sid e = handleCancellation c m sid e.
Proof.
  intros Hc. destruct (cancelled_is_notification m Hc) as (Hr & He & Hq).
  unfold handleMessage, processNotification. rewrite Hr, He, Hq, Hc.
  revert Hc. unfold isCancelledNotification.
  by destruct (isJSONRPCNotification m).
Qed.

Lemma processRequest_begin_controller c (message : json) sid e :
  let started := processRequest_begin c message sid e in
  is_Some (controllers started.1 !! fl_controller started.2) ∧
  fl_key started.2 = mapRequestKey (id c) sid (get "id" message).
Proof.
  simpl. split; [|done]. rewrite lookup_app_r; [|done].
  rewrite Nat.sub_diag. by eexists.
Qed.

(** When the abort handle of a request is tripped, its continuation sends
    nothing and removes the entry. *)
Lemma processRequest_settled_aborted fl o e :
  is_aborted (fl_controller fl) e = true →
  sent (processRequest_settled fl o e).1 = sent e ∧
  (processRequest_settled fl o e).2 = None ∧
  incomingRequests (processRequest_settled fl o e).1 !! fl_key fl = None.
Proof.
  intros Ha. unfold processRequest_settled, processRequest_catch.
  destruct (handled fl o); rewrite Ha; simpl; by rewrite lookup_delete_eq.
Qed.

(** C6: when a [notifications/cancelled] notification that carries the id
    of a request in flight arrives on the same connection and session and
    finds the abort handle of that request in the incoming-request table,
    the handle is tripped; whatever messages, sends, aborts and timers the
    engine handles before and after, when the handler later resolves or
    rejects the engine sends neither a response nor an error envelope for the
    request, and the entry of the request is removed from the
    incoming-request table. *)
Theorem cancelled_request_is_silent (c : Connection) (message cancel : json)
    (sid : option string) e0 (before after : list (Event Handler)) (o : HandlerOutcome) :
  let started := processRequest_begin c message sid e0 in
  let fl := started.2 in
  let e2 := run started.1 before in
  let e3 := step e2 (Incoming c cancel sid) in
  let e4 := run e3 after in
  let settled := processRequest_settled fl o e4 in
  isCancelledNotification cancel = true →
  get_opt "requestId" (get "params" cancel) = get "id" message →
  incomingRequests e2 !! fl_key fl = Some (fl_controller fl) →
  is_aborted (fl_controller fl) e3 = true ∧
  sent settled.1 = sent e4 ∧
  settled.2 = None ∧
  incomingRequests settled.1 !! fl_key fl = None.
Proof.
  intros started fl e2 e3 e4 settled Hcancel Hid Hentry.
  destruct (processRequest_begin_controller c message sid e0) as [Hctl Hkey].
  fold started in Hctl, Hkey. fold fl in Hctl, Hkey.
  assert (is_aborted (fl_controller fl) e3 = true) as Ha3.
  { unfold e3. simpl. rewrite (handleMessage_cancelled _ _ _ _ Hcancel).
    unfold handleCancellation. rewrite Hid, <-Hkey, Hentry.
    change (is_aborted (fl_controller fl)
              (abort (fl_controller fl) (get_opt "reason" (get "params" cancel)) e2) = true).
    apply is_aborted_abort. by apply (run_keeps before started.1). }
  split; [done|].
  apply processRequest_settled_aborted.
  by apply (run_keeps after e3).
Qed.

(** *** Abort of an outgoing request by an external signal *)

Lemma abort_tables c r e :
  pendingRequests (abort c r e) = pendingRequests e ∧
  promises (abort c r e) = promises e ∧
  progressTokenIndex (abort c r e) = progressTokenIndex e.
Proof. unfold abort. by destruct (is_aborted c e). Qed.

Lemma clearTimeout_tables h e :
  pendingRequests (clearTimeout h e) = pendingRequests e ∧
  promises (clearTimeout h e) = promises e ∧
  progressTokenIndex (clearTimeout h e) = progressTokenIndex e.
Proof. by destruct h. Qed.

(** C7 fails on the code in its last part: when the external signal of a
    pending outgoing request aborts, the future is rejected with the
    internal error "Request aborted by external signal" and the
    pending-request entry is removed, but [clearRequest] deletes the progress
    index at the request key, so the entry that maps the progress key to the
    request stays whenever the two keys differ. *)
Theorem external_abort_spares_progress_index (l : AbortListener) e
    (pending : PendingRequest) (progressKey : string) :
  pendingRequests e !! clears l = Some pending →
  promises e !! promise pending = Some Pending →
  progressTokenIndex e !! progressKey = Some (clears l) →
  progressKey ≠ clears l →
  let e' := on_external_abort l e in
  promises e' !! promise pending = Some (Rejected aborted_by_signal) ∧
  pendingRequests e' !! clears l = None ∧
  progressTokenIndex e' !! progressKey = Some (clears l).
Proof.
  intros Hpending Hpromise Hprogress Hne. simpl. unfold on_external_abort.
  destruct (abort_tables (forwards_to l) None e) as (Hp & Hq & Hi).
  rewrite Hp, Hpending. unfold clearRequest. rewrite Hp, Hpending.
  destruct (clearTimeout_tables (p_timeout pending) (abort (forwards_to l) None e))
    as (Hp' & Hq' & Hi').
  unfold settle. simpl. rewrite Hq', Hq, Hpromise. simpl.
  rewrite Hq', Hq, Hp', Hp, Hi', Hi.
  split; [|split].
  - apply list_lookup_insert_eq. by eapply lookup_lt_Some.
  - apply lookup_delete_eq.
  - by rewrite lookup_delete_ne.
Qed.

End engine_facts.

(** *** Concrete runs *)

Section engine_runs.
Import Js Schema SdkTransport Protocol.

Lemma registerHandler_twice_witness :
  ∃ e2, registerHandler "tools/call" "other" an_engine = Returned e2 ∧
        handlers e2 !! "tools/call" = Some "other" ∧
        ∀ m', m' ≠ "tools/call" → handlers e2 !! m' = handlers an_engine !! m'.
Proof.
  apply (registerHandler_twice "tools/call" "callToolHandler" "other" empty_engine).
  reflexivity.
Defined.

(** C8, as stated, fails: the second registration of a method is not an
    error; it returns and the table holds the second handler. *)
Lemma registerHandler_replaces :
  registerHandler "tools/call" "callToolHandler" (@empty_engine string) = Returned an_engine ∧
  ∃ e2, registerHandler "tools/call" "other" an_engine = Returned e2 ∧
        handlers e2 !! "tools/call" = Some "other".
Proof.
  split; [reflexivity|]. eexists. split; [reflexivity|]. apply lookup_insert_eq.
Qed.

Lemma cancelled_request_is_silent_witness :
  let started := processRequest_begin a_connection a_tool_call (Some "s1") an_engine in
  let e3 := step started.1 (Incoming a_connection a_cancellation (Some "s1")) in
  let e4 := run e3 [Incoming a_connection a_notification (Some "s1")] in
  let settled := processRequest_settled started.2 (Resolves (JObj [])) e4 in
  is_aborted (fl_controller started.2) e3 = true ∧
  sent settled.1 = sent e4 ∧
  settled.2 = None ∧
  incomingRequests settled.1 !! fl_key started.2 = None.
Proof.
  apply (cancelled_request_is_silent a_connection a_tool_call a_cancellation (Some "s1")
           an_engine [] [Incoming a_connection a_notification (Some "s1")] (Resolves (JObj []))).
  - reflexivity.
  - reflexivity.
  - simpl. apply lookup_insert_eq.
Defined.

(** Without the cancellation the same request is answered. *)
Example uncancelled_request_is_answered :
  let started := processRequest_begin a_connection a_tool_call (Some "s1") an_engine in
  sent (processRequest_settled started.2 (Resolves (JObj [])) started.1).1
  = [{| sent_on := "connection-1";
        sent_message := result_response (Some (JNum 1)) (JObj []);
        sent_options := {| sessionId := Some "s1"; requestId := Some "1"; timeout := None |} |}].
Proof. reflexivity. Qed.

Lemma external_abort_spares_progress_index_witness :
  let prepared := send_request_prepare a_connection a_tool_call abortable an_engine in
  let registered := send_request_register prepared.2 prepared.1 in
  let e' := signal_aborted 0 registered.1 in
  pr_key prepared.2 = "connection-1:s1:1" ∧
  progressTokenIndex registered.1 !! "connection-1:s1:tok" = Some "connection-1:s1:1" ∧
  promises e' !! registered.2 = Some (Rejected aborted_by_signal) ∧
  pendingRequests e' !! "connection-1:s1:1" = None ∧
  progressTokenIndex e' !! "connection-1:s1:tok" = Some "connection-1:s1:1".
Proof.
  intros prepared registered e'.
  split; [vm_compute; reflexivity|]. split; [vm_compute; reflexivity|].
  assert (e' = on_external_abort the_listener
                 (set_listeners (λ _, []) registered.1)) as ->
    by (vm_compute; reflexivity).
  pose proof (external_abort_spares_progress_index the_listener
                (set_listeners (λ _, []) registered.1)
                {| promise := 0; onProgress := true; resetTimeoutOnProgress := false;
                   timeoutMs := DEFAULT_REQUEST_TIMEOUT_MS; p_requestId := Some (JNum 1);
                   connection := "connection-1"; abortController := 0;
                   p_timeout := Some 0%nat |}
                "connection-1:s1:tok") as H.
  apply H.
  - vm_compute. reflexivity.
  - vm_compute. reflexivity.
  - vm_compute. reflexivity.
  - discriminate.
Defined.

End engine_runs.

(** ** JSON response mode and the response deadline *)

Section json_response.
Import Js Schema SdkTransport Topics Transport.


Lemma advance_other ev i s :
  (∀ data, ev ≠ Message i data) → ev ≠ Closed i → advance ev i s = s.
Proof.
  intros Hm Hc. destruct s; [|done..]. destruct ev as [j data|j|j e]; simpl; [| |done].
  - destruct (decide (j = i)) as [->|Hne]; [by destruct (Hm data)|].
    by rewrite (bool_decide_eq_false_2 _ Hne).
  - destruct (decide (j = i)) as [->|Hne]; [done|].
    by rewrite (bool_decide_eq_false_2 _ Hne).
Qed.

(** *** The [Map] of pending ids *)


Lemma map_set_fresh {V} (k : string) (v : V) (m : list (string * V)) :
  k ∉ m.*1 → map_set k v m = m ++ [(k, v)].
Proof.
  induction m as [|[k0 v0] m IH]; [done|]. simpl.
  intros [Hne Hm]%not_elem_of_cons.
  rewrite decide_False by done. by rewrite IH.
Qed.

Lemma foldl_map_set_fresh {A V} (key : A → string) (val : A → V) (l : list A)
    (acc : list (string * V)) :
  NoDup (acc.*1 ++ (key <$> l)) →
  foldl (λ m x, map_set (key x) (val x) m) acc l = acc ++ ((λ x, (key x, val x)) <$> l).
Proof.
  revert acc. induction l as [|x l IH]; intros acc Hnd; simpl.
  - by rewrite app_nil_r.
  - assert (key x ∉ acc.*1) as Hx.
    { apply NoDup_app in Hnd as (_ & Hdisj & _). intros Hin.
      apply (Hdisj _ Hin). by left. }
    rewrite (map_set_fresh _ _ _ Hx), IH.
    + by rewrite <-app_assoc.
    + rewrite fmap_app. simpl. by rewrite <-app_assoc.
Qed.

(** *** The response promises follow the subscriptions *)

Lemma running_spec subs w i :
  running subs w i = true ↔ is_Some (subs !! i) ∧ i ∉ resolved w.
Proof.
  unfold running.
  by rewrite andb_true_iff, negb_true_iff, bool_decide_eq_true, bool_decide_eq_false.
Qed.

Lemma running_waiting subs st w i :
  tracks subs st w → is_Some (subs !! i) →
  running subs w i = true ↔ st i = waiting.
Proof.
  intros Htr Hi. rewrite running_spec. specialize (Htr i Hi). split.
  - intros [_ Hn]. destruct (st i) eqn:Hs; [done|..]; exfalso; apply Hn, Htr; done.
  - intros Hs. split; [done|]. rewrite Htr. by intros Hne.
Qed.



(** *** The response after the deadline *)




Lemma initial_pending_distinct requests :
  NoDup (correlation_keys requests) →
  initial_pending requests
  = (λ request, (String_opt (request_id request), request_id request)) <$> requests.
Proof.
  intros Hnd. unfold initial_pending.
  by rewrite (foldl_map_set_fresh (λ r, String_opt (request_id r)) request_id requests []).
Qed.


(** *** Concrete batches *)



End json_response.

(** * Further properties of the code *)

(** ** Topic scheme, without any condition on the ids *)

Section topic_scheme_unconditional.
Import Topics.

Lemma wildcard_bound_differ (x y d : string) :
  d = ".inbound" ∨ d = ".outbound" → x +:+ ".>" ≠ y +:+ d.
Proof.
  intros [-> | ->] Heq.
  - change (y +:+ ".inbound") with (y +:+ ".inbou" +:+ "nd") in Heq.
    rewrite <-append_assoc in Heq.
    by destruct (append_eq_same_length x (y +:+ ".inbou") ".>" "nd" eq_refl Heq) as [_ ?].
  - change (y +:+ ".outbound") with (y +:+ ".outbou" +:+ "nd") in Heq.
    rewrite <-append_assoc in Heq.
    by destruct (append_eq_same_length x (y +:+ ".outbou") ".>" "nd" eq_refl Heq) as [_ ?].
Qed.

(** X1: the session-scoped constructors [BackgroundOutbound],
    [BackgroundInbound] and [SessionWildcard] are injective in the session id,
    for all session ids, also those that contain separators. *)
Theorem session_scoped_injective (s s' : string) :
  (subject BackgroundOutbound {| bg_sessionId := s |}
   = subject BackgroundOutbound {| bg_sessionId := s' |} → s = s') ∧
  (subject BackgroundInbound {| bg_sessionId := s |}
   = subject BackgroundInbound {| bg_sessionId := s' |} → s = s') ∧
  (subject SessionWildcard {| bg_sessionId := s |}
   = subject SessionWildcard {| bg_sessionId := s' |} → s = s').
Proof.
  split; [|split]; simpl; intros Heq; apply String.app_inj in Heq;
    by apply append_inj_r in Heq.
Qed.

(** X2: whatever the session and request ids, a subject of an inbound topic
    is never a subject of an outbound topic, and the wildcard subject of a
    session is never one of the subjects messages are published on. *)
Theorem directions_never_collide (a b : Address) (s : string) :
  (is_inbound a = true → is_inbound b = false → subject_of a ≠ subject_of b) ∧
  subject SessionWildcard {| bg_sessionId := s |} ≠ subject_of a.
Proof.
  assert (∀ c, ∃ y, subject_of c
                    = y +:+ (if is_inbound c then ".inbound" else ".outbound")) as Hshape.
  { intros [sa ra|sa ra|sa|sa]; simpl.
    - exists ("mcp." +:+ sa +:+ "." +:+ ra). by rewrite !append_assoc.
    - exists ("mcp." +:+ sa +:+ "." +:+ ra). by rewrite !append_assoc.
    - exists ("mcp." +:+ sa +:+ ".bg"). by rewrite !append_assoc.
    - exists ("mcp." +:+ sa +:+ ".bg"). by rewrite !append_assoc. }
  split.
  - intros Ha Hb Heq.
    destruct (Hshape a) as [x Hx], (Hshape b) as [y Hy].
    rewrite Ha in Hx. rewrite Hb in Hy. rewrite Hx, Hy in Heq.
    by apply inbound_outbound_differ in Heq.
  - intros Heq. simpl in Heq. destruct (Hshape a) as [y Hy]. rewrite Hy in Heq.
    change ("mcp." +:+ s +:+ ".>") with ("mcp." +:+ (s +:+ ".>")) in Heq.
    rewrite <-append_assoc in Heq.
    apply wildcard_bound_differ in Heq; [done|]. destruct (is_inbound a); auto.
Qed.

(** X3: within one session two requests share a subject only when their ids
    are equal, and one request id names different subjects in different
    sessions; no condition on the ids is needed. *)
Theorem request_scoped_injective_each (s s' r r' d : string) :
  (subject (createRequestScopedTopic d) {| rq_sessionId := s; rq_requestId := r |}
   = subject (createRequestScopedTopic d) {| rq_sessionId := s; rq_requestId := r' |}
   → r = r') ∧
  (subject (createRequestScopedTopic d) {| rq_sessionId := s; rq_requestId := r |}
   = subject (createRequestScopedTopic d) {| rq_sessionId := s'; rq_requestId := r |}
   → s = s').
Proof.
  split; simpl; intros Heq; apply String.app_inj in Heq.
  - apply String.app_inj in Heq. apply String.app_inj in Heq.
    by apply append_inj_r in Heq.
  - by apply append_inj_r in Heq.
Qed.

End topic_scheme_unconditional.

(** ** Type guards *)

Section type_guards.

Lemma hasJSONRPCVersion_object v :
  hasJSONRPCVersion v = true → isObject (Some v) = true ∧ get "jsonrpc" v = Some (JStr "2.0").
Proof.
  unfold hasJSONRPCVersion. intros [[Ho _]%andb_prop Hv]%andb_prop. split; [done|].
  unfold is_string in Hv. destruct (get "jsonrpc" v) as [[| | |s| |]|]; try done.
  by apply bool_decide_eq_true in Hv as ->.
Qed.

(** X4: the guards keep the kinds apart where the code relies on it: a
    notification is neither a request, a response nor an error, a response is
    never an error, and whatever passes one of the four guards is an object
    whose [jsonrpc] field is the string "2.0". *)
Theorem guards_keep_kinds_apart (v : json) :
  (isJSONRPCNotification v = true →
   isJSONRPCRequest v = false ∧ isJSONRPCResponse v = false ∧ isJSONRPCError v = false) ∧
  (isJSONRPCResponse v = true → isJSONRPCError v = false) ∧
  (isJSONRPCRequest v || isJSONRPCNotification v || isJSONRPCResponse v || isJSONRPCError v
   = true → isObject (Some v) = true ∧ get "jsonrpc" v = Some (JStr "2.0")).
Proof.
  split; [|split].
  - unfold isJSONRPCNotification, isJSONRPCRequest, isJSONRPCResponse, isJSONRPCError.
    destruct (hasJSONRPCVersion v); [|done]. simpl.
    by destruct (has "id" v).
  - unfold isJSONRPCResponse, isJSONRPCError.
    destruct (hasJSONRPCVersion v); [|done]. simpl.
    destruct (has "id" v); [|done]. simpl.
    destruct (has "result" v); [|done]. simpl.
    by destruct (has "error" v).
  - intros H. apply hasJSONRPCVersion_object. revert H.
    unfold isJSONRPCNotification, isJSONRPCRequest, isJSONRPCResponse, isJSONRPCError.
    by destruct (hasJSONRPCVersion v).
Qed.

End type_guards.

(** ** The router and the GET and DELETE handlers *)

Section router.
Import Js Schema SdkTransport Topics Transport.

(** A request on the MCP endpoint reaches the handler of its method. *)
Lemma onRequest_endpoint t env req events :
  pathname req = endpoint t → pathname req ≠ "/health" → pathname req ≠ "/readiness" →
  handleRequest t env req events
  = if bool_decide (method req = "POST") then handlePost t env req events
    else if bool_decide (method req = "GET") then handleGet t req
    else if bool_decide (method req = "DELETE") then handleDelete t req
    else if bool_decide (method req = "OPTIONS") then ret (Finished no_content_204)
    else ret (Finished (method_not_allowed "GET, POST, DELETE, OPTIONS")).
Proof.
  intros Hpath Hhealth Hready. unfold handleRequest.
  by rewrite (bool_decide_eq_false_2 _ Hhealth), (bool_decide_eq_false_2 _ Hready),
    (bool_decide_eq_true_2 _ Hpath).
Qed.

(** X5: the health endpoints answer before the MCP endpoint is looked at,
    whatever the method and the configuration: [/health] is always 200 with
    [{"status":"healthy"}], and [/readiness] is 200 when the listener is up
    and 503 when it is not. *)
Theorem health_endpoints (t : Transport) (env : Env) (req : IncomingMessage)
    (events : list SubscriptionEvent) :
  (pathname req = "/health" → onRequest t env req events = ([], Finished healthy_200)) ∧
  (pathname req = "/readiness" →
   ∃ res, onRequest t env req events = ([], Finished res) ∧
          statusCode res = (if listening env then 200 else 503) ∧
          payload res = Stringified
            (JObj [("status", JStr (if listening env then "ready" else "not ready"));
                   ("listening", JBool (listening env))])).
Proof.
  split; intros Hpath; unfold onRequest, handleRequest; rewrite Hpath; simpl; [done|].
  by eexists.
Qed.

(** X6: on a path that is neither a health endpoint nor the MCP endpoint
    every request is answered 404; on the MCP endpoint OPTIONS is answered
    204 with an empty body, and a method other than POST, GET, DELETE and
    OPTIONS (the names are matched as they are, in upper case) is answered
    405 with the header [Allow: GET, POST, DELETE, OPTIONS]. *)
Theorem router_fallbacks (t : Transport) (env : Env) (req : IncomingMessage)
    (events : list SubscriptionEvent) :
  pathname req ≠ "/health" → pathname req ≠ "/readiness" →
  (pathname req ≠ endpoint t → onRequest t env req events = ([], Finished not_found)) ∧
  (pathname req = endpoint t → method req = "OPTIONS" →
   onRequest t env req events = ([], Finished no_content_204)) ∧
  (pathname req = endpoint t →
   method req ∉ ["POST"; "GET"; "DELETE"; "OPTIONS"] →
   onRequest t env req events
   = ([], Finished (method_not_allowed "GET, POST, DELETE, OPTIONS"))).
Proof.
  intros Hhealth Hready. split; [|split].
  - intros Hpath. unfold onRequest, handleRequest.
    by rewrite (bool_decide_eq_false_2 _ Hhealth), (bool_decide_eq_false_2 _ Hready),
      (bool_decide_eq_false_2 _ Hpath).
  - intros Hpath Hm. unfold onRequest.
    rewrite (onRequest_endpoint _ _ _ _ Hpath Hhealth Hready), Hm. done.
  - intros Hpath Hm. unfold onRequest.
    rewrite (onRequest_endpoint _ _ _ _ Hpath Hhealth Hready).
    rewrite !not_elem_of_cons in Hm. destruct Hm as (H1 & H2 & H3 & H4 & _).
    by rewrite !bool_decide_eq_false_2 by done.
Qed.

Lemma router_fallbacks_witness :
  onRequest default_transport an_env
    {| method := "PATCH"; pathname := "/"; accept := None; mcp_session_id := None;
       query_sessionId := None; last_event_id := None; body := InvalidJson |} []
  = ([], Finished (method_not_allowed "GET, POST, DELETE, OPTIONS")).
Proof.
  eapply router_fallbacks; [discriminate|discriminate|reflexivity|].
  rewrite !not_elem_of_cons. repeat split; try discriminate. apply not_elem_of_nil.
Defined.

(** X7: a GET on an enabled background channel whose Accept header admits
    an event stream is answered 400 when the [Mcp-Session-Id] header is
    missing or empty and 404 when a configured store does not know the session;
    otherwise the stream is opened on [background-outbound] and
    [background-inbound] of the session, both from the [Last-Event-ID] of the
    request.  When the Accept header admits no event stream the answer is 406,
    whatever the session. *)
Theorem handleGet_outcomes (t : Transport) (req : IncomingMessage) :
  enableBackgroundChannel t = true →
  (accepts_stream req = false →
   ∃ res, handleGet t req = ([], Returned (Finished res)) ∧ statusCode res = 406) ∧
  (accepts_stream req = true →
   (mcp_session_id req = None ∨ mcp_session_id req = Some "" →
    handleGet t req = ([], Returned (Finished missing_session_400))) ∧
   (∀ s, mcp_session_id req = Some s → s ≠ "" →
    (∀ store, sessions (options t) = Some store → get_session store s = None →
     handleGet t req = ([], Returned (Finished session_not_found_404))) ∧
    ((∀ store, sessions (options t) = Some store → is_Some (get_session store s)) →
     handleGet t req
     = ([Subscribed (subject_of (background_outbound s)) (last_event_id req);
         Subscribed (subject_of (background_inbound s)) (last_event_id req)],
        Returned (BackgroundStream s (last_event_id req)))))).
Proof.
  intros Hen. unfold handleGet, accepts_stream. rewrite Hen. simpl. split.
  - intros Hacc. apply orb_false_elim in Hacc as [-> ->]. simpl. by eexists.
  - intros Hacc.
    assert (negb (includes (nullish (accept req) "") "text/event-stream")
            && negb (includes (nullish (accept req) "") "*/*") = false) as ->.
    { by destruct (includes _ "text/event-stream"), (includes _ "*/*"). }
    unfold getExistingSession. split.
    + intros Hs%truthy_false. by rewrite Hs.
    + intros s Hs Hne. rewrite Hs. rewrite (proj2 (truthy_Some s) Hne). simpl. split.
      * intros store -> ->. done.
      * intros Hknown. destruct (sessions (options t)) as [store|]; [|done].
        destruct (Hknown store eq_refl) as [session ->]. done.
Qed.

Lemma handleGet_outcomes_witness :
  handleGet (a_stateful_transport "s1") (a_get "/mcp" (Some "s1") (Some "41"))
  = ([Subscribed "mcp.s1.bg.outbound" (Some "41"); Subscribed "mcp.s1.bg.inbound" (Some "41")],
     Returned (BackgroundStream "s1" (Some "41"))) ∧
  handleGet (a_stateful_transport "s1") (a_get "/mcp" (Some "s2") None)
  = ([], Returned (Finished session_not_found_404)).
Proof.
  split.
  - pose proof (handleGet_outcomes (a_stateful_transport "s1")
                  (a_get "/mcp" (Some "s1") (Some "41")) eq_refl) as [_ H].
    destruct (H eq_refl) as [_ H'].
    destruct (H' "s1" eq_refl) as [_ H'']; [discriminate|].
    apply H''. intros store [= <-]. by eexists.
  - pose proof (handleGet_outcomes (a_stateful_transport "s1")
                  (a_get "/mcp" (Some "s2") None) eq_refl) as [_ H].
    destruct (H eq_refl) as [_ H'].
    destruct (H' "s2" eq_refl) as [H'' _]; [discriminate|].
    by apply (H'' (a_store "s1")).
Defined.

(** X8: DELETE is idempotent.  On a transport with session termination
    enabled, a DELETE that names a session is answered 204 with an empty body
    whether or not the store knows the session, the store being asked to
    delete it when there is one; a DELETE without a session id is answered
    400. *)
Theorem handleDelete_idempotent (t : Transport) (req : IncomingMessage) :
  enableSessionTermination t = true →
  (mcp_session_id req = None ∨ mcp_session_id req = Some "" →
   handleDelete t req = ([], Returned (Finished missing_session_400))) ∧
  (∀ s, mcp_session_id req = Some s → s ≠ "" →
   handleDelete t req
   = (match sessions (options t) with Some _ => [SessionDeleted s] | None => [] end,
      Returned (Finished no_content_204))).
Proof.
  intros Hen. unfold handleDelete. rewrite Hen. simpl. split.
  - intros Hs%truthy_false. by rewrite Hs.
  - intros s Hs Hne. rewrite Hs, (proj2 (truthy_Some s) Hne). simpl.
    by destruct (sessions (options t)).
Qed.

Lemma handleDelete_idempotent_witness :
  handleDelete (a_stateful_transport "s1") (a_delete "/mcp" (Some "gone"))
  = ([SessionDeleted "gone"], Returned (Finished no_content_204)).
Proof.
  pose proof (handleDelete_idempotent (a_stateful_transport "s1")
                (a_delete "/mcp" (Some "gone")) eq_refl) as [_ H].
  apply (H "gone" eq_refl). discriminate.
Defined.

(** X9: the flags of the constructor are taken as given, [false] included:
    a transport built with [enableBackgroundChannel: false] answers every GET
    on its endpoint 405 with [Allow: POST, DELETE, OPTIONS], and one built
    with [enableSessionTermination: false] answers every DELETE 405 with
    [Allow: GET, POST, OPTIONS], before the Accept header or the session is
    looked at. *)
Theorem disabled_channels_are_405 (o : Options) (t : Transport) (env : Env)
    (req : IncomingMessage) (events : list SubscriptionEvent) :
  constructor o = Returned t →
  pathname req = endpoint t → pathname req ≠ "/health" → pathname req ≠ "/readiness" →
  (streamableHttp_enableBackgroundChannel o = Some false → method req = "GET" →
   onRequest t env req events = ([], Finished (method_not_allowed "POST, DELETE, OPTIONS"))) ∧
  (streamableHttp_enableSessionTermination o = Some false → method req = "DELETE" →
   onRequest t env req events = ([], Finished (method_not_allowed "GET, POST, OPTIONS"))).
Proof.
  intros Ht Hpath Hhealth Hready. unfold onRequest.
  rewrite (onRequest_endpoint _ _ _ _ Hpath Hhealth Hready).
  unfold constructor in Ht. destruct (eventBroker o); [|done]. injection Ht as <-.
  split; intros Hflag Hm; rewrite Hm; simpl.
  - unfold handleGet. simpl. by rewrite Hflag.
  - unfold handleDelete. simpl. by rewrite Hflag.
Qed.

(** X10: session resolution of a POST fails, with 404, exactly when a store
    is configured, the request supplies a non-empty session id (the header, or
    the query parameter when there is no header) and the store does not know
    it.  Without a store it never fails: the session is a fresh UUID, whatever
    the request supplied. *)
Theorem getOrCreateSession_failure (t : Transport) (env : Env) (req : IncomingMessage) :
  (∀ res, getOrCreateSession t env req = session_failure res ↔
          res = session_not_found_404 ∧
          ∃ store s, sessions (options t) = Some store ∧ supplied_session req = Some s ∧
                     s ≠ "" ∧ get_session store s = None) ∧
  (sessions (options t) = None →
   getOrCreateSession t env req = session_success (randomUUID env) None true).
Proof.
  unfold getOrCreateSession. fold (supplied_session req). split.
  - intros res. destruct (sessions (options t)) as [store|].
    + destruct (truthy (supplied_session req)) eqn:Htr.
      * destruct (supplied_session req) as [s|] eqn:Hs; [|done].
        apply truthy_Some in Htr as Hne. simpl.
        destruct (get_session store s) eqn:Hget.
        -- split; [done|]. intros (_ & store' & s' & [= <-] & [= <-] & _ & Hnone). congruence.
        -- split.
           ++ intros [= <-]. split; [done|]. by exists store, s.
           ++ by intros [-> _].
      * split; [done|]. intros (_ & store' & s' & _ & Hs & Hne & _).
        rewrite Hs in Htr. apply truthy_false in Htr as [?|[= ?]]; done.
    + split; [done|]. by intros (_ & store' & s' & ? & _).
  - by intros ->.
Qed.

End router.

(** ** POST: rejections and failures *)

Section post_failures.
Import Js Schema SdkTransport Topics Transport.

Lemma onRequest_post t env req events :
  method req = "POST" → pathname req = endpoint t →
  pathname req ≠ "/health" → pathname req ≠ "/readiness" →
  onRequest t env req events
  = match handlePost t env req events with
    | (es, Returned h) => (es, h)
    | (es, Thrown _) => (es, Finished (handleError (headers_set es)))
    | (es, Unsettled) => (es, Unanswered)
    end.
Proof.
  intros Hm Hpath Hhealth Hready. unfold onRequest.
  by rewrite (onRequest_endpoint _ _ _ _ Hpath Hhealth Hready), (bool_decide_eq_true_2 _ Hm).
Qed.

Lemma deliver_throws (h : TransportMessageHandler) (pre post : list json) (m : json)
    (ctx : string) (e : Error) :
  Forall (λ m, h m ctx = Returned ()) pre → h m ctx = Thrown e →
  deliver h (pre ++ m :: post) ctx = ((λ m, Delivered m ctx) <$> (pre ++ [m]), Thrown e).
Proof.
  intros Hpre Hm. induction Hpre as [|m0 pre Hm0 _ IH]; simpl.
  - by rewrite Hm.
  - by rewrite Hm0, IH.
Qed.

Lemma headers_set_deliveries (msgs : list json) (ctx : string) :
  headers_set ((λ m, Delivered m ctx) <$> msgs) = [].
Proof. induction msgs as [|m msgs IH]; [done|]. apply IH. Qed.

(** X11: what a POST is refused for, before anything reaches the engine or
    the broker.  An Accept header that admits neither JSON nor an event stream
    gives 406.  When the Accept header passes and the session resolves, a body
    that is not JSON gives 400 with the parse-error envelope (-32700, id null),
    and a body whose stream fails gives 500 with the internal-error
    envelope. *)
Theorem post_rejections (t : Transport) (env : Env) (req : IncomingMessage)
    (events : list SubscriptionEvent) :
  (accepts_post req = false →
   handlePost t env req events = ([], Returned (Finished not_acceptable_406))) ∧
  (accepts_post req = true →
   ∀ sid session isNew, getOrCreateSession t env req = session_success sid session isNew →
     (body req = InvalidJson →
      handlePost t env req events = ([], Returned (Finished parse_error_400))) ∧
     (∀ e, body req = StreamError e →
      handlePost t env req events = ([], Returned (Finished internal_error_500)))).
Proof.
  split.
  - unfold accepts_post, handlePost. simpl. intros Hacc.
    apply orb_false_elim in Hacc as [Hacc ->].
    apply orb_false_elim in Hacc as [-> ->]. done.
  - intros Hacc sid session isNew Hsession. unfold handlePost.
    rewrite (accepts_post_spec _ Hacc), Hsession. unfold parseRequestBody.
    split; [intros ->|intros e ->]; done.
Qed.

(** X12: when the engine callback throws on a message of a POST that holds
    no request, the response is 500 with the internal-error envelope; the
    messages before the failing one have been delivered, those after it are
    not, and nothing is published on the background channel. *)
Theorem engine_failure_is_500 (t : Transport) (env : Env) (req : IncomingMessage)
    (events : list SubscriptionEvent) (pb : ParsedBody) (sid : string)
    (session : option TransportSession) (isNew : bool) (h : TransportMessageHandler)
    (pre post : list json) (m : json) (e : Error) :
  let ctx := match session with Some s => session_id s | None => sid end in
  method req = "POST" → pathname req = endpoint t →
  pathname req ≠ "/health" → pathname req ≠ "/readiness" →
  accepts_post req = true →
  getOrCreateSession t env req = session_success sid session isNew →
  parseRequestBody req = inr pb →
  List.filter isJSONRPCRequest (messages pb) = [] →
  messageHandler t = Some h →
  messages pb = pre ++ m :: post →
  Forall (λ m, h m ctx = Returned ()) pre → h m ctx = Thrown e →
  onRequest t env req events
  = ((λ m, Delivered m ctx) <$> (pre ++ [m]), Finished internal_error_500).
Proof.
  intros ctx Hm Hpath Hhealth Hready Hacc Hsession Hparse Hfilter Hh Hmsgs Hpre He.
  rewrite (onRequest_post _ _ _ _ Hm Hpath Hhealth Hready). unfold handlePost.
  rewrite (accepts_post_spec _ Hacc), Hsession, Hparse, Hfilter.
  change (negb (bool_decide (0 < length (@nil json))%nat)) with true. cbv iota.
  unfold deliverToProtocol. rewrite Hh. fold ctx.
  rewrite Hmsgs, (deliver_throws h pre post m ctx e Hpre He), bind_thrown.
  by rewrite headers_set_deliveries.
Qed.

Lemma engine_failure_is_500_witness :
  onRequest a_failing_transport an_env
    (a_post "/" (ParsedJson (JArr [JStr "x"; JNum 42; JStr "y"]))) []
  = ([Delivered (JStr "x") "6f1f0d3e-5d0c-4a1e-9f0a-2b7c8d9e0f11";
      Delivered (JNum 42) "6f1f0d3e-5d0c-4a1e-9f0a-2b7c8d9e0f11"],
     Finished internal_error_500).
Proof.
  apply (engine_failure_is_500 a_failing_transport an_env
           (a_post "/" (ParsedJson (JArr [JStr "x"; JNum 42; JStr "y"]))) []
           {| messages := [JStr "x"; JNum 42; JStr "y"]; isBatch := true |}
           "6f1f0d3e-5d0c-4a1e-9f0a-2b7c8d9e0f11" None true a_failing_handler
           [JStr "x"] [JStr "y"] (JNum 42) {| err_code := None; err_message := "boom" |});
    try reflexivity; try discriminate.
  by repeat constructor.
Defined.

End post_failures.

(** ** The JSON response mode *)

Section json_mode.
Import Js Schema SdkTransport Topics Transport.

(** The subscriptions are read to an end: each event is handled at once. *)
Lemma on_events_settles subs w evs : on_events subs w evs ≠ Unsettled.
Proof.
  revert w. induction evs as [|ev evs IH]; intros w; simpl; [done|].
  destruct (on_event subs w ev) as [w'|e|] eqn:Hev; [apply IH|done|].
  destruct ev as [i d|i|i e]; simpl in Hev.
  - destruct (subs !! i); [|done]. by destruct (_ && _).
  - by destruct (running subs w i).
  - by destruct (running subs w i).
Qed.

Lemma handleJsonResponse_delivered t sid msgs isBatch session head events ds :
  deliverToProtocol t msgs sid session = (ds, Returned ()) →
  handleJsonResponse t sid msgs isBatch session head events
  = (subscribed sid (List.filter isJSONRPCRequest msgs) ++ ds,
     Returned (Finished
       match on_events (correlation_keys (List.filter isJSONRPCRequest msgs))
               {| responses := []; resolved := [];
                  pendingRequestIds := initial_pending (List.filter isJSONRPCRequest msgs) |}
               events with
       | Returned w =>
           let responses :=
             if all_resolved (correlation_keys (List.filter isJSONRPCRequest msgs)) w
             then responses w
             else responses w ++ (timeout_error <$> (pendingRequestIds w).*2) in
           json_200 head
             (if isBatch then JArr responses
              else nullish (responses !! 0%nat)
                     (error_envelope JNull INTERNAL_ERROR "No response"))
       | _ => handleError head
       end)).
Proof.
  intros Hdeliver. unfold handleJsonResponse.
  change (foldl _ [] (List.filter isJSONRPCRequest msgs))
    with (initial_pending (List.filter isJSONRPCRequest msgs)).
  change ((λ request, String_opt (request_id request)) <$>
          List.filter isJSONRPCRequest msgs)
    with (correlation_keys (List.filter isJSONRPCRequest msgs)).
  rewrite Hdeliver. unfold emit. rewrite !bind_returned.
  destruct (on_events _ _ events) as [w|e|] eqn:Hev; simpl; rewrite ?app_nil_r; try done.
  by destruct (on_events_settles _ _ _ Hev).
Qed.

Lemma on_events_app subs w evs1 evs2 :
  on_events subs w (evs1 ++ evs2)
  = match on_events subs w evs1 with
    | Returned w' => on_events subs w' evs2
    | Thrown e => Thrown e
    | Unsettled => Unsettled
    end.
Proof.
  revert w. induction evs1 as [|ev evs1 IH]; intros w; simpl; [done|].
  destruct (on_event subs w ev); [apply IH|done..].
Qed.

Lemma on_events_settled subs w evs :
  (∀ i, is_Some (subs !! i) → i ∈ resolved w) → on_events subs w evs = Returned w.
Proof.
  intros Hall.
  assert (∀ i, running subs w i = false) as Hrun.
  { intros i. destruct (running subs w i) eqn:Hr; [|done].
    apply running_spec in Hr as [Hi Hn]. by destruct (Hn (Hall i Hi)). }
  induction evs as [|ev evs IH]; [done|]. simpl.
  assert (on_event subs w ev = Returned w) as ->; [|done].
  destruct ev as [i d|i|i e]; simpl; rewrite ?Hrun; [|done..].
  simpl. by destruct (subs !! i).
Qed.

Lemma on_events_leaves_waiting k w evs :
  Forall (λ ev, leaves_waiting ev = true) evs → on_events [k] w evs = Returned w.
Proof.
  induction 1 as [|ev evs Hev _ IH]; [done|]. simpl.
  assert (on_event [k] w ev = Returned w) as ->; [|done].
  destruct ev as [[|i] d|[|i]|[|i] e]; simpl in Hev |- *; try done.
  apply negb_true_iff in Hev. by rewrite Hev, andb_false_r.
Qed.

(** X13: a POST with one request in JSON mode is answered with the first
    response or error that arrives on the subscription of the request, as it
    is: messages that are neither (progress notifications) are skipped, what
    arrives after it is ignored, and the [id] of the response is not compared
    with the one of the request. *)
Theorem json_single_round_trip (t : Transport) (sid : string) (request : json)
    (session : option TransportSession) (head : list (string * string))
    (pre post : list SubscriptionEvent) (data : json) (ds : list Effect) :
  isJSONRPCRequest request = true →
  deliverToProtocol t [request] sid session = (ds, Returned ()) →
  Forall (λ ev, leaves_waiting ev = true) pre →
  isJSONRPCResponse data || isJSONRPCError data = true →
  handleJsonResponse t sid [request] false session head (pre ++ Message 0 data :: post)
  = (subscribed sid [request] ++ ds, Returned (Finished (json_200 head data))).
Proof.
  intros Hreq Hdeliver Hpre Hdata.
  rewrite (handleJsonResponse_delivered _ _ _ _ _ _ _ _ Hdeliver).
  simpl. rewrite Hreq. unfold correlation_keys. simpl.
  rewrite on_events_app, (on_events_leaves_waiting _ _ _ Hpre). simpl.
  rewrite Hdata. simpl. rewrite on_events_settled.
  - vm_compute all_resolved. done.
  - intros [|i] Hi; simpl; [by left|]. by destruct Hi.
Qed.

Lemma json_single_round_trip_witness :
  handleJsonResponse default_transport "s1" [a_ping] false None []
    [Message 0 (JObj [("jsonrpc", JStr "2.0"); ("method", JStr "notifications/progress")]);
     Message 0 (a_result (JNum 7)); Message 0 (a_result (JNum 1))]
  = ([Subscribed "mcp.s1.1.outbound" None],
     Returned (Finished (json_200 [] (a_result (JNum 7))))).
Proof.
  apply (json_single_round_trip default_transport "s1" a_ping None []
           [Message 0 (JObj [("jsonrpc", JStr "2.0"); ("method", JStr "notifications/progress")])]
           [Message 0 (a_result (JNum 1))] (a_result (JNum 7)) []);
    try reflexivity.
  by repeat constructor.
Defined.

(** X14: when the subscription of a one-request POST in JSON mode ends
    before a response has arrived, the POST is answered at once, with status
    200 and the error [No response] (-32603) whose [id] is null, not the id
    of the request, and no timeout error is produced. *)
Theorem json_closed_without_response (t : Transport) (sid : string) (request : json)
    (session : option TransportSession) (head : list (string * string))
    (pre post : list SubscriptionEvent) (ds : list Effect) :
  isJSONRPCRequest request = true →
  deliverToProtocol t [request] sid session = (ds, Returned ()) →
  Forall (λ ev, leaves_waiting ev = true) pre →
  handleJsonResponse t sid [request] false session head (pre ++ Closed 0 :: post)
  = (subscribed sid [request] ++ ds,
     Returned (Finished (json_200 head (error_envelope JNull (-32603) "No response")))).
Proof.
  intros Hreq Hdeliver Hpre.
  rewrite (handleJsonResponse_delivered _ _ _ _ _ _ _ _ Hdeliver).
  simpl. rewrite Hreq. unfold correlation_keys. simpl.
  rewrite on_events_app, (on_events_leaves_waiting _ _ _ Hpre). simpl.
  rewrite on_events_settled.
  - vm_compute all_resolved. done.
  - intros [|i] Hi; simpl; [by left|]. by destruct Hi.
Qed.

Lemma json_closed_without_response_witness :
  handleJsonResponse default_transport "s1" [a_ping] false None [] [Closed 0]
  = ([Subscribed "mcp.s1.1.outbound" None],
     Returned (Finished (json_200 [] (error_envelope JNull (-32603) "No response")))).
Proof.
  apply (json_closed_without_response default_transport "s1" a_ping None [] [] [] []);
    try reflexivity.
  constructor.
Defined.

(** *** Batches *)

Lemma map_delete_absent {V} (k : string) (m : list (string * V)) :
  k ∉ m.*1 → map_delete k m = m.
Proof.
  induction m as [|[k0 v0] m IH]; [done|]. simpl.
  intros [Hne Hm]%not_elem_of_cons. rewrite decide_False by done. by rewrite IH.
Qed.

Lemma map_delete_keys {V} (k k' : string) (m : list (string * V)) :
  k' ∈ (map_delete k m).*1 ↔ k' ≠ k ∧ k' ∈ m.*1.
Proof.
  induction m as [|[k0 v0] m IH]; simpl.
  - split; [by intros ?%elem_of_nil|by intros [_ ?%elem_of_nil]].
  - destruct (decide (k0 = k)) as [->|Hne]; simpl; rewrite ?elem_of_cons, IH.
    + split; [intros [? ?]; split; [done|by right]|].
      intros [? [->|?]]; done.
    + split; [intros [->|[? ?]]; split; auto|].
      intros [? [->|?]]; auto.
Qed.

Lemma map_delete_NoDup {V} (k : string) (m : list (string * V)) :
  NoDup m.*1 → NoDup (map_delete k m).*1.
Proof.
  induction m as [|[k0 v0] m IH]; [done|]. simpl.
  intros [Hk0 Hm]%NoDup_cons. destruct (decide (k0 = k)); [by apply IH|].
  simpl. apply NoDup_cons. split; [|by apply IH].
  rewrite map_delete_keys. by intros [_ ?].
Qed.

Lemma map_delete_length {V} (k : string) (m : list (string * V)) :
  NoDup m.*1 → k ∈ m.*1 → length m = S (length (map_delete k m)).
Proof.
  induction m as [|[k0 v0] m IH]; simpl; [by intros _ ?%elem_of_nil|].
  intros [Hk0 Hm]%NoDup_cons Hin. destruct (decide (k0 = k)) as [->|Hne].
  - by rewrite map_delete_absent.
  - simpl. f_equal. apply IH; [done|].
    apply elem_of_cons in Hin as [->|?]; done.
Qed.

Lemma on_event_accounted subs w ev w1 :
  NoDup subs → accounted subs w → on_event subs w ev = Returned w1 → accounted subs w1.
Proof.
  intros Hnd (Hkeys & Hpending & Hlen & Hresp) Hev.
  destruct ev as [j data|j|j e]; simpl in Hev.
  - destruct (subs !! j) as [kj|] eqn:Hj; [|by injection Hev as <-].
    destruct (running subs w j) eqn:Hr; [|by injection Hev as <-].
    destruct (isJSONRPCResponse data || isJSONRPCError data) eqn:Hdata;
      simpl in Hev; injection Hev as <-; [|done].
    apply running_spec in Hr as [_ Hnj].
    pose proof (Hpending j kj Hj Hnj) as Hin.
    split; [|split; [|split]]; simpl.
    + by apply map_delete_NoDup.
    + intros i k Hi [Hne Hni]%not_elem_of_cons.
      apply map_delete_keys. split; [|by eapply Hpending].
      intros ->. apply Hne. by apply (NoDup_lookup subs i j kj).
    + rewrite length_app. simpl.
      pose proof (map_delete_length kj _ Hkeys Hin). lia.
    + apply Forall_app. split; [done|]. by constructor.
  - destruct (running subs w j); injection Hev as <-; [|done].
    split; [done|]. split; [|done].
    intros i k Hi [_ Hni]%not_elem_of_cons. by eapply Hpending.
  - destruct (running subs w j); [done|]. by injection Hev as <-.
Qed.

Lemma on_events_accounted subs events : ∀ w w',
  NoDup subs → accounted subs w → on_events subs w events = Returned w' → accounted subs w'.
Proof.
  induction events as [|ev events IH]; intros w w' Hnd Hacc Hev; simpl in Hev.
  - by injection Hev as <-.
  - destruct (on_event subs w ev) as [w1| |] eqn:Hev1; [|done..].
    eapply IH; [done| |done]. by eapply on_event_accounted.
Qed.

Lemma initial_accounted requests :
  NoDup (correlation_keys requests) →
  accounted (correlation_keys requests)
    {| responses := []; pendingRequestIds := initial_pending requests; resolved := [] |}.
Proof.
  intros Hnd. rewrite (initial_pending_distinct _ Hnd).
  assert (((λ request, (String_opt (request_id request), request_id request)) <$> requests).*1
          = correlation_keys requests) as Hkeys.
  { unfold correlation_keys. rewrite <-list_fmap_compose. done. }
  split; [|split; [|split]]; simpl.
  - by rewrite Hkeys.
  - intros i k Hi _. rewrite Hkeys. by eapply list_elem_of_lookup_2.
  - unfold correlation_keys. by rewrite !length_fmap.
  - constructor.
Qed.

Lemma on_events_no_failure subs events : ∀ w,
  Forall (λ ev, no_failure ev = true) events → ∃ w', on_events subs w events = Returned w'.
Proof.
  induction events as [|ev events IH]; intros w Hev; simpl; [by eexists|].
  apply Forall_cons in Hev as [Hev Hrest].
  assert (∃ w1, on_event subs w ev = Returned w1) as [w1 ->].
  { destruct ev as [j data|j|j e]; simpl; [| |done].
    - destruct (subs !! j); [|by eexists]. destruct (_ && _); by eexists.
    - destruct (running subs w j); by eexists. }
  by apply IH.
Qed.

(** The promises that have resolved are those of the subscriptions that have
    been answered or have ended. *)
Lemma on_event_tracks subs st w ev w1 :
  tracks subs st w → on_event subs w ev = Returned w1 →
  tracks subs (λ i, advance ev i (st i)) w1.
Proof.
  intros Htr Hev i Hi.
  pose proof (running_waiting subs st w i Htr Hi) as Hrun.
  specialize (Htr i Hi).
  destruct ev as [j data|j|j e]; simpl in Hev.
  - destruct (decide (j = i)) as [->|Hne].
    + destruct Hi as [k Hk]. rewrite Hk in Hev.
      destruct (st i) eqn:Hst; simpl.
      * rewrite (proj2 Hrun eq_refl) in Hev. simpl in Hev.
        rewrite (bool_decide_eq_true_2 _ eq_refl). simpl.
        destruct (_ || _); injection Hev as <-; simpl; [|done].
        split; [done|]. intros _. by left.
      * destruct (running subs w i) eqn:Hr; [discriminate (proj1 Hrun eq_refl)|].
        by injection Hev as <-.
      * destruct (running subs w i) eqn:Hr; [discriminate (proj1 Hrun eq_refl)|].
        by injection Hev as <-.
    + rewrite advance_other; [| intros d [= ->]; done | done].
      destruct (subs !! j); [|by injection Hev as <-].
      destruct (_ && _); injection Hev as <-; [|done]. simpl.
      rewrite elem_of_cons, Htr. split; [by intros [?|?]|by right].
  - destruct (decide (j = i)) as [->|Hne].
    + destruct (st i) eqn:Hst; simpl.
      * rewrite (proj2 Hrun eq_refl) in Hev. injection Hev as <-. simpl.
        rewrite (bool_decide_eq_true_2 _ eq_refl). split; [done|]. intros _. by left.
      * destruct (running subs w i) eqn:Hr; [discriminate (proj1 Hrun eq_refl)|].
        by injection Hev as <-.
      * destruct (running subs w i) eqn:Hr; [discriminate (proj1 Hrun eq_refl)|].
        by injection Hev as <-.
    + rewrite advance_other; [| done | intros [= ->]; done].
      destruct (running subs w j); injection Hev as <-; [|done]. simpl.
      rewrite elem_of_cons, Htr. split; [by intros [?|?]|by right].
  - destruct (running subs w j); [done|]. injection Hev as <-.
    rewrite Htr. by destruct (st i).
Qed.

Lemma on_events_tracks subs events : ∀ st w w',
  tracks subs st w → on_events subs w events = Returned w' →
  tracks subs (λ i, status_from (st i) events i) w'.
Proof.
  induction events as [|ev events IH]; intros st w w' Htr Hev; simpl in Hev.
  - by injection Hev as <-.
  - destruct (on_event subs w ev) as [w1| |] eqn:Hev1; [|done..].
    apply (IH (λ i, advance ev i (st i)) w1 w'); [|done].
    by eapply on_event_tracks.
Qed.

Lemma tracks_initial subs pending :
  tracks subs (λ _, waiting) {| responses := []; pendingRequestIds := pending; resolved := [] |}.
Proof. intros i _. simpl. split; [by intros ?%elem_of_nil|done]. Qed.

Lemma all_resolved_false subs w i :
  is_Some (subs !! i) → i ∉ resolved w → all_resolved subs w = false.
Proof.
  intros Hi Hn. unfold all_resolved. apply not_true_is_false. intros Hall.
  rewrite forallb_forall in Hall.
  specialize (Hall i). rewrite bool_decide_eq_true in Hall. apply Hn, Hall.
  apply in_seq. apply lookup_lt_is_Some in Hi. lia.
Qed.

(** X15: when the delivery of a batch in JSON mode has returned and the
    deadline, armed at that moment, passes while a request is still waiting,
    the requests having pairwise distinct string forms of their ids and no
    subscription having failed, the body is an array with exactly one
    envelope per request of the batch, each of them a response or an error
    that arrived from the broker or a timeout error. *)
Theorem json_batch_complete (t : Transport) (sid : string) (msgs : list json)
    (session : option TransportSession) (head : list (string * string))
    (events : list SubscriptionEvent) (ds : list Effect) (i : nat) :
  let requests := List.filter isJSONRPCRequest msgs in
  NoDup (correlation_keys requests) →
  deliverToProtocol t msgs sid session = (ds, Returned ()) →
  Forall (λ ev, no_failure ev = true) events →
  is_Some (requests !! i) → status_from waiting events i = waiting →
  ∃ body,
    handleJsonResponse t sid msgs true session head events
    = (subscribed sid requests ++ ds, Returned (Finished (json_200 head (JArr body)))) ∧
    length body = length requests ∧
    Forall (λ v, isJSONRPCResponse v || isJSONRPCError v = true ∨ is_timeout_error v) body.
Proof.
  intros requests Hnd Hdeliver Hevents Hi Hwaiting.
  rewrite (handleJsonResponse_delivered _ _ _ _ _ _ _ _ Hdeliver). fold requests.
  destruct (on_events_no_failure (correlation_keys requests) events
              {| responses := []; pendingRequestIds := initial_pending requests;
                 resolved := [] |} Hevents) as [w Hw].
  rewrite Hw.
  pose proof (on_events_tracks _ _ _ _ _ (tracks_initial _ _) Hw) as Htr.
  pose proof (on_events_accounted _ _ _ _ Hnd (initial_accounted _ Hnd) Hw)
    as (_ & _ & Hlen & Hresp).
  assert (is_Some (correlation_keys requests !! i)) as Hi'.
  { unfold correlation_keys. rewrite list_lookup_fmap. destruct Hi as [r ->]. by eexists. }
  assert (i ∉ resolved w) as Hni.
  { rewrite (Htr i Hi'). intros Hne. by apply Hne. }
  rewrite (all_resolved_false _ _ _ Hi' Hni).
  eexists. split; [reflexivity|]. split.
  - rewrite length_app, !length_fmap. unfold correlation_keys in Hlen.
    by rewrite length_fmap in Hlen.
  - apply Forall_app. split.
    + eapply Forall_impl; [exact Hresp|]. intros v Hv. by left.
    + apply Forall_fmap, Forall_forall. intros id _. right. by exists id.
Qed.

Lemma json_batch_complete_witness :
  ∃ body,
    handleJsonResponse default_transport "s1" a_batch true None [] [Message 0 (a_result (JNum 1))]
    = ([Subscribed "mcp.s1.1.outbound" None; Subscribed "mcp.s1.a.outbound" None],
       Returned (Finished (json_200 [] (JArr body)))) ∧
    length body = 2%nat.
Proof.
  destruct (json_batch_complete default_transport "s1" a_batch None []
              [Message 0 (a_result (JNum 1))] [] 1) as (body & Hrun & Hlen & _).
  - apply (bool_decide_unpack _). vm_compute. exact I.
  - reflexivity.
  - by repeat constructor.
  - by eexists.
  - reflexivity.
  - exists body. split; [exact Hrun|exact Hlen].
Defined.

(** X16: when a subscription that is still waiting throws, in JSON mode,
    the POST is answered 500 with the internal-error envelope, whatever has
    been collected from the other subscriptions and whatever follows. *)
Theorem json_subscription_failure (t : Transport) (sid : string) (msgs : list json)
    (isBatch : bool) (session : option TransportSession) (head : list (string * string))
    (pre post : list SubscriptionEvent) (i : nat) (e : Error) (ds : list Effect) :
  let requests := List.filter isJSONRPCRequest msgs in
  deliverToProtocol t msgs sid session = (ds, Returned ()) →
  Forall (λ ev, no_failure ev = true) pre →
  is_Some (requests !! i) → status_from waiting pre i = waiting →
  handleJsonResponse t sid msgs isBatch session head (pre ++ Failed i e :: post)
  = (subscribed sid requests ++ ds, Returned (Finished (handleError head))).
Proof.
  intros requests Hdeliver Hpre Hi Hwaiting.
  rewrite (handleJsonResponse_delivered _ _ _ _ _ _ _ _ Hdeliver). fold requests.
  destruct (on_events_no_failure (correlation_keys requests) pre
              {| responses := []; pendingRequestIds := initial_pending requests;
                 resolved := [] |} Hpre) as [w Hw].
  rewrite on_events_app, Hw.
  pose proof (on_events_tracks _ _ _ _ _ (tracks_initial _ _) Hw) as Htr.
  assert (is_Some (correlation_keys requests !! i)) as Hi'.
  { unfold correlation_keys. rewrite list_lookup_fmap. destruct Hi as [r ->]. by eexists. }
  assert (running (correlation_keys requests) w i = true) as Hrun.
  { by apply (running_waiting _ _ _ _ Htr Hi'). }
  simpl. by rewrite Hrun.
Qed.

Lemma json_subscription_failure_witness :
  handleJsonResponse default_transport "s1" a_batch true None []
    [Message 0 (a_result (JNum 1)); Failed 1 {| err_code := None; err_message := "lost" |}]
  = ([Subscribed "mcp.s1.1.outbound" None; Subscribed "mcp.s1.a.outbound" None],
     Returned (Finished internal_error_500)).
Proof.
  apply (json_subscription_failure default_transport "s1" a_batch true None []
           [Message 0 (a_result (JNum 1))] [] 1 {| err_code := None; err_message := "lost" |} []).
  - reflexivity.
  - by repeat constructor.
  - by eexists.
  - reflexivity.
Defined.

End json_mode.

(** ** Outgoing requests of the engine *)

Section engine_promises.
Import Js Schema SdkTransport Protocol.
Context {Handler : Type}.
Implicit Types e : Engine Handler.

(** *** Promises that keep their state *)

Lemma keeps_settled_refl e : keeps_settled e e.
Proof. intros p s Hp. split; [by eexists|done]. Qed.

Lemma keeps_settled_trans e1 e2 e3 :
  keeps_settled e1 e2 → keeps_settled e2 e3 → keeps_settled e1 e3.
Proof.
  intros H12 H23 p s Hp. destruct (H12 p s Hp) as [[s2 Hs2] Hk].
  destruct (H23 p s2 Hs2) as [Hs3 Hk']. split; [done|].
  intros Hne. specialize (Hk Hne). rewrite Hk in Hs2. injection Hs2 as <-. by apply Hk'.
Qed.

Lemma keeps_settled_same e e' : promises e' = promises e → keeps_settled e e'.
Proof. intros Heq p s Hp. rewrite Heq. split; [by eexists|done]. Qed.

Lemma keeps_settled_settle p s e : keeps_settled e (settle p s e).
Proof.
  intros q sq Hq. unfold settle.
  destruct (promises e !! p) as [[]|] eqn:Hp; try (split; [by eexists|done]).
  simpl. destruct (decide (p = q)) as [->|Hne].
  - rewrite list_lookup_insert_eq by by eapply lookup_lt_Some.
    split; [by eexists|]. congruence.
  - rewrite list_lookup_insert_ne by done. split; [by eexists|done].
Qed.

End engine_promises.
Section engine_requests.
Import Js Schema SdkTransport Protocol.
Context {Handler : Type}.
Implicit Types e : Engine Handler.

(** The engine after [send] has registered a request that the transport
    accepts. *)
Lemma send_request_register_accepted (p : Prepared) e :
  transport_send (pr_connection p) (outgoing (pr_request p))
    (request_send_options (pr_options p)) = None →
  (send_request_register p e).2 = length (promises e) ∧
  promises (send_request_register p e).1 = promises e ++ [Pending] ∧
  pendingRequests (send_request_register p e).1
  = <[pr_key p := pending_of p (length (promises e)) (Some (next_timer e))]>
      (pendingRequests e) ∧
  timers (send_request_register p e).1
  = <[next_timer e := (pr_key p, nullish (opt_timeout (pr_options p)) DEFAULT_REQUEST_TIMEOUT_MS)]>
      (timers e) ∧
  progressTokenIndex (send_request_register p e).1
  = match progress_token p with
    | Some token =>
        <[mapProgressKey (id (pr_connection p)) (route_sessionId (pr_options p)) (Some token)
          := pr_key p]> (progressTokenIndex e)
    | None => progressTokenIndex e
    end ∧
  sent (send_request_register p e).1
  = sent e ++ [{| sent_on := id (pr_connection p); sent_message := outgoing (pr_request p);
                  sent_options := request_send_options (pr_options p) |}] ∧
  next_timer (send_request_register p e).1 = S (next_timer e).
Proof.
  intros Hsend. unfold send_request_register, transport_call, progress_token.
  unfold request_send_options in Hsend. rewrite Hsend.
  destruct (opt_onProgress (pr_options p) && _) eqn:Hprog;
    [destruct (truthy_json _) eqn:Htoken|];
    unfold setupTimeout; simpl; rewrite lookup_insert_eq; simpl;
    rewrite insert_insert_eq; repeat split; try done.
  by destruct (get_opt "progressToken" _).
Qed.

Lemma send_request_prepare_spec (c : Connection) (message : json) (options : RequestOptions) e :
  let prepared := send_request_prepare c message options e in
  pr_connection prepared.2 = c ∧ pr_request prepared.2 = message ∧
  pr_options prepared.2 = options ∧
  pr_key prepared.2 = mapRequestKey (id c) (route_sessionId options) (get "id" message) ∧
  pr_abortController prepared.2 = length (controllers e) ∧
  promises prepared.1 = promises e ∧ pendingRequests prepared.1 = pendingRequests e ∧
  timers prepared.1 = timers e ∧ next_timer prepared.1 = next_timer e ∧
  progressTokenIndex prepared.1 = progressTokenIndex e ∧ sent prepared.1 = sent e.
Proof. unfold send_request_prepare. by destruct (opt_signal options). Qed.

Lemma clearRequest_found k (req : PendingRequest) e :
  pendingRequests e !! k = Some req →
  pendingRequests (clearRequest k e) = delete k (pendingRequests e) ∧
  timers (clearRequest k e)
  = match p_timeout req with Some h => delete h (timers e) | None => timers e end ∧
  promises (clearRequest k e) = promises e ∧ sent (clearRequest k e) = sent e.
Proof. intros Hk. unfold clearRequest. rewrite Hk. by destruct (p_timeout req). Qed.

Lemma settle_tables p s e :
  pendingRequests (settle p s e) = pendingRequests e ∧
  timers (settle p s e) = timers e ∧ sent (settle p s e) = sent e.
Proof. unfold settle. by destruct (promises e !! p) as [[]|]. Qed.

(** What settling a pending request does: the promise takes its state, the
    entry and the timer go. *)
Lemma request_settled k (req : PendingRequest) s e :
  pendingRequests e !! k = Some req → promises e !! promise req = Some Pending →
  promises (settle (promise req) s (clearRequest k e)) !! promise req = Some s ∧
  pendingRequests (settle (promise req) s (clearRequest k e)) = delete k (pendingRequests e) ∧
  timers (settle (promise req) s (clearRequest k e))
  = match p_timeout req with Some h => delete h (timers e) | None => timers e end ∧
  sent (settle (promise req) s (clearRequest k e)) = sent e.
Proof.
  intros Hk Hp. destruct (clearRequest_found k req e Hk) as (Hpend & Ht & Hpr & Hs).
  destruct (settle_tables (promise req) s (clearRequest k e)) as (-> & -> & ->).
  split; [|done]. unfold settle. rewrite Hpr, Hp. simpl. rewrite Hpr.
  apply list_lookup_insert_eq. by eapply lookup_lt_Some.
Qed.

Lemma fresh_promise_pending (ps : list PromiseState) :
  (ps ++ [Pending]) !! length ps = Some Pending.
Proof. by rewrite lookup_app_r, Nat.sub_diag by lia. Qed.

(** The engine after [send] has been called with a request that the
    transport accepts. *)
Lemma request_sent (c : Connection) (message : json) (options : RequestOptions) e :
  let prepared := send_request_prepare c message options e in
  let registered := send_request_register prepared.2 prepared.1 in
  let key := mapRequestKey (id c) (route_sessionId options) (get "id" message) in
  let ms := nullish (opt_timeout options) DEFAULT_REQUEST_TIMEOUT_MS in
  transport_send c (outgoing message) (request_send_options options) = None →
  pr_key prepared.2 = key ∧
  registered.2 = length (promises e) ∧
  promises registered.1 = promises e ++ [Pending] ∧
  pendingRequests registered.1
  = <[key := pending_of prepared.2 (length (promises e)) (Some (next_timer e))]>
      (pendingRequests e) ∧
  timers registered.1 = <[next_timer e := (key, ms)]> (timers e) ∧
  progressTokenIndex registered.1
  = match progress_token prepared.2 with
    | Some token =>
        <[mapProgressKey (id c) (route_sessionId options) (Some token) := key]>
          (progressTokenIndex e)
    | None => progressTokenIndex e
    end ∧
  next_timer registered.1 = S (next_timer e) ∧
  sent registered.1
  = sent e ++ [{| sent_on := id c; sent_message := outgoing message;
                  sent_options := request_send_options options |}].
Proof.
  intros prepared registered key ms Hsend.
  destruct (send_request_prepare_spec c message options e)
    as (Hc & Hm & Ho & Hk & _ & Hp & Hpend & Ht & Hn & Hpt & Hs).
  fold prepared in Hc, Hm, Ho, Hk, Hp, Hpend, Ht, Hn, Hpt, Hs.
  destruct (send_request_register_accepted prepared.2 prepared.1)
    as (Hr & Hp' & Hpend' & Ht' & Hpt' & Hs' & Hn').
  { by rewrite Hc, Hm, Ho. }
  fold registered in Hr, Hp', Hpend', Ht', Hpt', Hs', Hn'.
  rewrite Hc, Hm, Ho, Hk, ?Hp, ?Hpend, ?Ht, ?Hn, ?Hpt, ?Hs in *.
  repeat split; done.
Qed.

Lemma error_is_not_response (m : json) :
  isJSONRPCError m = true → isJSONRPCResponse m = false.
Proof.
  unfold isJSONRPCResponse, isJSONRPCError.
  destruct (hasJSONRPCVersion m); [|done]. simpl.
  destruct (has "id" m); [|done]. simpl.
  destruct (has "result" m); [|done]. simpl.
  by destruct (has "error" m).
Qed.

Lemma progress_is_notification (m : json) :
  isProgressNotification m = true →
  isJSONRPCResponse m = false ∧ isJSONRPCError m = false ∧ isJSONRPCRequest m = false ∧
  isJSONRPCNotification m = true ∧ isCancelledNotification m = false.
Proof.
  unfold isProgressNotification, isCancelledNotification.
  destruct (isJSONRPCNotification m) eqn:Hn; [|done]. simpl.
  destruct (is_string "notifications/progress" (get "method" m)) eqn:Hm; [|done].
  intros _.
  assert (is_string "notifications/cancelled" (get "method" m) = false) as ->.
  { unfold is_string in *. destruct (get "method" m) as [[| | |s| |]|]; try done.
    apply bool_decide_eq_true in Hm as ->. done. }
  simpl. revert Hn.
  unfold isJSONRPCNotification, isJSONRPCResponse, isJSONRPCError, isJSONRPCRequest.
  destruct (hasJSONRPCVersion m); [|done]. simpl.
  by destruct (has "id" m).
Qed.

Lemma handleMessage_progress c (m : json) sid e :
  isProgressNotification m = true → handleMessage c m sid e = handleProgress c m sid e.
Proof.
  intros Hp. destruct (progress_is_notification m Hp) as (Hr & He & Hq & Hn & Hc).
  unfold handleMessage, processNotification. by rewrite Hr, He, Hq, Hn, Hc, Hp.
Qed.

(** *** Request keys *)

Lemma split_colon_free (s : string) : colon_free s = true → split_colon s = [s].
Proof.
  induction s as [|ch s IH]; [done|]. simpl.
  intros [Hch Hs]%andb_prop. apply negb_true_iff, bool_decide_eq_false in Hch.
  rewrite decide_False by done. by rewrite IH.
Qed.

Lemma split_colon_app (a rest : string) :
  colon_free a = true → split_colon (a +:+ ":" +:+ rest) = a :: split_colon rest.
Proof.
  induction a as [|ch a IH]; [done|]. intros Hfree. simpl in Hfree.
  apply andb_prop in Hfree as [Hch Ha]. apply negb_true_iff, bool_decide_eq_false in Hch.
  rewrite append_cons. simpl. rewrite decide_False by done. by rewrite IH.
Qed.

Lemma unmapRequestKey_mapRequestKey (connectionId : string) (sessionId : option string)
    (requestId : option json) :
  colon_free connectionId = true → colon_free (template_opt sessionId) = true →
  unmapRequestKey (mapRequestKey connectionId sessionId requestId)
  = {| key_connectionId := Some connectionId;
       key_sessionId := Some (template_opt sessionId);
       key_requestId := head (split_colon (String_opt requestId)) |}.
Proof.
  intros Hc Hs. unfold unmapRequestKey, mapRequestKey.
  rewrite (split_colon_app _ _ Hc), (split_colon_app _ _ Hs). simpl.
  by destruct (split_colon _).
Qed.

(** X19: the request key can be taken apart again.  When neither the
    connection id nor the session id holds a colon, [unmapRequestKey] gives
    back the connection id and the session id that [mapRequestKey] was given,
    and as request id the printed id up to its first colon: the whole of it
    when it holds none. *)
Theorem request_key_round_trip (connectionId : string) (sessionId : option string)
    (requestId : option json) :
  colon_free connectionId = true → colon_free (template_opt sessionId) = true →
  unmapRequestKey (mapRequestKey connectionId sessionId requestId)
  = {| key_connectionId := Some connectionId;
       key_sessionId := Some (template_opt sessionId);
       key_requestId := head (split_colon (String_opt requestId)) |} ∧
  (colon_free (String_opt requestId) = true →
   head (split_colon (String_opt requestId)) = Some (String_opt requestId)).
Proof.
  intros Hc Hs. split; [by apply unmapRequestKey_mapRequestKey|].
  intros Hr. by rewrite split_colon_free.
Qed.

(** *** Responses, errors, timers and progress *)

(** X20: the round trip of an outgoing request.  When the transport has
    accepted the request and a response arrives on the same connection whose
    id and session print like those of the request, the promise of the request
    is fulfilled with the response as it is, the pending entry is removed and
    the timer is disarmed; the transport has been called once, with the
    session id alone. *)
Theorem response_settles_request (c : Connection) (message response : json)
    (options : RequestOptions) (sid : option string) e :
  let prepared := send_request_prepare c message options e in
  let registered := send_request_register prepared.2 prepared.1 in
  let e' := handleMessage c response sid registered.1 in
  transport_send c (outgoing message) (request_send_options options) = None →
  isJSONRPCResponse response = true →
  String_opt (get "id" response) = String_opt (get "id" message) →
  template_opt sid = template_opt (route_sessionId options) →
  promises e' !! registered.2 = Some (Fulfilled response) ∧
  pendingRequests e' !! pr_key prepared.2 = None ∧
  timers e' = delete (next_timer e) (timers e) ∧
  sent e' = sent e ++ [{| sent_on := id c; sent_message := outgoing message;
                          sent_options := request_send_options options |}].
Proof.
  intros prepared registered e' Hsend Hresp Hid Hsid.
  pose proof (request_sent c message options e Hsend) as Hsent. cbv zeta in Hsent.
  fold prepared in Hsent. fold registered in Hsent.
  destruct Hsent as (Hk & Hr & Hp & Hpend & Ht & _ & _ & Hs).
  assert (e' = resolve c response sid registered.1) as He'.
  { unfold e', handleMessage. by rewrite Hresp. }
  assert (mapRequestKey (id c) sid (get "id" response) = pr_key prepared.2) as Hkey.
  { rewrite Hk. unfold mapRequestKey. by rewrite Hid, Hsid. }
  clearbody e' registered prepared.
  subst e'. unfold resolve. rewrite Hkey, Hk, Hpend, lookup_insert_eq.
  destruct (request_settled
              (mapRequestKey (id c) (route_sessionId options) (get "id" message))
              (pending_of prepared.2 (length (promises e)) (Some (next_timer e)))
              (Fulfilled response) registered.1)
    as (Hq1 & Hq2 & Hq3 & Hq4).
  { by rewrite Hpend, lookup_insert_eq. }
  { simpl. rewrite Hp. apply fresh_promise_pending. }
  rewrite Hq2, Hq3, Hq4, Hr. simpl in Hq1 |- *.
  split; [done|]. split; [by rewrite lookup_delete_eq|]. split.
  - by rewrite Ht, delete_insert_eq.
  - done.
Qed.

(** X21: an error response settles the request it names, unless its id is
    falsy.  When an error envelope arrives whose id and session print like
    those of a pending request, the promise is rejected with the [error]
    member of the envelope and the entry is removed; but when the id is [0] or
    the empty string (or null), the envelope is dropped and the engine is left
    as it was, the request still pending. *)
Theorem error_settles_request_unless_falsy (c : Connection) (message response : json)
    (options : RequestOptions) (sid : option string) e :
  let prepared := send_request_prepare c message options e in
  let registered := send_request_register prepared.2 prepared.1 in
  let e' := handleMessage c response sid registered.1 in
  transport_send c (outgoing message) (request_send_options options) = None →
  isJSONRPCError response = true →
  String_opt (get "id" response) = String_opt (get "id" message) →
  template_opt sid = template_opt (route_sessionId options) →
  (truthy_json (get "id" response) = true →
   promises e' !! registered.2 = Some (Rejected (error_of response)) ∧
   pendingRequests e' !! pr_key prepared.2 = None) ∧
  (truthy_json (get "id" response) = false →
   e' = registered.1 ∧ promises e' !! registered.2 = Some Pending ∧
   is_Some (pendingRequests e' !! pr_key prepared.2)).
Proof.
  intros prepared registered e' Hsend Herr Hid Hsid.
  pose proof (request_sent c message options e Hsend) as Hsent. cbv zeta in Hsent.
  fold prepared in Hsent. fold registered in Hsent.
  destruct Hsent as (Hk & Hr & Hp & Hpend & Ht & _ & _ & Hs).
  assert (e' = rejectWithError c response sid registered.1) as He'.
  { unfold e', handleMessage. by rewrite (error_is_not_response _ Herr), Herr. }
  assert (mapRequestKey (id c) sid (get "id" response) = pr_key prepared.2) as Hkey.
  { rewrite Hk. unfold mapRequestKey. by rewrite Hid, Hsid. }
  clearbody e' registered prepared.
  subst e'. unfold rejectWithError. split; intros Hfalsy; rewrite Hfalsy.
  - unfold reject. rewrite Hkey, Hk, Hpend, lookup_insert_eq.
    destruct (request_settled
                (mapRequestKey (id c) (route_sessionId options) (get "id" message))
                (pending_of prepared.2 (length (promises e)) (Some (next_timer e)))
                (Rejected (error_of response)) registered.1)
      as (Hq1 & Hq2 & _).
    { by rewrite Hpend, lookup_insert_eq. }
    { simpl. rewrite Hp. apply fresh_promise_pending. }
    rewrite Hq2, Hr. simpl in Hq1. split; [done|]. by rewrite lookup_delete_eq.
  - split; [done|]. rewrite Hr, Hp, Hk, Hpend, lookup_insert_eq.
    split; [apply fresh_promise_pending|by eexists].
Qed.

(** X22: the timer of an outgoing request.  When the timer that [send]
    armed fires while the request is still pending, the promise is rejected
    with the request-timeout error (-32603) and the entry is removed.  The
    message of the error names the request id read back from the key, which
    is the printed id when neither the connection id, the session id nor the
    id holds a colon, and it names the connection id where it says
    [session]. *)
Theorem timeout_rejects_request (c : Connection) (message : json)
    (options : RequestOptions) e :
  let prepared := send_request_prepare c message options e in
  let registered := send_request_register prepared.2 prepared.1 in
  let e' := timer_fired (next_timer e) registered.1 in
  let ms := nullish (opt_timeout options) DEFAULT_REQUEST_TIMEOUT_MS in
  transport_send c (outgoing message) (request_send_options options) = None →
  colon_free (id c) = true → colon_free (template_opt (route_sessionId options)) = true →
  colon_free (String_opt (get "id" message)) = true →
  promises e' !! registered.2
  = Some (Rejected (RequestTimeoutError (String_opt (get "id" message)) (id c) ms)) ∧
  pendingRequests e' !! pr_key prepared.2 = None ∧
  timers e' = delete (next_timer e) (timers e).
Proof.
  intros prepared registered e' ms Hsend Hc Hsid Hid.
  pose proof (request_sent c message options e Hsend) as Hsent. cbv zeta in Hsent.
  fold prepared in Hsent. fold registered in Hsent.
  destruct Hsent as (Hk & Hr & Hp & Hpend & Ht & _ & _ & Hs). fold ms in Ht.
  assert (pr_connection prepared.2 = c) as Hconn.
  { by destruct (send_request_prepare_spec c message options e) as (? & _). }
  assert (key_requestId (unmapRequestKey
            (mapRequestKey (id c) (route_sessionId options) (get "id" message)))
          = Some (String_opt (get "id" message))) as Hrid.
  { rewrite (unmapRequestKey_mapRequestKey _ _ _ Hc Hsid). simpl.
    by rewrite (split_colon_free _ Hid). }
  unfold e'. clearbody registered prepared.
  unfold timer_fired. rewrite Ht, lookup_insert_eq.
  set (e1 := set_timers _ _ _).
  assert (pendingRequests e1 = pendingRequests registered.1) as Hpend1 by done.
  rewrite Hpend1, Hpend, lookup_insert_eq, Hrid. simpl. rewrite Hconn.
  unfold reject. rewrite Hpend1, Hpend, lookup_insert_eq.
  destruct (request_settled
              (mapRequestKey (id c) (route_sessionId options) (get "id" message))
              (pending_of prepared.2 (length (promises e)) (Some (next_timer e)))
              (Rejected (RequestTimeoutError (String_opt (get "id" message)) (id c) ms)) e1)
    as (Hq1 & Hq2 & Hq3 & _).
  { by rewrite Hpend1, Hpend, lookup_insert_eq. }
  { change (promises e1) with (promises registered.1). simpl. rewrite Hp.
    apply fresh_promise_pending. }
  rewrite Hq2, Hq3, Hr, Hk. simpl in Hq1 |- *.
  split; [done|]. split; [by rewrite lookup_delete_eq|].
  by rewrite Ht, delete_insert_eq, delete_delete_eq.
Qed.

(** X23: progress keeps a request alive only when asked to.  When a
    progress notification arrives that carries the progress token of a pending
    request sent with [onProgress], and [resetTimeoutOnProgress] is set, the
    timer of the request is replaced by a new one of the same duration, the
    promise stays pending and the old timer fires no more; without
    [resetTimeoutOnProgress] the notification leaves the engine as it was. *)
Theorem progress_rearms_timer (c : Connection) (message progress : json)
    (options : RequestOptions) (sid : option string) (token : json) e :
  let prepared := send_request_prepare c message options e in
  let registered := send_request_register prepared.2 prepared.1 in
  let e' := handleMessage c progress sid registered.1 in
  let ms := nullish (opt_timeout options) DEFAULT_REQUEST_TIMEOUT_MS in
  transport_send c (outgoing message) (request_send_options options) = None →
  isProgressNotification progress = true →
  progress_token prepared.2 = Some token →
  String_opt (get_opt "progressToken" (get "params" progress)) = String_ token →
  template_opt sid = template_opt (route_sessionId options) →
  (opt_resetTimeoutOnProgress options = true →
   timers e' = <[S (next_timer e) := (pr_key prepared.2, ms)]>
                 (delete (next_timer e) (timers e)) ∧
   promises e' !! registered.2 = Some Pending ∧
   timer_fired (next_timer e) e' = e') ∧
  (opt_resetTimeoutOnProgress options = false → e' = registered.1).
Proof.
  intros prepared registered e' ms Hsend Hprog Htoken Hprint Hsid.
  pose proof (request_sent c message options e Hsend) as Hsent. cbv zeta in Hsent.
  fold prepared in Hsent. fold registered in Hsent. fold ms in Hsent.
  destruct Hsent as (Hk & Hr & Hp & Hpend & Ht & Hpt & Hn & Hs).
  destruct (send_request_prepare_spec c message options e) as (_ & _ & Ho & _).
  fold prepared in Ho.
  assert (opt_onProgress options = true) as Hon.
  { revert Htoken. unfold progress_token. rewrite Ho.
    by destruct (opt_onProgress options). }
  assert (e' = handleProgress c progress sid registered.1) as He'.
  { unfold e'. by apply handleMessage_progress. }
  rewrite Htoken in Hpt.
  clearbody e' registered prepared. subst e'. unfold handleProgress.
  assert (mapProgressKey (id c) sid (get_opt "progressToken" (get "params" progress))
          = mapProgressKey (id c) (route_sessionId options) (Some token)) as ->.
  { unfold mapProgressKey. by rewrite Hprint, Hsid. }
  rewrite Hpt, lookup_insert_eq, Hpend, lookup_insert_eq. simpl. rewrite Ho, Hon. simpl.
  split; intros Hreset; rewrite Hreset; [|done].
  unfold setupTimeout. rewrite Hpend, lookup_insert_eq. simpl.
  rewrite Ht, Hn, Hk, Hp, Hr, delete_insert_eq. fold ms.
  split; [done|]. split; [apply fresh_promise_pending|].
  unfold timer_fired. simpl.
  rewrite lookup_insert_ne by lia. by rewrite lookup_delete_eq.
Qed.

End engine_requests.

(** ** Incoming requests of the engine *)

Section engine_replies.
Import Js Schema SdkTransport Protocol.
Context {Handler : Type}.
Implicit Types e : Engine Handler.

Lemma fresh_controller_not_aborted c (message : json) sid e :
  let started := processRequest_begin c message sid e in
  is_aborted (fl_controller started.2) started.1 = false.
Proof.
  unfold is_aborted. simpl. rewrite lookup_app_r by done. by rewrite Nat.sub_diag.
Qed.

(** X24: the replies to an incoming request.  When the handler of a request
    that has not been cancelled settles, the engine sends its reply with the
    session of the request and its printed id as request id.  Without a
    registered handler the reply is method-not-found (-32601).  What the
    handler throws is sent as it is when it is a [ProtocolError], and
    otherwise wrapped as internal error (-32603) whose message is
    [String(error)].  An error reply is sent once and the entry leaves the
    incoming-request table, whatever the transport does with it.  A result
    that the transport accepts is the only reply; a result that the transport
    rejects is followed by a second envelope, the error reply for what the
    transport rejected with. *)
Theorem processRequest_replies (c : Connection) (message : json) (sid : option string) e :
  let started := processRequest_begin c message sid e in
  let fl := started.2 in
  let to := {| sessionId := sid; requestId := Some (String_opt (get "id" message));
               timeout := None |} in
  let envelope reply := {| sent_on := id c; sent_message := reply; sent_options := to |} in
  let cleared (e' : Engine Handler) :=
    incomingRequests e' = delete (fl_key fl) (incomingRequests e) in
  let wrapped error :=
    match error with
    | protocol_error error => error
    | plain_error name message =>
        {| err_code := Some (-32603); err_message := Error_toString name message |}
    | thrown_value printed => {| err_code := Some (-32603); err_message := printed |}
    end in
  (method_of message ≫= (handlers e !!.) = None →
   ∀ o, let settled := processRequest_settled fl o started.1 in
        sent settled.1
        = sent e ++ [envelope (error_response (get "id" message)
                       {| err_code := Some (-32601);
                          err_message := "Method not found: "
                                         +:+ String_opt (get "method" message) |})] ∧
        settled.2 = None ∧ cleared settled.1) ∧
  (is_Some (method_of message ≫= (handlers e !!.)) →
   (∀ error, let settled := processRequest_settled fl (Rejects error) started.1 in
             sent settled.1
             = sent e ++ [envelope (error_response (get "id" message) (wrapped error))] ∧
             settled.2 = None ∧ cleared settled.1) ∧
   (∀ result, let settled := processRequest_settled fl (Resolves result) started.1 in
              match transport_send c (result_response (get "id" message) result) to with
              | None =>
                  sent settled.1
                  = sent e ++ [envelope (result_response (get "id" message) result)] ∧
                  settled.2 = None ∧ cleared settled.1
              | Some failure =>
                  settled.2 = Some failure ∧
                  let caught := step settled.1 (ReplyFailed fl failure) in
                  sent caught
                  = sent e ++ [envelope (result_response (get "id" message) result);
                               envelope (error_response (get "id" message) (wrapped failure))] ∧
                  cleared caught
              end)).
Proof.
  intros started fl to envelope cleared wrapped.
  pose proof (fresh_controller_not_aborted c message sid e) as Hfresh.
  cbv zeta in Hfresh. fold started in Hfresh. fold fl in Hfresh.
  assert (incomingRequests started.1 = <[fl_key fl := fl_controller fl]> (incomingRequests e))
    as Hinc by done.
  assert (sent started.1 = sent e) as Hsent by done.
  assert (fl_connection fl = c ∧ fl_message fl = message ∧ reply_options fl = to ∧
          fl_handler fl = method_of message ≫= (handlers e !!.))
    as (Hc & Hm & Hto & Hh) by done.
  assert (∀ error, as_protocol_error error = wrapped error) as Hwrap.
  { by intros [err|name msg|printed]. }
  unfold cleared. clearbody fl. clearbody started.
  split.
  - intros Hnone o. cbv zeta.
    unfold processRequest_settled, handled, processRequest_catch, processRequest_finally,
      transport_call.
    rewrite Hh, Hnone, Hc, Hm, Hto, Hfresh. simpl.
    by rewrite Hsent, Hinc, delete_insert_eq.
  - intros [h Hsome]. split.
    + intros error. cbv zeta.
      unfold processRequest_settled, handled, processRequest_catch, processRequest_finally,
        transport_call.
      rewrite Hh, Hsome, Hc, Hm, Hto, Hfresh. simpl.
      by rewrite Hsent, Hinc, delete_insert_eq, Hwrap.
    + intros result. cbv zeta.
      unfold processRequest_settled, handled, processRequest_finally, transport_call.
      rewrite Hh, Hsome, Hc, Hm, Hto, Hfresh. simpl.
      destruct (transport_send c _ to) as [failure|]; simpl.
      * split; [done|].
        unfold processRequest_catch, processRequest_finally, transport_call, is_aborted.
        simpl. unfold is_aborted in Hfresh. rewrite Hfresh. simpl.
        by rewrite Hc, Hm, Hto, Hsent, Hinc, delete_insert_eq, Hwrap, <-app_assoc.
      * by rewrite Hsent, Hinc, delete_insert_eq.
Qed.

(** X25: a cancellation acts once.  Handling the same
    [notifications/cancelled] a second time changes nothing, and one that
    arrives after its request has been replied to leaves the engine as it is:
    a cancellation for a request that is not in flight is ignored. *)
Theorem cancellation_acts_once (c : Connection) (message cancel : json)
    (sid : option string) (o : HandlerOutcome) e :
  let started := processRequest_begin c message sid e in
  let settled := processRequest_settled started.2 o started.1 in
  isCancelledNotification cancel = true →
  handleMessage c cancel sid (handleMessage c cancel sid e) = handleMessage c cancel sid e ∧
  (get_opt "requestId" (get "params" cancel) = get "id" message → settled.2 = None →
   handleMessage c cancel sid settled.1 = settled.1).
Proof.
  intros started settled Hcancel. rewrite !(handleMessage_cancelled _ _ _ _ Hcancel).
  split.
  - unfold handleCancellation.
    destruct (incomingRequests e !! _) as [ctl|] eqn:Hentry.
    + simpl. by rewrite lookup_delete_eq.
    + by rewrite Hentry.
  - intros Hid Hreplied. unfold handleCancellation. rewrite Hid.
    assert (incomingRequests settled.1 !! mapRequestKey (id c) sid (get "id" message) = None)
      as ->; [|done].
    revert Hreplied. unfold settled, processRequest_settled, processRequest_catch.
    destruct (handled _ o) as [result|error].
    + destruct (negb _); simpl.
      * destruct (transport_send _ _ _); [done|]. intros _. simpl. apply lookup_delete_eq.
      * intros _. apply lookup_delete_eq.
    + intros _. destruct (negb _); simpl; apply lookup_delete_eq.
Qed.

End engine_replies.

(** ** Sample runs of the engine *)

Section engine_samples.
Import Js Schema SdkTransport Protocol.

Lemma request_key_round_trip_witness :
  unmapRequestKey (mapRequestKey "connection-1" (Some "s1") (Some (JNum 7)))
  = {| key_connectionId := Some "connection-1"; key_sessionId := Some "s1";
       key_requestId := Some "7" |}.
Proof.
  pose proof (request_key_round_trip "connection-1" (Some "s1") (Some (JNum 7))
                eq_refl eq_refl) as [H1 H2].
  rewrite H1, H2; [reflexivity|vm_compute; reflexivity].
Defined.

Lemma response_settles_request_witness :
  promises (handleMessage a_connection a_tool_result (Some "s1")
              (a_sent_request plain_options).1) !! (a_sent_request plain_options).2
  = Some (Fulfilled a_tool_result).
Proof.
  pose proof (response_settles_request a_connection a_tool_call a_tool_result plain_options
                (Some "s1") an_engine eq_refl) as H.
  destruct H as (H & _); [vm_compute; reflexivity..|]. exact H.
Defined.

Lemma error_settles_request_unless_falsy_witness :
  promises (handleMessage a_connection a_tool_error (Some "s1")
              (a_sent_request plain_options).1) !! (a_sent_request plain_options).2
  = Some (Rejected {| err_code := Some (-32000); err_message := "failed" |}).
Proof.
  pose proof (error_settles_request_unless_falsy a_connection a_tool_call a_tool_error
                plain_options (Some "s1") an_engine eq_refl) as H.
  destruct H as ((H & _) & _); [vm_compute; reflexivity..|]. exact H.
Defined.

Lemma timeout_rejects_request_witness :
  promises (timer_fired 0 (a_sent_request plain_options).1) !! (a_sent_request plain_options).2
  = Some (Rejected (RequestTimeoutError "1" "connection-1" 60000)).
Proof.
  pose proof (timeout_rejects_request a_connection a_tool_call plain_options an_engine
                eq_refl) as H.
  destruct H as (H & _); [vm_compute; reflexivity..|]. exact H.
Defined.

Lemma progress_rearms_timer_witness :
  timers (handleMessage a_connection a_progress (Some "s1") (a_sent_request progress_options).1)
  = <[1%nat := ("connection-1:s1:1", 5000)]> (delete 0%nat ∅).
Proof.
  pose proof (progress_rearms_timer a_connection a_tool_call a_progress progress_options
                (Some "s1") (JStr "tok") an_engine eq_refl) as H.
  destruct H as ((H & _) & _); [vm_compute; reflexivity..|]. exact H.
Defined.

Lemma processRequest_replies_witness :
  sent (processRequest_settled
          (processRequest_begin a_connection a_tool_call (Some "s1") an_engine).2
          (Rejects (plain_error "TypeError" "bad"))
          (processRequest_begin a_connection a_tool_call (Some "s1") an_engine).1).1
  = [{| sent_on := "connection-1";
        sent_message := error_response (Some (JNum 1))
                          {| err_code := Some (-32603); err_message := "TypeError: bad" |};
        sent_options := {| sessionId := Some "s1"; requestId := Some "1"; timeout := None |} |}].
Proof.
  pose proof (processRequest_replies a_connection a_tool_call (Some "s1") an_engine) as [_ H].
  destruct H as [H _]; [by eexists|].
  destruct (H (plain_error "TypeError" "bad")) as (Hsent & _). exact Hsent.
Defined.

Lemma cancellation_acts_once_witness :
  handleMessage a_connection a_cancellation (Some "s1")
    (handleMessage a_connection a_cancellation (Some "s1")
       (processRequest_begin a_connection a_tool_call (Some "s1") an_engine).1)
  = handleMessage a_connection a_cancellation (Some "s1")
      (processRequest_begin a_connection a_tool_call (Some "s1") an_engine).1.
Proof.
  pose proof (cancellation_acts_once a_connection a_tool_call a_cancellation (Some "s1")
                (Resolves (JObj []))
                (processRequest_begin a_connection a_tool_call (Some "s1") an_engine).1) as H.
  destruct H as [H _]; [vm_compute; reflexivity|]. exact H.
Defined.

End engine_samples.

(** ** The engine behind the transport *)

Section reply_routing.
Import Js Schema SdkTransport Topics Transport Protocol.
Context {Handler : Type}.

Lemma emit_effects {A} (es : list Effect) (k : M A) : es ⊆ (emit es ;; k).1.
Proof.
  unfold emit. rewrite bind_returned. simpl. intros x Hx. apply elem_of_app. by left.
Qed.

(** X17: the reply of the engine reaches the POST that waits for it.  The
    transport hands a request to the engine under the id of the store's
    session, or the session id when there is no store; when that is the id the
    POST was resolved with, and neither it nor the printed id of the request
    is empty, the transport publishes the reply of the engine on the very
    [request-outbound] subject that the JSON mode has subscribed for the
    request.  When the printed id is empty, the reply goes to the background
    channel of the session instead. *)
Theorem reply_meets_subscription (t : Transport.Transport) (c : Connection)
    (e : Engine Handler) (request reply : json) (sid : string)
    (session : option TransportSession) (head : list (string * string))
    (events : list SubscriptionEvent) :
  let ctx := match session with Some s => session_id s | None => sid end in
  let fl := (processRequest_begin c request (Some ctx) e).2 in
  let rid := String_opt (request_id request) in
  isJSONRPCRequest request = true → ctx = sid → sid ≠ "" →
  (rid ≠ "" →
   (Transport.send t reply (Some (reply_options fl))).1
   = [Published (subject_of (request_outbound sid rid)) reply] ∧
   Subscribed (subject_of (request_outbound sid rid)) None
   ∈ (handleJsonResponse t sid [request] false session head events).1) ∧
  (rid = "" → isJSONRPCRequest reply = false →
   (Transport.send t reply (Some (reply_options fl))).1
   = [Published (subject_of (background_outbound sid)) reply]).
Proof.
  intros ctx fl rid Hreq Hctx Hsid. unfold Transport.send, reply_options. simpl.
  fold ctx. rewrite Hctx. fold (request_id request). fold rid.
  rewrite (bool_decide_eq_false_2 _ Hsid). simpl. split.
  - intros Hrid. rewrite (bool_decide_eq_false_2 _ Hrid). simpl.
    rewrite (bool_decide_eq_false_2 _ Hrid). simpl. split; [done|].
    unfold handleJsonResponse. simpl List.filter. rewrite Hreq.
    apply emit_effects. by left.
  - intros -> ->. done.
Qed.

End reply_routing.

Section reply_routing_sample.
Import Js Schema SdkTransport Topics Transport Protocol.

Lemma reply_meets_subscription_witness :
  (Transport.send default_transport (a_result (JNum 1))
     (Some (reply_options (processRequest_begin a_connection a_ping (Some "s1") an_engine).2))).1
  = [Published "mcp.s1.1.outbound" (a_result (JNum 1))].
Proof.
  pose proof (reply_meets_subscription default_transport a_connection an_engine a_ping
                (a_result (JNum 1)) "s1" None [] [] eq_refl eq_refl) as H.
  destruct H as [H _]; [discriminate|].
  destruct H as [H _]; [vm_compute; discriminate|]. exact H.
Defined.

End reply_routing_sample.

(** ** Shutdown of the engine *)

Section engine_close.
Import Js Schema SdkTransport Protocol.
Context {Handler : Type}.
Implicit Types e : Engine Handler.

Lemma close_rejects_pending e :
  let e1 := map_fold (λ id request e,
                        settle (promise request) (Rejected ConnectionClosedError)
                               (clearRequest id e))
                     e (pendingRequests e) in
  (∀ k req, pendingRequests e !! k = Some req → promises e !! promise req = Some Pending →
            promises e1 !! promise req = Some (Rejected ConnectionClosedError)) ∧
  (∀ k req h, pendingRequests e !! k = Some req → p_timeout req = Some h →
              timers e1 !! h = None) ∧
  sent e1 = sent e ∧ controllers e1 = controllers e ∧
  incomingRequests e1 = incomingRequests e.
Proof.
  set (err := ConnectionClosedError).
  set (f := λ (id : string) (request : PendingRequest) (e : Engine Handler),
              settle (promise request) (Rejected err) (clearRequest id e)).
  assert (∀ m, m ⊆ pendingRequests e →
            keeps_settled e (map_fold f e m) ∧
            (∀ p, promises e !! p = Some Pending →
                  promises (map_fold f e m) !! p = Some Pending ∨
                  promises (map_fold f e m) !! p = Some (Rejected err)) ∧
            (∀ k req, m !! k = Some req → promises e !! promise req = Some Pending →
                      promises (map_fold f e m) !! promise req = Some (Rejected err)) ∧
            (∀ k, m !! k = None →
                  pendingRequests (map_fold f e m) !! k = pendingRequests e !! k) ∧
            (∀ k req h, m !! k = Some req → p_timeout req = Some h →
                        timers (map_fold f e m) !! h = None) ∧
            sent (map_fold f e m) = sent e ∧ controllers (map_fold f e m) = controllers e ∧
            incomingRequests (map_fold f e m) = incomingRequests e) as Hloop.
  { intros m.
    apply (map_fold_weak_ind
             (λ r m, m ⊆ pendingRequests e →
                keeps_settled e r ∧
                (∀ p, promises e !! p = Some Pending →
                      promises r !! p = Some Pending ∨ promises r !! p = Some (Rejected err)) ∧
                (∀ k req, m !! k = Some req → promises e !! promise req = Some Pending →
                          promises r !! promise req = Some (Rejected err)) ∧
                (∀ k, m !! k = None → pendingRequests r !! k = pendingRequests e !! k) ∧
                (∀ k req h, m !! k = Some req → p_timeout req = Some h →
                            timers r !! h = None) ∧
                sent r = sent e ∧ controllers r = controllers e ∧
                incomingRequests r = incomingRequests e)).
    - intros _. split; [apply keeps_settled_refl|]. split; [by left|].
      split; [by intros k req ?%lookup_empty_Some|]. split; [done|].
      split; [by intros k req h ?%lookup_empty_Some|]. done.
    - clear m. intros i x m r Hi IH Hsub.
      assert (m ⊆ pendingRequests e) as Hsub'.
      { etrans; [by apply insert_subseteq|done]. }
      assert (pendingRequests e !! i = Some x) as Hx.
      { eapply lookup_weaken; [apply lookup_insert_eq|done]. }
      destruct (IH Hsub') as (Hkeep & Hstate & Hrej & Hpend & Htimers & Hsent & Hctl & Hinc).
      assert (pendingRequests r !! i = Some x) as Hrx by by rewrite Hpend.
      destruct (clearRequest_found i x r Hrx) as (Hcp & Hct & Hcpr & Hcs).
      destruct (settle_tables (promise x) (Rejected err) (clearRequest i r))
        as (Hsp & Hst & Hss).
      assert (keeps_settled r (f i x r)) as Hkeep'.
      { eapply keeps_settled_trans; [|apply keeps_settled_settle].
        by apply keeps_settled_same. }
      assert (∀ p, promises (f i x r) !! p
                   = if decide (p = promise x)
                     then match promises r !! p with
                          | Some Pending => Some (Rejected err)
                          | s => s
                          end
                     else promises r !! p) as Hpromises.
      { intros p. unfold f, settle. rewrite Hcpr.
        destruct (decide (p = promise x)) as [->|Hp].
        - destruct (promises r !! promise x) as [[]|] eqn:Hpx; rewrite ?Hcpr, ?Hpx; try done.
          simpl. rewrite Hcpr. apply list_lookup_insert_eq. by eapply lookup_lt_Some.
        - destruct (promises r !! promise x) as [[]|] eqn:Hpx; rewrite ?Hcpr; try done.
          simpl. rewrite Hcpr. by apply list_lookup_insert_ne. }
      split; [by eapply keeps_settled_trans|]. split; [|split; [|split; [|split]]].
      + intros p Hp. rewrite Hpromises. destruct (Hstate p Hp) as [Hr|Hr]; rewrite Hr.
        * case_decide; [by right|by left].
        * case_decide; by right.
      + intros k req Hk Hp. rewrite Hpromises.
        destruct (decide (k = i)) as [->|Hne].
        * rewrite lookup_insert_eq in Hk. injection Hk as <-.
          rewrite decide_True by done.
          by destruct (Hstate _ Hp) as [->| ->].
        * rewrite lookup_insert_ne in Hk by done.
          rewrite (Hrej k req Hk Hp). by case_decide.
      + intros k Hk. apply lookup_insert_None in Hk as [Hk Hne].
        unfold f. rewrite Hsp, Hcp, lookup_delete_ne by done. by apply Hpend.
      + intros k req h Hk Hh. unfold f. rewrite Hst, Hct.
        destruct (decide (k = i)) as [->|Hne].
        * rewrite lookup_insert_eq in Hk. injection Hk as <-. rewrite Hh.
          apply lookup_delete_eq.
        * rewrite lookup_insert_ne in Hk by done.
          pose proof (Htimers k req h Hk Hh) as Hnone.
          destruct (p_timeout x); [|done]. apply lookup_delete_None. by right.
      + unfold f. rewrite Hss, Hcs, Hsent.
        split; [done|]. unfold settle, clearRequest. rewrite Hrx.
        destruct (p_timeout x); simpl;
          by destruct (promises r !! promise x) as [[]|]. }
  intros e1. destruct (Hloop (pendingRequests e)) as (_ & _ & Hrej & _ & Htimers & Hrest);
    [done|].
  split; [exact Hrej|]. split; [exact Htimers|]. exact Hrest.
Qed.

Lemma close_aborts_incoming e2 :
  let e3 := map_fold (λ (_ : string) controller e,
                        abort controller (Some (JStr (err_message ConnectionClosedError))) e)
                     e2 (incomingRequests e2) in
  (∀ k ctl, incomingRequests e2 !! k = Some ctl → is_Some (controllers e2 !! ctl) →
            is_aborted ctl e3 = true) ∧
  promises e3 = promises e2 ∧ timers e3 = timers e2 ∧ sent e3 = sent e2 ∧
  pendingRequests e3 = pendingRequests e2 ∧ progressTokenIndex e3 = progressTokenIndex e2.
Proof.
  set (g := λ (_ : string) controller (e : Engine Handler),
              abort controller (Some (JStr (err_message ConnectionClosedError))) e).
  intros e3. unfold e3.
  apply (map_fold_weak_ind
           (λ r m,
              keeps_aborted e2 r ∧
              (∀ k ctl, m !! k = Some ctl → is_Some (controllers e2 !! ctl) →
                        is_aborted ctl r = true) ∧
              promises r = promises e2 ∧ timers r = timers e2 ∧ sent r = sent e2 ∧
              pendingRequests r = pendingRequests e2 ∧
              progressTokenIndex r = progressTokenIndex e2) g e2).
  - split; [apply keeps_aborted_refl|]. split; [by intros k ctl ?%lookup_empty_Some|done].
  - intros i x m r Hi (Hkeep & Hab & Hp & Ht & Hs & Hpend & Hpt).
    pose proof (keeps_aborted_abort x (Some (JStr (err_message ConnectionClosedError))) r)
      as Hstep.
    split; [by eapply keeps_aborted_trans|]. split.
    + intros k ctl Hk Hctl. destruct (decide (k = i)) as [->|Hne].
      * rewrite lookup_insert_eq in Hk. injection Hk as <-.
        apply is_aborted_abort. by apply (Hkeep x).
      * rewrite lookup_insert_ne in Hk by done.
        apply (Hstep ctl). by apply (Hab k).
    + unfold g, abort. by destruct (is_aborted x r).
Qed.

(** X26: [close] settles everything.  Every pending request is rejected
    with [Connection closed] (-32603) and its timer is disarmed, the abort
    handle of every incoming request is tripped, the three tables are left
    empty, and nothing is sent to any peer. *)
Theorem close_settles_everything e :
  (∀ k req, pendingRequests e !! k = Some req → promises e !! promise req = Some Pending →
            promises (close e) !! promise req
            = Some (Rejected {| err_code := Some (-32603);
                                err_message := "Connection closed" |})) ∧
  (∀ k req h, pendingRequests e !! k = Some req → p_timeout req = Some h →
              timers (close e) !! h = None) ∧
  (∀ k ctl, incomingRequests e !! k = Some ctl → is_Some (controllers e !! ctl) →
            is_aborted ctl (close e) = true) ∧
  pendingRequests (close e) = ∅ ∧ progressTokenIndex (close e) = ∅ ∧
  incomingRequests (close e) = ∅ ∧
  sent (close e) = sent e.
Proof.
  destruct (close_rejects_pending e) as (Hrej & Htimers & Hsent & Hctl & Hinc).
  cbv zeta in Hrej, Htimers, Hsent, Hctl, Hinc.
  unfold close.
  set (e1 := map_fold _ e (pendingRequests e)) in *.
  set (e2 := set_progressTokenIndex (λ _, ∅) (set_pendingRequests (λ _, ∅) e1)).
  destruct (close_aborts_incoming e2) as (Hab & Hp & Ht & Hs & Hpend & Hpt).
  cbv zeta in Hab, Hp, Ht, Hs, Hpend, Hpt.
  change (incomingRequests (set_pendingRequests (λ _, ∅) e1)) with (incomingRequests e2).
  set (e3 := map_fold _ e2 (incomingRequests e2)) in *.
  simpl. rewrite Hp, Ht, Hs, Hpend, Hpt. simpl.
  split; [exact Hrej|]. split; [exact Htimers|]. split; [|done].
  intros k ctl Hk Hc. unfold is_aborted. simpl.
  apply (Hab k ctl); simpl; [by rewrite Hinc|by rewrite Hctl].
Qed.

End engine_close.

(** ** The SSE response mode *)

Section sse_mode.
Import Js Schema SdkTransport Topics Transport.

Lemma handleSseResponse_delivered t sid msgs session events ds :
  deliverToProtocol t msgs sid session = (ds, Returned ()) →
  handleSseResponse t sid msgs session events
  = (sse_head ++ subscribed sid (List.filter isJSONRPCRequest msgs) ++ ds,
     Returned
       (let subscriptions := correlation_keys (List.filter isJSONRPCRequest msgs) in
        let r := on_stream_events subscriptions {| written := []; finished := [] |} events in
        {| sse_frames := written r.1;
           sse_ended :=
             match r.2 with
             | Some _ => true
             | None => forallb (λ i, bool_decide (i ∈ finished r.1))
                               (seq 0 (length subscriptions))
             end;
           sse_failure := r.2 |})).
Proof.
  intros Hdeliver. unfold handleSseResponse.
  change ((λ request, String_opt (request_id request)) <$>
          List.filter isJSONRPCRequest msgs)
    with (correlation_keys (List.filter isJSONRPCRequest msgs)).
  rewrite Hdeliver. unfold emit. rewrite !bind_returned.
  destruct (on_stream_events _ _ events) as [s failure]. simpl.
  by rewrite app_nil_r.
Qed.

Lemma on_stream_event_settles subs s ev : on_stream_event subs s ev ≠ Unsettled.
Proof.
  destruct ev as [i id d|i|i e]; simpl.
  - destruct (streaming subs s i); [|done]. by destruct (_ || _).
  - by destruct (streaming subs s i).
  - by destruct (streaming subs s i).
Qed.

Lemma on_stream_events_app subs s evs1 evs2 :
  on_stream_events subs s (evs1 ++ evs2)
  = match on_stream_events subs s evs1 with
    | (s', None) => on_stream_events subs s' evs2
    | (s', Some e) => (s', Some e)
    end.
Proof.
  revert s. induction evs1 as [|ev evs1 IH]; intros s; simpl; [done|].
  destruct (on_stream_event subs s ev) eqn:Hev; [apply IH|done|].
  by destruct (on_stream_event_settles _ _ _ Hev).
Qed.

Lemma on_stream_events_finished subs s evs :
  (∀ i, is_Some (subs !! i) → i ∈ finished s) → on_stream_events subs s evs = (s, None).
Proof.
  intros Hall.
  assert (∀ i, streaming subs s i = false) as Hrun.
  { intros i. unfold streaming. destruct (decide (is_Some (subs !! i))) as [Hi|Hi].
    - rewrite (bool_decide_eq_true_2 _ (Hall i Hi)). by rewrite andb_false_r.
    - by rewrite (bool_decide_eq_false_2 _ Hi). }
  induction evs as [|ev evs IH]; [done|]. simpl.
  assert (on_stream_event subs s ev = Returned s) as ->; [|done].
  destruct ev as [i d|i|i e]; simpl; by rewrite Hrun.
Qed.

Lemma on_stream_events_open k s evs :
  finished s = [] → Forall (λ ev, stays_open ev = true) evs →
  on_stream_events [k] s evs
  = ({| written := written s ++ frames_of evs; finished := [] |}, None).
Proof.
  intros Hs Hevs. revert s Hs. induction Hevs as [|ev evs Hev _ IH]; intros s Hs; simpl.
  - rewrite app_nil_r. destruct s. simpl in Hs. by subst.
  - destruct ev as [[|i] id d|[|i]|[|i] e]; simpl in Hev |- *; try done.
    + unfold streaming. rewrite Hs. simpl. apply negb_true_iff in Hev.
      unfold is_reply in Hev. rewrite Hev. rewrite IH by done. simpl.
      by rewrite <-app_assoc.
    + unfold frames_of. simpl. by apply IH.
    + unfold frames_of. simpl. by apply IH.
    + unfold frames_of. simpl. by apply IH.
Qed.

(** X27: in SSE mode everything that arrives for the request is forwarded.
    For a POST with one request, every message that the subscription delivers
    before the response (progress notifications among them) is written as a
    frame with the event id of the broker, in the order of arrival; the
    response or error is the last frame, after which the stream is ended and
    what arrives later is not written. *)
Theorem sse_forwards_everything (t : Transport) (sid : string) (request : json)
    (session : option TransportSession) (pre post : list StreamEvent)
    (eventId : string) (data : json) (ds : list Effect) :
  isJSONRPCRequest request = true →
  deliverToProtocol t [request] sid session = (ds, Returned ()) →
  Forall (λ ev, stays_open ev = true) pre →
  is_reply data = true →
  handleSseResponse t sid [request] session (pre ++ Arrived 0 eventId data :: post)
  = (sse_head ++ subscribed sid [request] ++ ds,
     Returned {| sse_frames := frames_of pre ++ [{| frame_id := eventId; frame_data := data |}];
                 sse_ended := true; sse_failure := None |}).
Proof.
  intros Hreq Hdeliver Hpre Hdata.
  rewrite (handleSseResponse_delivered _ _ _ _ _ _ Hdeliver).
  simpl. rewrite Hreq. unfold correlation_keys. simpl.
  rewrite on_stream_events_app,
    (on_stream_events_open _ {| written := []; finished := [] |} _ eq_refl Hpre). simpl.
  unfold is_reply in Hdata. rewrite Hdata. rewrite on_stream_events_finished.
  - done.
  - intros [|i] Hi; simpl; [by left|]. by destruct Hi.
Qed.

Lemma sse_forwards_everything_witness :
  handleSseResponse default_transport "s1" [a_ping] None
    [Arrived 0 "e1" (a_progress_event 1); Arrived 0 "e2" (a_progress_event 2);
     Arrived 0 "e3" (a_result (JNum 1)); Arrived 0 "e4" (a_progress_event 3)]
  = (sse_head ++ [Subscribed "mcp.s1.1.outbound" None],
     Returned {| sse_frames := [{| frame_id := "e1"; frame_data := a_progress_event 1 |};
                                {| frame_id := "e2"; frame_data := a_progress_event 2 |};
                                {| frame_id := "e3"; frame_data := a_result (JNum 1) |}];
                 sse_ended := true; sse_failure := None |}).
Proof.
  apply (sse_forwards_everything default_transport "s1" a_ping None
           [Arrived 0 "e1" (a_progress_event 1); Arrived 0 "e2" (a_progress_event 2)]
           [Arrived 0 "e4" (a_progress_event 3)] "e3" (a_result (JNum 1)) []);
    try reflexivity.
  by repeat constructor.
Defined.

Lemma on_stream_events_quiet subs i evs : ∀ s,
  is_Some (subs !! i) → i ∉ finished s → Forall (λ ev, quiet_for i ev = true) evs →
  ∃ s', on_stream_events subs s evs = (s', None) ∧ i ∉ finished s'.
Proof.
  induction evs as [|ev evs IH]; intros s Hi Hs Hevs; simpl; [by eexists|].
  apply Forall_cons in Hevs as [Hev Hevs].
  destruct ev as [j id d|j|j e]; simpl in Hev |- *; [| |done].
  - destruct (streaming subs s j); [|by apply IH].
    destruct (isJSONRPCResponse d || isJSONRPCError d) eqn:Hd; apply IH; simpl; try done.
    intros [->|?]%elem_of_cons; [|done].
    unfold is_reply in Hev. by rewrite Hd, bool_decide_eq_true_2 in Hev.
  - destruct (streaming subs s j); apply IH; simpl; try done.
    intros [->|?]%elem_of_cons; [|done]. by rewrite bool_decide_eq_true_2 in Hev.
Qed.

Lemma on_stream_event_bound subs s ev s' :
  NoDup (finished s) → (∀ i, i ∈ finished s → is_Some (subs !! i)) →
  (length (reply_frames (written s)) ≤ length (finished s))%nat →
  on_stream_event subs s ev = Returned s' →
  NoDup (finished s') ∧ (∀ i, i ∈ finished s' → is_Some (subs !! i)) ∧
  (length (reply_frames (written s')) ≤ length (finished s'))%nat.
Proof.
  intros Hnd Hin Hlen Hev.
  destruct ev as [j id d|j|j e]; simpl in Hev.
  - destruct (streaming subs s j) eqn:Hrun; [|by injection Hev as <-].
    unfold streaming in Hrun. apply andb_prop in Hrun as [Hj Hnj].
    apply bool_decide_eq_true in Hj. apply negb_true_iff, bool_decide_eq_false in Hnj.
    destruct (isJSONRPCResponse d || isJSONRPCError d) eqn:Hd; injection Hev as <-; simpl;
      unfold reply_frames; rewrite List.filter_app, length_app; simpl;
      unfold is_reply; rewrite Hd; simpl.
    + split; [by apply NoDup_cons|]. split.
      * by intros i [->|?]%elem_of_cons; [|apply Hin].
      * unfold reply_frames, is_reply in Hlen. lia.
    + split; [done|]. split; [done|]. unfold reply_frames, is_reply in Hlen. lia.
  - destruct (streaming subs s j) eqn:Hrun; injection Hev as <-; [|done].
    unfold streaming in Hrun. apply andb_prop in Hrun as [Hj Hnj].
    apply bool_decide_eq_true in Hj. apply negb_true_iff, bool_decide_eq_false in Hnj.
    simpl. split; [by apply NoDup_cons|]. split.
    + by intros i [->|?]%elem_of_cons; [|apply Hin].
    + lia.
  - destruct (streaming subs s j); [done|]. by injection Hev as <-.
Qed.

Lemma on_stream_events_bound subs evs : ∀ s,
  NoDup (finished s) → (∀ i, i ∈ finished s → is_Some (subs !! i)) →
  (length (reply_frames (written s)) ≤ length (finished s))%nat →
  (length (reply_frames (written (on_stream_events subs s evs).1)) ≤ length subs)%nat.
Proof.
  induction evs as [|ev evs IH]; intros s Hnd Hin Hlen; simpl.
  - etrans; [exact Hlen|].
    assert (finished s ⊆+ seq 0 (length subs)) as Hsub.
    { apply NoDup_submseteq; [done|]. intros i Hi%Hin.
      apply elem_of_seq. apply lookup_lt_is_Some in Hi. lia. }
    apply submseteq_length in Hsub. by rewrite length_seq in Hsub.
  - destruct (on_stream_event subs s ev) as [s'|e|] eqn:Hev;
      [| |by destruct (on_stream_event_settles _ _ _ Hev)].
    + destruct (on_stream_event_bound subs s ev s' Hnd Hin Hlen Hev) as (? & ? & ?).
      by apply IH.
    + simpl. etrans; [exact Hlen|].
      assert (finished s ⊆+ seq 0 (length subs)) as Hsub.
      { apply NoDup_submseteq; [done|]. intros i Hi%Hin.
        apply elem_of_seq. apply lookup_lt_is_Some in Hi. lia. }
      apply submseteq_length in Hsub. by rewrite length_seq in Hsub.
Qed.

(** X28: the SSE mode has no deadline and answers each request once.
    Whatever the subscriptions deliver, the stream holds at most one response
    or error frame per request of the POST; and as long as some request has
    been neither answered nor ended and no subscription has thrown, the
    response stays open, however long that lasts: [responseTimeoutMs] plays
    no part. *)
Theorem sse_stream_bounds (t : Transport) (sid : string) (msgs : list json)
    (session : option TransportSession) (events : list StreamEvent) (ds : list Effect) :
  let requests := List.filter isJSONRPCRequest msgs in
  deliverToProtocol t msgs sid session = (ds, Returned ()) →
  ∃ r, handleSseResponse t sid msgs session events
       = (sse_head ++ subscribed sid requests ++ ds, Returned r) ∧
       (length (reply_frames (sse_frames r)) ≤ length requests)%nat ∧
       (∀ i, is_Some (requests !! i) → Forall (λ ev, quiet_for i ev = true) events →
             sse_ended r = false ∧ sse_failure r = None).
Proof.
  intros requests Hdeliver.
  rewrite (handleSseResponse_delivered _ _ _ _ _ _ Hdeliver). fold requests.
  eexists. split; [reflexivity|]. cbv zeta. simpl sse_frames. split.
  - etrans; [apply on_stream_events_bound|].
    + simpl. apply NoDup_nil_2.
    + by intros i ?%elem_of_nil.
    + done.
    + unfold correlation_keys. by rewrite length_fmap.
  - intros i Hi Hquiet.
    assert (is_Some (correlation_keys requests !! i)) as Hi'.
    { unfold correlation_keys. rewrite list_lookup_fmap. destruct Hi as [r ->]. by eexists. }
    destruct (on_stream_events_quiet (correlation_keys requests) i events
                {| written := []; finished := [] |} Hi') as (s' & Hs' & Hni);
      [by intros ?%elem_of_nil|done|].
    rewrite Hs'. simpl. split; [|done].
    apply not_true_is_false. intros Hall. rewrite forallb_forall in Hall.
    specialize (Hall i). rewrite bool_decide_eq_true in Hall. apply Hni, Hall.
    apply in_seq. apply lookup_lt_is_Some in Hi'. lia.
Qed.

Lemma sse_stream_bounds_witness :
  ∃ r, handleSseResponse default_transport "s1" a_batch None
         [Arrived 0 "e1" (a_result (JNum 1)); Arrived 1 "e2" (a_progress_event 1)]
       = (sse_head ++ [Subscribed "mcp.s1.1.outbound" None; Subscribed "mcp.s1.a.outbound" None],
          Returned r) ∧
       sse_ended r = false.
Proof.
  destruct (sse_stream_bounds default_transport "s1" a_batch None
              [Arrived 0 "e1" (a_result (JNum 1)); Arrived 1 "e2" (a_progress_event 1)] []
              eq_refl) as (r & Hrun & _ & Hopen).
  exists r. split; [exact Hrun|].
  apply (Hopen 1%nat); [by eexists|by repeat constructor].
Defined.

End sse_mode.

Section router_samples.
Import Js Schema SdkTransport Topics Transport.

Lemma disabled_channels_are_405_witness :
  ∃ t, constructor post_only_options = Returned t ∧
       onRequest t an_env (a_get "/mcp" (Some "s1") None) []
       = ([], Finished (method_not_allowed "POST, DELETE, OPTIONS")) ∧
       onRequest t an_env (a_delete "/mcp" (Some "s1")) []
       = ([], Finished (method_not_allowed "GET, POST, OPTIONS")).
Proof.
  eexists. split; [reflexivity|]. split.
  - eapply (disabled_channels_are_405 post_only_options); try reflexivity; discriminate.
  - eapply (disabled_channels_are_405 post_only_options); try reflexivity; discriminate.
Defined.

End router_samples.

(** ** An engine callback that stays pending *)

Section pending_callback.
Import Js Schema SdkTransport Topics Transport.

Lemma deliver_pending (h : TransportMessageHandler) (pre post : list json) (m : json)
    (ctx : string) :
  Forall (λ m, h m ctx = Returned ()) pre → h m ctx = Unsettled →
  deliver h (pre ++ m :: post) ctx = ((λ m, Delivered m ctx) <$> (pre ++ [m]), Unsettled).
Proof.
  intros Hpre Hm. induction Hpre as [|m0 pre Hm0 _ IH]; simpl.
  - by rewrite Hm.
  - by rewrite Hm0, IH.
Qed.

(** X29: while the engine callback stays pending, the POST is not answered.
    The transport awaits the callback for each message in turn, and the engine
    awaits the handler of a request and the sending of its reply; when the
    callback does not return for one message, a POST on the notifications-only
    path or in JSON mode is left without a response, whatever the
    subscriptions deliver and however long it lasts: beyond the headers and
    the subscriptions, the messages up to that one are delivered and nothing
    else is done; the later messages are not delivered, nothing is published,
    and the response deadline, which is armed only when the delivery has
    returned, is never armed, so that no timeout error is produced either. *)
Theorem pending_callback_leaves_post_unanswered (t : Transport) (env : Env)
    (req : IncomingMessage) (events : list SubscriptionEvent) (pb : ParsedBody)
    (sid : string) (session : option TransportSession) (isNew : bool)
    (h : TransportMessageHandler) (pre post : list json) (m : json) :
  let ctx := match session with Some s => session_id s | None => sid end in
  method req = "POST" → pathname req = endpoint t →
  pathname req ≠ "/health" → pathname req ≠ "/readiness" →
  accepts_json req = true →
  getOrCreateSession t env req = session_success sid session isNew →
  parseRequestBody req = inr pb →
  List.filter isJSONRPCRequest (messages pb) = [] ∨
  is_sse (responseModeStrategy t (messages pb) session) = false →
  messageHandler t = Some h →
  messages pb = pre ++ m :: post →
  Forall (λ m, h m ctx = Returned ()) pre → h m ctx = Unsettled →
  ∃ setup, onRequest t env req events
           = (setup ++ ((λ m, Delivered m ctx) <$> (pre ++ [m])), Unanswered) ∧
           Forall (λ ef, is_setup ef = true) setup.
Proof.
  intros ctx Hm Hpath Hhealth Hready Hacc Hsession Hparse Hmode Hh Hmsgs Hpre Hpending.
  rewrite (onRequest_post _ _ _ _ Hm Hpath Hhealth Hready). unfold handlePost.
  unfold accepts_json in Hacc. simpl in Hacc. rewrite Hacc. simpl.
  rewrite Hsession, Hparse.
  assert (deliverToProtocol t (messages pb) sid session
          = ((λ m, Delivered m ctx) <$> (pre ++ [m]), Unsettled)) as Hdeliver.
  { unfold deliverToProtocol. rewrite Hh. fold ctx.
    by rewrite Hmsgs, (deliver_pending h pre post m ctx Hpre Hpending). }
  destruct (bool_decide (0 < length (List.filter isJSONRPCRequest (messages pb)))%nat)
    eqn:Hreqs; simpl.
  - destruct Hmode as [Hnone|Hjson].
    { rewrite Hnone in Hreqs. done. }
    rewrite Hjson. simpl. unfold handleJsonResponse, emit.
    rewrite !bind_returned, Hdeliver. simpl.
    eexists. split; [by rewrite app_assoc|].
    apply Forall_app. split.
    + destruct (isNew && _); by repeat constructor.
    + apply Forall_fmap, Forall_forall. done.
  - rewrite Hdeliver. simpl. by exists [].
Qed.

Lemma pending_callback_leaves_post_unanswered_witness :
  ∃ setup,
    onRequest a_pending_transport an_env (a_post "/" (ParsedJson a_ping))
      [Message 0 (a_result (JNum 1))]
    = (setup ++ [Delivered a_ping "6f1f0d3e-5d0c-4a1e-9f0a-2b7c8d9e0f11"], Unanswered) ∧
    Forall (λ ef, is_setup ef = true) setup.
Proof.
  apply (pending_callback_leaves_post_unanswered a_pending_transport an_env
           (a_post "/" (ParsedJson a_ping)) [Message 0 (a_result (JNum 1))]
           {| messages := [a_ping]; isBatch := false |}
           "6f1f0d3e-5d0c-4a1e-9f0a-2b7c8d9e0f11" None true a_pending_handler
           [] [] a_ping);
    try reflexivity; try discriminate.
  - by right.
  - constructor.
Defined.

End pending_callback.
